(** * Gait analysis core of phimotion3agent: ROM calculators, gait-cycle
      detection, gait-phase lookup and validation, the gait mode presets
      and the knee graph generator.

    The TypeScript sources compute on JavaScript numbers.  The functions are
    embedded once, over an interface [JSNumber] of the number operations
    they use, and the interface is instantiated twice:

    - [float], IEEE-754 binary64 as the kernel computes it: the numbers the
      program runs on;
    - [xnum], exact rational arithmetic extended with the special values
      NaN, +Infinity and -Infinity: the idealised reading of the code,
      without rounding and without overflow.

    Properties that rest on the structure of the code hold for every
    instance.  Properties that rest on the order of the numbers are proved
    from the laws [JSOrder], which both instances satisfy.  Properties
    that rest on what NaN does to the arithmetic are proved from the
    absorption laws, shown for both instances.  A property stated for
    [xnum] alone is a property of the exact reading; where rounding makes
    binary64 decide differently, the binary64 behaviour is stated next to
    it.

    A read outside an array gives [undefined] in JavaScript; every use the
    modelled code makes of such a value turns it into NaN, so the model
    reads [nan] there. *)

From Stdlib Require Import String.
From Stdlib Require Import ZArith QArith Qround Qabs List Bool Lia Lqa.
From Stdlib Require Import Sorted Permutation.
From Stdlib Require Import Floats.PrimFloat Floats.FloatOps Floats.SpecFloat.
From Stdlib Require Uint63 Floats.FloatAxioms.
Import ListNotations.

(* ================================================================== *)
(** ** JavaScript numbers *)

Class JSNumber (N : Type) : Type := {
  of_Z : Z -> N;                 (* an integer literal or an array length *)
  nan : N;
  neg_infinity : N;
  pos_infinity : N;
  add : N -> N -> N;
  sub : N -> N -> N;
  mul : N -> N -> N;
  div : N -> N -> N;
  ltb : N -> N -> bool;          (* a < b *)
  leb : N -> N -> bool;          (* a <= b *)
  eqb : N -> N -> bool;          (* a === b *)
  floor : N -> N;                (* Math.floor *)
  ceil : N -> N;                 (* Math.ceil *)
  round : N -> N;                (* Math.round: nearest integer, ties up *)
  abs : N -> N;                  (* Math.abs *)
  to_index : N -> option nat     (* the array index a number denotes as a key *)
}.

Section Derived.
Context {N : Type} {JSN : JSNumber N}.

Definition of_nat (n : nat) : N := of_Z (Z.of_nat n).

(** A decimal literal [m / 10^e], e.g. [dec 95 2] for [0.95]: both
    operands are exact, so the quotient is the literal's value. *)
Definition dec (m : Z) (e : nat) : N := div (of_Z m) (of_Z (10 ^ Z.of_nat e)).

Definition gtb (a b : N) : bool := ltb b a.
Definition geb (a b : N) : bool := leb b a.
Definition isNaN (a : N) : bool := negb (eqb a a).

(** [x] is the zero with the minus sign: [x === 0] and [1 / x < 0]. *)
Definition is_neg_zero (x : N) : bool :=
  eqb x (of_Z 0) && ltb (div (of_Z 1) x) (of_Z 0).

(** [Math.max(a, b)] and [Math.min(a, b)]: NaN if either is NaN; of the
    two zeros, [+0] is the greater. *)
Definition max2 (a b : N) : N :=
  if isNaN a then nan else if isNaN b then nan
  else if ltb a b then b
  else if ltb b a then a
  else if is_neg_zero a then b else a.
Definition min2 (a b : N) : N :=
  if isNaN a then nan else if isNaN b then nan
  else if ltb b a then b
  else if ltb a b then a
  else if is_neg_zero b then b else a.

(** [Math.max(...l)] and [Math.min(...l)]. *)
Definition math_max (l : list N) : N := fold_left max2 l neg_infinity.
Definition math_min (l : list N) : N := fold_left min2 l pos_infinity.

(** [Math.round(x * 10) / 10], the rounding to one decimal used throughout. *)
Definition round1 (x : N) : N := div (round (mul x (of_Z 10))) (of_Z 10).

(** [a[i]] for a loop counter and for a computed number. *)
Definition get (a : list N) (i : nat) : N := nth i a nan.
Definition get_num (a : list N) (i : N) : N :=
  match to_index i with
  | Some k => nth k a nan
  | None => nan
  end.

(** A number used where an integer count is expected, for the
    non-negative integers the code passes there. *)
Definition to_nat (x : N) : nat :=
  match to_index x with
  | Some k => k
  | None => O
  end.

(** [a.slice(from, to)] for integer bounds [0 <= from]. *)
Definition slice {A : Type} (a : list A) (from to : nat) : list A :=
  firstn (to - from) (skipn from a).

(** [a.reduce((acc, x) => acc + x, 0)]. *)
Definition sum (a : list N) : N := fold_left add a (of_Z 0).

(** [[...a].sort((x, y) => x - y)]: ascending numeric order, equal
    numbers in their order of arrival.  This is the sorted array for every
    array without NaN: there the comparator is consistent, and the
    language fixes the result.  With a NaN in the array [x - y] is NaN, the
    comparator is not consistent and ECMAScript leaves the order to the
    engine; the list computed here is then one possible order only, and
    every property below that reaches the sort is about arrays without
    NaN. *)
Fixpoint insert_sorted (x : N) (l : list N) : list N :=
  match l with
  | [] => [x]
  | y :: l' => if leb x y then x :: l else y :: insert_sorted x l'
  end.
Definition sort_asc (a : list N) : list N := fold_right insert_sorted [] a.

(** [x || d]: [d] when [x] is 0, NaN or [undefined]. *)
Definition truthy (x : N) : bool := negb (eqb x (of_Z 0)) && negb (isNaN x).
Definition or_else (x d : N) : N := if truthy x then x else d.

(** [Math.round(x * 100) / 100]. *)
Definition round2 (x : N) : N := div (round (mul x (of_Z 100))) (of_Z 100).

End Derived.

(* ------------------------------------------------------------------ *)
(** *** Exact instance: rationals with NaN and the infinities *)

Inductive xnum : Type :=
| Fin (q : Q)
| PInf
| NInf
| NaN.

Definition Qltb (a b : Q) : bool := negb (Qle_bool b a).

Definition xneg (a : xnum) : xnum :=
  match a with
  | Fin q => Fin (- q)
  | PInf => NInf
  | NInf => PInf
  | NaN => NaN
  end.

Definition xadd (a b : xnum) : xnum :=
  match a, b with
  | NaN, _ | _, NaN => NaN
  | Fin p, Fin q => Fin (p + q)
  | PInf, NInf | NInf, PInf => NaN
  | PInf, _ | _, PInf => PInf
  | NInf, _ | _, NInf => NInf
  end.

Definition xsub (a b : xnum) : xnum := xadd a (xneg b).

(** The infinity with the sign of [q], NaN for [q = 0]. *)
Definition signed_inf (q : Q) : xnum :=
  if Qeq_bool q 0 then NaN else if Qltb 0 q then PInf else NInf.

Definition xmul (a b : xnum) : xnum :=
  match a, b with
  | NaN, _ | _, NaN => NaN
  | Fin p, Fin q => Fin (p * q)
  | Fin p, PInf | PInf, Fin p => signed_inf p
  | Fin p, NInf | NInf, Fin p => signed_inf (- p)
  | PInf, PInf | NInf, NInf => PInf
  | PInf, NInf | NInf, PInf => NInf
  end.

Definition xdiv (a b : xnum) : xnum :=
  match a, b with
  | NaN, _ | _, NaN => NaN
  | Fin p, Fin q => if Qeq_bool q 0 then signed_inf p else Fin (p / q)
  | Fin _, _ => Fin 0
  | PInf, Fin q => if Qltb q 0 then NInf else PInf
  | NInf, Fin q => if Qltb q 0 then PInf else NInf
  | _, _ => NaN
  end.

Definition xltb (a b : xnum) : bool :=
  match a, b with
  | NaN, _ | _, NaN => false
  | Fin p, Fin q => Qltb p q
  | NInf, NInf | PInf, _ | _, NInf => false
  | _, _ => true
  end.

Definition xleb (a b : xnum) : bool :=
  match a, b with
  | NaN, _ | _, NaN => false
  | Fin p, Fin q => Qle_bool p q
  | NInf, _ | _, PInf => true
  | _, _ => false
  end.

Definition xeqb (a b : xnum) : bool :=
  match a, b with
  | Fin p, Fin q => Qeq_bool p q
  | PInf, PInf | NInf, NInf => true
  | _, _ => false
  end.

Definition xlift (f : Q -> Q) (a : xnum) : xnum :=
  match a with
  | Fin q => Fin (f q)
  | _ => a
  end.

Definition xfloor : xnum -> xnum := xlift (fun q => inject_Z (Qfloor q)).
Definition xceil : xnum -> xnum := xlift (fun q => inject_Z (Qceiling q)).
Definition xround : xnum -> xnum := xlift (fun q => inject_Z (Qfloor (q + (1 # 2)))).

Definition xabs (a : xnum) : xnum :=
  match a with
  | Fin q => Fin (Qabs q)
  | NaN => NaN
  | _ => PInf
  end.

(** A number denotes an array index when it is a non-negative integer. *)
Definition xto_index (a : xnum) : option nat :=
  match a with
  | Fin q =>
      let z := Qfloor q in
      if Qeq_bool q (inject_Z z) && (0 <=? z)%Z
      then Some (Z.to_nat z) else None
  | _ => None
  end.

#[export] Instance xnum_JSNumber : JSNumber xnum := {
  of_Z := fun z => Fin (inject_Z z);
  nan := NaN;
  neg_infinity := NInf;
  pos_infinity := PInf;
  add := xadd;
  sub := xsub;
  mul := xmul;
  div := xdiv;
  ltb := xltb;
  leb := xleb;
  eqb := xeqb;
  floor := xfloor;
  ceil := xceil;
  round := xround;
  abs := xabs;
  to_index := xto_index
}.

(** Numeric equality of results: rationals are compared as fractions. *)
Definition xeq (a b : xnum) : Prop :=
  match a, b with
  | Fin p, Fin q => p == q
  | PInf, PInf | NInf, NInf | NaN, NaN => True
  | _, _ => False
  end.

Definition finite (a : xnum) : Prop :=
  match a with
  | Fin _ => True
  | _ => False
  end.

(** [0 <= a], false of NaN as in JavaScript. *)
Definition nonneg (a : xnum) : Prop :=
  match a with
  | Fin q => 0 <= q
  | PInf => True
  | _ => False
  end.

(* ------------------------------------------------------------------ *)
(** *** IEEE-754 binary64 instance *)

(** The integer [z] as a float, for [|z| < 2^63]; exact below [2^53]. *)
Definition float_of_Z (z : Z) : float :=
  match z with
  | Z0 => PrimFloat.zero
  | Zpos _ => PrimFloat.of_uint63 (Uint63.of_Z z)
  | Zneg _ => PrimFloat.opp (PrimFloat.of_uint63 (Uint63.of_Z (- z)))
  end.

(** The integer [z] as a float, with the sign of [neg] when it is zero. *)
Definition float_of_rounded (neg : bool) (z : Z) : float :=
  match z with
  | Z0 => if neg then PrimFloat.neg_zero else PrimFloat.zero
  | _ => float_of_Z z
  end.

(** A finite float is [(-1)^s * m * 2^e]; with [e >= 0] it is an integer
    already, otherwise its magnitude is below [2^53] and the rounded
    integer converts back exactly. *)
Definition float_floor (x : float) : float :=
  match Prim2SF x with
  | S754_finite s m (Zneg k) =>
      let v := if s then Zneg m else Zpos m in
      float_of_rounded s (v / 2 ^ Zpos k)
  | _ => x
  end.

Definition float_ceil (x : float) : float :=
  match Prim2SF x with
  | S754_finite s m (Zneg k) =>
      let v := if s then Zneg m else Zpos m in
      float_of_rounded s (- ((- v) / 2 ^ Zpos k))
  | _ => x
  end.

Definition float_round (x : float) : float :=
  match Prim2SF x with
  | S754_finite s m (Zneg k) =>
      let v := if s then Zneg m else Zpos m in
      float_of_rounded s ((2 * v + 2 ^ Zpos k) / 2 ^ (Zpos k + 1))
  | _ => x
  end.

(** JavaScript arrays hold fewer than [2^32] elements: a larger integer is
    no index of any array, and is refused here before it is converted. *)
Definition max_index : Z := 2 ^ 32 - 2.

Definition index_of_Z (z : Z) : option nat :=
  if (z <=? max_index)%Z then Some (Z.to_nat z) else None.

Definition float_to_index (x : float) : option nat :=
  match Prim2SF x with
  | S754_zero _ => Some O
  | S754_finite false m e =>
      match e with
      | Zneg k =>
          if (Zpos m mod 2 ^ Zpos k =? 0)%Z
          then index_of_Z (Zpos m / 2 ^ Zpos k) else None
      | _ => if (e <=? 32)%Z then index_of_Z (Zpos m * 2 ^ e) else None
      end
  | _ => None
  end.

#[export] Instance float_JSNumber : JSNumber float | 10 := {
  of_Z := float_of_Z;
  nan := PrimFloat.nan;
  neg_infinity := PrimFloat.neg_infinity;
  pos_infinity := PrimFloat.infinity;
  add := PrimFloat.add;
  sub := PrimFloat.sub;
  mul := PrimFloat.mul;
  div := PrimFloat.div;
  ltb := PrimFloat.ltb;
  leb := PrimFloat.leb;
  eqb := PrimFloat.eqb;
  floor := float_floor;
  ceil := float_ceil;
  round := float_round;
  abs := PrimFloat.abs;
  to_index := float_to_index
}.

(* ================================================================== *)
(* ------------------------------------------------------------------ *)
(** *** The order of the numbers

    What the comparisons [<], [<=] and [===] of any model of the numbers
    must satisfy: apart from NaN, which compares false with everything,
    the numbers are totally preordered with the infinities at the two
    ends.  Both instances satisfy these laws (shown below), so what is
    proved from them holds in exact arithmetic and in binary64. *)
Class JSOrder (N : Type) {JSN : JSNumber N} : Prop := {
  js_leb_refl : forall a : N, isNaN a = false -> leb a a = true;
  js_leb_trans : forall a b c : N, leb a b = true -> leb b c = true -> leb a c = true;
  js_leb_total : forall a b : N,
    isNaN a = false -> isNaN b = false -> leb a b = true \/ leb b a = true;
  js_leb_number : forall a b : N, leb a b = true -> isNaN a = false /\ isNaN b = false;
  js_ltb_leb : forall a b : N, ltb a b = leb a b && negb (leb b a);
  js_eqb_leb : forall a b : N, eqb a b = leb a b && leb b a;
  js_isNaN_nan : isNaN (nan : N) = true;
  js_neg_infinity_least : forall a : N, isNaN a = false -> leb neg_infinity a = true;
  js_pos_infinity_greatest : forall a : N, isNaN a = false -> leb a pos_infinity = true;
  js_below_neg_infinity : forall a : N, leb a neg_infinity = true -> a = neg_infinity;
  js_above_pos_infinity : forall a : N, leb pos_infinity a = true -> a = pos_infinity
}.

(** The place of a binary64 value in the order, as a triple compared
    lexicographically: sign class, then exponent, then mantissa; none for
    NaN. *)
Definition order_key (x : spec_float) : option (Z * Z * Z) :=
  match x with
  | S754_nan => None
  | S754_zero _ => Some (0, 0, 0)%Z
  | S754_infinity true => Some (-2, 0, 0)%Z
  | S754_infinity false => Some (2, 0, 0)%Z
  | S754_finite true m e => Some (-1, - e, Zneg m)%Z
  | S754_finite false m e => Some (1, e, Zpos m)%Z
  end.

Definition key_le (a b : Z * Z * Z) : Prop :=
  let '(a1, a2, a3) := a in
  let '(b1, b2, b3) := b in
  (a1 < b1 \/ (a1 = b1 /\ (a2 < b2 \/ (a2 = b2 /\ a3 <= b3))))%Z.

(* ================================================================== *)

(** ** ROMCalculator: generic range-of-motion service (knee and hip) *)

Module ROMCalculator.

Inductive Method : Type := peak_detection | percentile_fallback.
Inductive PeakType : Type := flexion | extension.
Inductive DataQuality : Type := excellent | good | fair | poor.

Section Code.
Context {N : Type} {JSN : JSNumber N}.

Record ROMResult : Type := mkROMResult {
  anatomicalZero : N;
  maxFlexion : N;
  maxExtension : N;
  totalROM : N;
  method : Method;
  confidence : N
}.

Record PeakPoint : Type := mkPeakPoint {
  peak_index : nat;
  peak_value : N;
  peak_type : PeakType;
  peak_confidence : N
}.

Record ROMAnalysis : Type := mkROMAnalysis {
  left : ROMResult;
  right : ROMResult;
  asymmetry : N;
  averageROM : N;
  dataQuality : DataQuality
}.

Definition is_flexion (p : PeakPoint) : bool :=
  match peak_type p with flexion => true | extension => false end.
Definition is_extension (p : PeakPoint) : bool :=
  match peak_type p with extension => true | flexion => false end.

(** Mean of the first [frameCount] frames (default 15), to one decimal. *)
Definition calculateAnatomicalZeroOf (angles : list N) (frameCount : nat) : N :=
  let initialFrames := slice angles 0 (Nat.min frameCount (length angles)) in
  match length initialFrames with
  | O => of_Z 0
  | _ => round1 (div (sum initialFrames) (of_nat (length initialFrames)))
  end.

Definition calculateAnatomicalZero (angles : list N) : N :=
  calculateAnatomicalZeroOf angles 15.

Definition calculatePeakConfidence
    (angles : list N) (peakIndex windowSize : nat) : N :=
  let peak := get angles peakIndex in
  let before := slice angles (peakIndex - windowSize) peakIndex in
  let after := slice angles (peakIndex + 1) (peakIndex + windowSize + 1) in
  let beforeDiff := abs (sub peak (math_max before)) in
  let afterDiff := abs (sub peak (math_max after)) in
  let avgDiff := div (add beforeDiff afterDiff) (of_Z 2) in
  min2 (div avgDiff (of_Z 10)) (of_Z 1).

Definition windowSize : nat := 3.

(** The body of the scan at index [i]: the peak pushed there, if any. *)
Definition peakAt (angles : list N) (anatomicalZero : N) (i : nat)
  : list PeakPoint :=
  let current := get angles i in
  let isFlexionPeak :=
    gtb current anatomicalZero
    && forallb (fun val => leb val current) (slice angles (i - windowSize) i)
    && forallb (fun val => leb val current)
         (slice angles (i + 1) (i + windowSize + 1)) in
  let isExtensionPeak :=
    ltb current anatomicalZero
    && forallb (fun val => geb val current) (slice angles (i - windowSize) i)
    && forallb (fun val => geb val current)
         (slice angles (i + 1) (i + windowSize + 1)) in
  if isFlexionPeak then
    [mkPeakPoint i current flexion
       (calculatePeakConfidence angles i windowSize)]
  else if isExtensionPeak then
    [mkPeakPoint i current extension
       (calculatePeakConfidence angles i windowSize)]
  else [].

(** [for (i = windowSize; i < angles.length - windowSize; i++)]. *)
Definition findPeaks (angles : list N) (anatomicalZero : N) : list PeakPoint :=
  flat_map (peakAt angles anatomicalZero)
    (seq windowSize (length angles - windowSize - windowSize)).

Definition calculatePercentileROM (angles : list N) (anatomicalZero : N)
  : ROMResult :=
  let sorted := sort_asc angles in
  let percentile95 :=
    get_num sorted (floor (mul (of_nat (length sorted)) (dec 95 2))) in
  let percentile5 :=
    get_num sorted (floor (mul (of_nat (length sorted)) (dec 5 2))) in
  {| anatomicalZero := anatomicalZero;
     maxFlexion := round1 percentile95;
     maxExtension := round1 percentile5;
     totalROM := round1 (sub percentile95 percentile5);
     method := percentile_fallback;
     confidence := dec 7 1 |}.

(** Mean confidence of the detected peaks, 0 when there is none. *)
Definition averageConfidence (peaks : list PeakPoint) : N :=
  match length peaks with
  | O => of_Z 0
  | _ => div (fold_left (fun sum p => add sum (peak_confidence p)) peaks (of_Z 0))
             (of_nat (length peaks))
  end.

Definition calculatePeakROM (angles : list N) (anatomicalZero : N)
  : ROMResult :=
  let peaks := findPeaks angles anatomicalZero in
  let flexionPeaks := filter is_flexion peaks in
  let extensionPeaks := filter is_extension peaks in
  let avgConfidence := averageConfidence peaks in
  if (1 <=? length flexionPeaks)%nat && (1 <=? length extensionPeaks)%nat
     && gtb avgConfidence (dec 3 1)
  then
    let maxFlexion := math_max (map peak_value flexionPeaks) in
    let maxExtension := math_min (map peak_value extensionPeaks) in
    {| anatomicalZero := anatomicalZero;
       maxFlexion := round1 maxFlexion;
       maxExtension := round1 maxExtension;
       totalROM := round1 (sub maxFlexion maxExtension);
       method := peak_detection;
       confidence := min2 avgConfidence (dec 95 2) |}
  else calculatePercentileROM angles anatomicalZero.

Definition calculateLegROM (angles : list N) : ROMResult :=
  match angles with
  | [] =>
      {| anatomicalZero := of_Z 0;
         maxFlexion := of_Z 0;
         maxExtension := of_Z 0;
         totalROM := of_Z 0;
         method := percentile_fallback;
         confidence := of_Z 0 |}
  | _ => calculatePeakROM angles (calculateAnatomicalZero angles)
  end.

Definition calculateBilateralROM (leftAngles rightAngles : list N)
  : ROMAnalysis :=
  let leftROM := calculateLegROM leftAngles in
  let rightROM := calculateLegROM rightAngles in
  let asymmetry := abs (sub (totalROM leftROM) (totalROM rightROM)) in
  let averageROM := div (add (totalROM leftROM) (totalROM rightROM)) (of_Z 2) in
  let avgConfidence :=
    div (add (confidence leftROM) (confidence rightROM)) (of_Z 2) in
  let dataQuality :=
    if gtb avgConfidence (dec 8 1) && ltb asymmetry (of_Z 5) then excellent
    else if gtb avgConfidence (dec 6 1) && ltb asymmetry (of_Z 10) then good
    else if gtb avgConfidence (dec 4 1) && ltb asymmetry (of_Z 15) then fair
    else poor in
  {| left := leftROM;
     right := rightROM;
     asymmetry := round1 asymmetry;
     averageROM := round1 averageROM;
     dataQuality := dataQuality |}.


Record ROMCSVRow : Type := mkROMCSVRow {
  row_frame : nat;
  row_time : N;
  leftAngle : N;
  rightAngle : N;
  leftROM : N;
  rightROM : N;
  leftFlexion : N;
  rightFlexion : N;
  leftExtension : N;
  rightExtension : N
}.

(** The angle as a percentage of the leg's ROM, 0 when there is no ROM. *)
Definition currentROM (rom : ROMResult) (angle : N) : N :=
  if gtb (totalROM rom) (of_Z 0)
  then mul (div (sub angle (maxExtension rom)) (totalROM rom)) (of_Z 100)
  else of_Z 0.

Definition generateROMCSVData (leftAngles rightAngles timePoints : list N)
  : list ROMCSVRow :=
  let leftROM := calculateLegROM leftAngles in
  let rightROM := calculateLegROM rightAngles in
  map (fun it : nat * N =>
    let index := fst it in
    let time := snd it in
    let leftAngle := or_else (get leftAngles index) (of_Z 0) in
    let rightAngle := or_else (get rightAngles index) (of_Z 0) in
    let leftCurrentROM := currentROM leftROM leftAngle in
    let rightCurrentROM := currentROM rightROM rightAngle in
    {| row_frame := index;
       row_time := round2 time;
       leftAngle := round1 leftAngle;
       rightAngle := round1 rightAngle;
       leftROM := round1 leftCurrentROM;
       rightROM := round1 rightCurrentROM;
       leftFlexion :=
         if gtb leftAngle (anatomicalZero leftROM)
         then sub leftAngle (anatomicalZero leftROM) else of_Z 0;
       rightFlexion :=
         if gtb rightAngle (anatomicalZero rightROM)
         then sub rightAngle (anatomicalZero rightROM) else of_Z 0;
       leftExtension :=
         if ltb leftAngle (anatomicalZero leftROM)
         then sub (anatomicalZero leftROM) leftAngle else of_Z 0;
       rightExtension :=
         if ltb rightAngle (anatomicalZero rightROM)
         then sub (anatomicalZero rightROM) rightAngle else of_Z 0 |})
    (combine (seq 0 (length timePoints)) timePoints).

Definition generateRecommendations (analysis : ROMAnalysis) : list string :=
  (if ltb (averageROM analysis) (of_Z 20) then
     ["Hip ROM is below normal range. Consider mobility exercises."%string]
   else if gtb (averageROM analysis) (of_Z 50) then
     ["Hip ROM is above normal range. Monitor for hypermobility."%string]
   else [])
  ++ (if gtb (asymmetry analysis) (of_Z 10) then
        ["Significant asymmetry detected. Focus on bilateral training."%string]
      else if gtb (asymmetry analysis) (of_Z 5) then
        ["Moderate asymmetry present. Include unilateral exercises."%string]
      else [])
  ++ (match dataQuality analysis with
      | poor =>
          ["Data quality is poor. Consider re-recording with better conditions."%string]
      | _ => []
      end).

Record ROMSummary : Type := mkROMSummary {
  summary_analysis : ROMAnalysis;
  details_left_peaks : list PeakPoint;
  details_right_peaks : list PeakPoint;
  recommendations : list string
}.

Definition generateROMSummary (leftAngles rightAngles : list N) : ROMSummary :=
  let analysis := calculateBilateralROM leftAngles rightAngles in
  let leftPeaks := findPeaks leftAngles (anatomicalZero (left analysis)) in
  let rightPeaks := findPeaks rightAngles (anatomicalZero (right analysis)) in
  {| summary_analysis := analysis;
     details_left_peaks := leftPeaks;
     details_right_peaks := rightPeaks;
     recommendations := generateRecommendations analysis |}.

End Code.

Arguments ROMResult N : clear implicits.
Arguments PeakPoint N : clear implicits.
Arguments ROMAnalysis N : clear implicits.
Arguments ROMCSVRow N : clear implicits.
Arguments ROMSummary N : clear implicits.

End ROMCalculator.

(* ================================================================== *)
(** ** AnkleROMCalculator: dorsiflexion / plantarflexion ROM *)

Module AnkleROMCalculator.

Inductive AnklePeakType : Type := dorsiflexion | plantarflexion.

Section Code.
Context {N : Type} {JSN : JSNumber N}.

Record AnklePeak : Type := mkAnklePeak {
  value : N;
  type : AnklePeakType
}.

(** What [calculateAnkleROM] returns. *)
Record AnkleROM : Type := mkAnkleROM {
  rom_maxDorsiflexion : N;
  rom_maxPlantarflexion : N;
  rom_totalROM : N
}.

(** One side of an [AnkleROMAnalysis]. *)
Record AnkleSide : Type := mkAnkleSide {
  maxDorsiflexion : N;
  maxPlantarflexion : N;
  totalROM : N;
  anatomicalZero : N
}.

Record AnkleROMAnalysis : Type := mkAnkleROMAnalysis {
  left : AnkleSide;
  right : AnkleSide;
  asymmetry : N;
  averageROM : N
}.

Definition is_dorsiflexion (p : AnklePeak) : bool :=
  match type p with dorsiflexion => true | plantarflexion => false end.
Definition is_plantarflexion (p : AnklePeak) : bool :=
  match type p with plantarflexion => true | dorsiflexion => false end.

Definition calculateAnatomicalZero (angles : list N) : N :=
  let initialFrames :=
    min2 (of_Z 20) (floor (mul (of_nat (length angles)) (dec 1 1))) in
  let stanceFrames := slice angles 0 (to_nat initialFrames) in
  let mean := div (sum stanceFrames) (of_nat (length stanceFrames)) in
  round1 mean.

Definition findAnklePeaks (angles : list N) (anatomicalZero : N)
  : list AnklePeak :=
  let inner := seq 1 (length angles - 1 - 1) in
  let maxima :=
    flat_map (fun i =>
      if gtb (get angles i) (get angles (i - 1))
         && gtb (get angles i) (get angles (i + 1))
         && gtb (get angles i) anatomicalZero
      then [mkAnklePeak (get angles i) dorsiflexion] else []) inner in
  let minima :=
    flat_map (fun i =>
      if ltb (get angles i) (get angles (i - 1))
         && ltb (get angles i) (get angles (i + 1))
         && ltb (get angles i) anatomicalZero
      then [mkAnklePeak (get angles i) plantarflexion] else []) inner in
  let peaks := maxima ++ minima in
  match peaks with
  | [] =>
      let sortedAngles := sort_asc angles in
      let dorsiflexion95th :=
        get_num sortedAngles
          (floor (mul (of_nat (length sortedAngles)) (dec 95 2))) in
      let plantarflexion5th :=
        get_num sortedAngles
          (floor (mul (of_nat (length sortedAngles)) (dec 5 2))) in
      [mkAnklePeak dorsiflexion95th dorsiflexion;
       mkAnklePeak plantarflexion5th plantarflexion]
  | _ => peaks
  end.

Definition calculateAnkleROM (peaks : list AnklePeak) (anatomicalZero : N)
  : AnkleROM :=
  let dorsiflexionPeaks := filter is_dorsiflexion peaks in
  let plantarflexionPeaks := filter is_plantarflexion peaks in
  let maxDorsiflexion :=
    match dorsiflexionPeaks with
    | [] => anatomicalZero
    | _ => math_max (map value dorsiflexionPeaks)
    end in
  let maxPlantarflexion :=
    match plantarflexionPeaks with
    | [] => anatomicalZero
    | _ => math_min (map value plantarflexionPeaks)
    end in
  let totalROM :=
    add (abs (sub maxDorsiflexion anatomicalZero))
        (abs (sub maxPlantarflexion anatomicalZero)) in
  {| rom_maxDorsiflexion := round1 maxDorsiflexion;
     rom_maxPlantarflexion := round1 maxPlantarflexion;
     rom_totalROM := round1 totalROM |}.

Definition calculateBilateralROM (leftAngles rightAngles : list N)
  : AnkleROMAnalysis :=
  let leftAnatomicalZero := calculateAnatomicalZero leftAngles in
  let rightAnatomicalZero := calculateAnatomicalZero rightAngles in
  let leftPeaks := findAnklePeaks leftAngles leftAnatomicalZero in
  let rightPeaks := findAnklePeaks rightAngles rightAnatomicalZero in
  let leftROM := calculateAnkleROM leftPeaks leftAnatomicalZero in
  let rightROM := calculateAnkleROM rightPeaks rightAnatomicalZero in
  let asymmetry := abs (sub (rom_totalROM leftROM) (rom_totalROM rightROM)) in
  let averageROM :=
    div (add (rom_totalROM leftROM) (rom_totalROM rightROM)) (of_Z 2) in
  {| left := {| maxDorsiflexion := rom_maxDorsiflexion leftROM;
                maxPlantarflexion := rom_maxPlantarflexion leftROM;
                totalROM := rom_totalROM leftROM;
                anatomicalZero := leftAnatomicalZero |};
     right := {| maxDorsiflexion := rom_maxDorsiflexion rightROM;
                 maxPlantarflexion := rom_maxPlantarflexion rightROM;
                 totalROM := rom_totalROM rightROM;
                 anatomicalZero := rightAnatomicalZero |};
     asymmetry := round1 asymmetry;
     averageROM := round1 averageROM |}.


Record AnkleQualityMetrics : Type := mkAnkleQualityMetrics {
  confidence : N;
  dataQuality : ROMCalculator.DataQuality;
  recommendations : list string
}.

Definition calculateQualityMetrics (romAnalysis : AnkleROMAnalysis)
  : AnkleQualityMetrics :=
  let leftConsistency :=
    div (abs (sub (maxDorsiflexion (left romAnalysis))
                  (maxPlantarflexion (left romAnalysis))))
        (totalROM (left romAnalysis)) in
  let rightConsistency :=
    div (abs (sub (maxDorsiflexion (right romAnalysis))
                  (maxPlantarflexion (right romAnalysis))))
        (totalROM (right romAnalysis)) in
  let confidence := div (add leftConsistency rightConsistency) (of_Z 2) in
  let dataQuality :=
    if gtb confidence (dec 8 1) && ltb (asymmetry romAnalysis) (of_Z 5)
    then ROMCalculator.excellent
    else if gtb confidence (dec 6 1) && ltb (asymmetry romAnalysis) (of_Z 10)
    then ROMCalculator.good
    else if gtb confidence (dec 4 1) && ltb (asymmetry romAnalysis) (of_Z 15)
    then ROMCalculator.fair
    else ROMCalculator.poor in
  {| confidence := round2 confidence;
     dataQuality := dataQuality;
     recommendations :=
       (if ltb (averageROM romAnalysis) (of_Z 20) then
          ["Ankle ROM is below normal range. Consider mobility exercises."%string]
        else [])
       ++ (if geb (asymmetry romAnalysis) (of_Z 10) then
             ["Significant ankle asymmetry detected. Focus on bilateral training."%string]
           else if geb (asymmetry romAnalysis) (of_Z 5) then
             ["Moderate ankle asymmetry detected. Include unilateral exercises."%string]
           else [])
       ++ (match dataQuality with
           | ROMCalculator.poor =>
               ["Data quality is poor. Consider re-recording with better conditions."%string]
           | _ => []
           end) |}.

End Code.

Arguments AnklePeak N : clear implicits.
Arguments AnkleROM N : clear implicits.
Arguments AnkleSide N : clear implicits.
Arguments AnkleROMAnalysis N : clear implicits.
Arguments AnkleQualityMetrics N : clear implicits.

End AnkleROMCalculator.

(* ================================================================== *)
(** ** GaitCycleDetector: cycle extraction and normalisation *)

Module GaitCycleDetector.

Inductive Leg : Type := Left | Right.
Inductive EventType : Type := IC | LR | MSt | TSt | PSw | ISw | MSw | TSw.

Definition leg_eqb (a b : Leg) : bool :=
  match a, b with
  | Left, Left | Right, Right => true
  | _, _ => false
  end.

Section Code.
Context {N : Type} {JSN : JSNumber N}.

Record GaitEvent : Type := mkGaitEvent {
  event_frame : nat;
  event_time : N;
  event_type : EventType;
  event_leg : Leg
}.

Record GaitCycle : Type := mkGaitCycle {
  leg : Leg;
  startFrame : nat;
  endFrame : nat;
  startTime : N;
  endTime : N;
  duration : N;
  frames : list nat;
  hipAngles : list N;
  kneeAngles : list N;
  ankleAngles : list N
}.

Record GaitData : Type := mkGaitData {
  frame : nat;
  time : N;
  leftHip : N;
  rightHip : N;
  leftKnee : N;
  rightKnee : N;
  leftAnkle : N;
  rightAnkle : N;
  leftFootContact : bool;
  rightFootContact : bool
}.

Record NormalizedCycle : Type := mkNormalizedCycle {
  normalized_leg : Leg;
  normalizedHip : list N;
  normalizedKnee : list N;
  normalizedAnkle : list N
}.

(** The frames visited by
    [for (i = startFrame; i <= endFrame && i < data.length; i++)]. *)
Definition cycleFrames (data : list GaitData) (startFrame endFrame : nat)
  : list nat :=
  seq startFrame (Nat.min (endFrame + 1) (length data) - startFrame).

(** The values [f data[i]] pushed over the frames [fs]. *)
Definition collect (data : list GaitData) (f : GaitData -> N) (fs : list nat)
  : list N :=
  flat_map (fun i =>
    match nth_error data i with
    | Some d => [f d]
    | None => []
    end) fs.

Definition createGaitCycle (data : list GaitData)
    (startEvent endEvent : GaitEvent) (leg : Leg) : option GaitCycle :=
  let startFrame := event_frame startEvent in
  let endFrame := event_frame endEvent in
  let duration := sub (event_time endEvent) (event_time startEvent) in
  if ltb duration (dec 8 1) || gtb duration (dec 15 1) then None
  else
    let frames := cycleFrames data startFrame endFrame in
    Some
      {| leg := leg;
         startFrame := startFrame;
         endFrame := endFrame;
         startTime := event_time startEvent;
         endTime := event_time endEvent;
         duration := duration;
         frames := frames;
         hipAngles :=
           collect data
             (match leg with Left => leftHip | Right => rightHip end) frames;
         kneeAngles :=
           collect data
             (match leg with Left => leftKnee | Right => rightKnee end) frames;
         ankleAngles :=
           collect data
             (match leg with Left => leftAnkle | Right => rightAnkle end)
             frames |}.

(** The cycles of the consecutive pairs [ics[i], ics[i + 1]]. *)
Fixpoint cyclesOf (data : list GaitData) (ics : list GaitEvent) (leg : Leg)
  : list GaitCycle :=
  match ics with
  | startEvent :: (endEvent :: _) as rest =>
      match createGaitCycle data startEvent endEvent leg with
      | Some cycle => cycle :: cyclesOf data rest leg
      | None => cyclesOf data rest leg
      end
  | _ => []
  end.

Definition extractGaitCycles (data : list GaitData) (icEvents : list GaitEvent)
  : list GaitCycle :=
  let leftICs := filter (fun e => leg_eqb (event_leg e) Left) icEvents in
  let rightICs := filter (fun e => leg_eqb (event_leg e) Right) icEvents in
  cyclesOf data leftICs Left ++ cyclesOf data rightICs Right.

Definition resampleData (data : list N) (targetPoints : nat) : list N :=
  match data with
  | [] => []
  | [x] => repeat x targetPoints
  | _ =>
      let step :=
        div (sub (of_nat (length data)) (of_Z 1))
            (sub (of_nat targetPoints) (of_Z 1)) in
      map (fun i =>
        let index := mul (of_nat i) step in
        let lowerIndex := floor index in
        let upperIndex := ceil index in
        if eqb lowerIndex upperIndex then get_num data lowerIndex
        else
          let weight := sub index lowerIndex in
          let interpolated :=
            add (mul (get_num data lowerIndex) (sub (of_Z 1) weight))
                (mul (get_num data upperIndex) weight) in
          round1 interpolated) (seq 0 targetPoints)
  end.

Definition normalizeGaitCycles (cycles : list GaitCycle) (pointsCount : nat)
  : list NormalizedCycle :=
  map (fun cycle =>
    {| normalized_leg := leg cycle;
       normalizedHip := resampleData (hipAngles cycle) pointsCount;
       normalizedKnee := resampleData (kneeAngles cycle) pointsCount;
       normalizedAnkle := resampleData (ankleAngles cycle) pointsCount |})
    cycles.


(** The events pushed at frame [i] of the scan: left leg first. *)
Definition contactEvents (data : list GaitData) (i : nat) : list GaitEvent :=
  match nth_error data (i - 1), nth_error data i with
  | Some prev, Some cur =>
      (if negb (leftFootContact prev) && leftFootContact cur
       then [mkGaitEvent i (time cur) IC Left] else [])
      ++ (if negb (rightFootContact prev) && rightFootContact cur
          then [mkGaitEvent i (time cur) IC Right] else [])
  | _, _ => []
  end.

(** [events.sort((a, b) => a.frame - b.frame)]: ascending frames, equal
    frames in their order of arrival. *)
Fixpoint insertByFrame (e : GaitEvent) (l : list GaitEvent) : list GaitEvent :=
  match l with
  | [] => [e]
  | y :: l' =>
      if (event_frame e <=? event_frame y)%nat then e :: l
      else y :: insertByFrame e l'
  end.
Definition sortByFrame (events : list GaitEvent) : list GaitEvent :=
  fold_right insertByFrame [] events.

(** [for (i = 1; i < data.length; i++)], then the sort. *)
Definition detectInitialContacts (data : list GaitData) : list GaitEvent :=
  sortByFrame (flat_map (contactEvents data) (seq 1 (length data - 1))).

Record AverageAngles : Type := mkAverageAngles {
  avg_leftHip : list N;
  avg_rightHip : list N;
  avg_leftKnee : list N;
  avg_rightKnee : list N;
  avg_leftAnkle : list N;
  avg_rightAnkle : list N
}.

(** [cycles.reduce((sum, cycle) => sum + cycle.f[i], 0) / cycles.length]. *)
Definition averageAt (cycles : list NormalizedCycle)
    (f : NormalizedCycle -> list N) (i : nat) : N :=
  div (fold_left (fun sum cycle => add sum (get (f cycle) i)) cycles (of_Z 0))
      (of_nat (length cycles)).

(** One averaged series: zeros when the leg has no cycle, the averages
    otherwise, then every entry rounded to one decimal. *)
Definition averageSeries (cycles : list NormalizedCycle)
    (f : NormalizedCycle -> list N) (pointsCount : nat) : list N :=
  map round1
    (match cycles with
     | [] => repeat (of_Z 0) pointsCount
     | _ => map (averageAt cycles f) (seq 0 pointsCount)
     end).

(** [leftCycles[0]?.normalizedHip.length || 101]. *)
Definition averagePointsCount (leftCycles : list NormalizedCycle) : nat :=
  match leftCycles with
  | [] => 101
  | c :: _ =>
      match length (normalizedHip c) with
      | O => 101
      | n => n
      end
  end.

Definition calculateAverageAngles (normalizedCycles : list NormalizedCycle)
  : AverageAngles :=
  let leftCycles :=
    filter (fun c => leg_eqb (normalized_leg c) Left) normalizedCycles in
  let rightCycles :=
    filter (fun c => leg_eqb (normalized_leg c) Right) normalizedCycles in
  let pointsCount := averagePointsCount leftCycles in
  {| avg_leftHip := averageSeries leftCycles normalizedHip pointsCount;
     avg_rightHip := averageSeries rightCycles normalizedHip pointsCount;
     avg_leftKnee := averageSeries leftCycles normalizedKnee pointsCount;
     avg_rightKnee := averageSeries rightCycles normalizedKnee pointsCount;
     avg_leftAnkle := averageSeries leftCycles normalizedAnkle pointsCount;
     avg_rightAnkle := averageSeries rightCycles normalizedAnkle pointsCount |}.

End Code.

Arguments GaitEvent N : clear implicits.
Arguments GaitCycle N : clear implicits.
Arguments GaitData N : clear implicits.
Arguments NormalizedCycle N : clear implicits.
Arguments AverageAngles N : clear implicits.

End GaitCycleDetector.

(* ================================================================== *)
(** ** GaitPhaseDetector: the phase catalog and its lookup *)

Module GaitPhaseDetector.

Section Code.
Context {N : Type} {JSN : JSNumber N}.

Record GaitPhase : Type := mkGaitPhase {
  name : String.string;
  abbreviation : String.string;
  startPercent : N;
  endPercent : N;
  color : String.string;
  description : String.string
}.

Local Open Scope string_scope.

Definition STANDARD_PHASES : list GaitPhase :=
  [ mkGaitPhase "Initial Contact" "IC" (of_Z 0) (of_Z 2) "#ef4444"
      "Heel strike - foot first contacts ground";
    mkGaitPhase "Loading Response" "LR" (of_Z 2) (of_Z 12) "#f97316"
      "Weight acceptance and shock absorption";
    mkGaitPhase "Mid Stance" "MSt" (of_Z 12) (of_Z 31) "#eab308"
      "Single limb support over the foot";
    mkGaitPhase "Terminal Stance" "TSt" (of_Z 31) (of_Z 50) "#22c55e"
      "Heel off and weight shift forward";
    mkGaitPhase "Pre-Swing" "PSw" (of_Z 50) (of_Z 62) "#06b6d4"
      "Toe off preparation and double support";
    mkGaitPhase "Initial Swing" "ISw" (of_Z 62) (of_Z 75) "#3b82f6"
      "Foot clearance and acceleration";
    mkGaitPhase "Mid Swing" "MSw" (of_Z 75) (of_Z 87) "#8b5cf6"
      "Limb advancement to vertical";
    mkGaitPhase "Terminal Swing" "TSw" (of_Z 87) (of_Z 100) "#ec4899"
      "Deceleration and preparation for contact" ].

(** The predicate of the lookup: [percent] within the closed interval. *)
Definition contains (percent : N) (phase : GaitPhase) : bool :=
  geb percent (startPercent phase) && leb percent (endPercent phase).

Definition getPhaseAtPercent (percent : N) : option GaitPhase :=
  find (contains percent) STANDARD_PHASES.


Record GaitPhaseTransition : Type := mkGaitPhaseTransition {
  phase : string;
  percent : N;
  frame : N;
  detected : bool
}.

(** The transitions pushed for the phases [phase :: rest]: one for every
    phase but the last, named after the phase that follows. *)
Fixpoint transitionsOf (cycleLength : nat) (phases : list GaitPhase)
  : list GaitPhaseTransition :=
  match phases with
  | phase :: (next :: _) as rest =>
      let percentPosition := endPercent phase in
      let framePosition :=
        round (mul (div percentPosition (of_Z 100))
                   (sub (of_nat cycleLength) (of_Z 1))) in
      mkGaitPhaseTransition (abbreviation next) percentPosition framePosition
        true
      :: transitionsOf cycleLength rest
  | _ => []
  end.

Definition detectPhaseTransitions
    (hipAngles kneeAngles ankleAngles : list N) (footContact : list bool)
  : list GaitPhaseTransition :=
  transitionsOf (length hipAngles) STANDARD_PHASES.

Record PhaseMarker : Type := mkPhaseMarker {
  marker_percent : N;
  marker_phase : string;
  marker_color : string;
  marker_label : string
}.

Definition generatePhaseMarkers : list PhaseMarker :=
  filter (fun marker => gtb (marker_percent marker) (of_Z 0))
    (map (fun phase =>
       mkPhaseMarker (startPercent phase) (abbreviation phase) (color phase)
         (abbreviation phase)) STANDARD_PHASES).

Record PhaseLabel : Type := mkPhaseLabel {
  label_position : N;
  label_label : string;
  label_color : string
}.

Definition generatePhaseLabels : list PhaseLabel :=
  map (fun phase =>
    mkPhaseLabel (div (add (startPercent phase) (endPercent phase)) (of_Z 2))
      (abbreviation phase) (color phase)) STANDARD_PHASES.

(** [[...transitions].sort((a, b) => a.percent - b.percent)]: ascending
    percents, equal ones in their order of arrival; as for [sort_asc],
    the order is the engine's own when a percent is NaN. *)
Fixpoint insertByPercent (t : GaitPhaseTransition)
    (l : list GaitPhaseTransition) : list GaitPhaseTransition :=
  match l with
  | [] => [t]
  | y :: l' =>
      if leb (percent t) (percent y) then t :: l
      else y :: insertByPercent t l'
  end.
Definition sortByPercent (transitions : list GaitPhaseTransition)
  : list GaitPhaseTransition :=
  fold_right insertByPercent [] transitions.

(** The percent written to a transition that follows one standing at
    [prev]: at least 5 and at most 40 beyond it. *)
Definition constrain (prev p : N) : N :=
  let p1 := if ltb (sub p prev) (of_Z 5) then add prev (of_Z 5) else p in
  if gtb (sub p1 prev) (of_Z 40) then add prev (of_Z 40) else p1.

(** The [forEach] from index 1 on, each entry read against the already
    adjusted entry before it. *)
Fixpoint constrainFrom (prev : N) (l : list GaitPhaseTransition)
  : list GaitPhaseTransition :=
  match l with
  | [] => []
  | transition :: rest =>
      let p := constrain prev (percent transition) in
      mkGaitPhaseTransition (phase transition) p (frame transition)
        (detected transition)
      :: constrainFrom p rest
  end.

Definition validateTransitions (transitions : list GaitPhaseTransition)
  : list GaitPhaseTransition :=
  match sortByPercent transitions with
  | [] => []
  | first :: rest => first :: constrainFrom (percent first) rest
  end.

Definition getStanceSwingBoundary : N :=
  match find (fun p => String.eqb (abbreviation p) "PSw") STANDARD_PHASES with
  | Some preSwingPhase => endPercent preSwingPhase
  | None => of_Z 60
  end.

(** *** [validateTransitions] over shared objects

    [[...transitions]] copies the array, not the transition objects: the
    sorted copy holds the caller's objects, and [transition.percent = ...]
    writes into them.  A store holds the objects, an array is a list of
    references (positions in the store). *)
Definition Store : Type := list GaitPhaseTransition.

(** The transitions an array holds in a store. *)
Definition readAll (st : Store) (refs : list nat) : list GaitPhaseTransition :=
  flat_map (fun r =>
    match nth_error st r with
    | Some t => [t]
    | None => []
    end) refs.

Definition percentAt (st : Store) (r : nat) : N :=
  match nth_error st r with
  | Some t => percent t
  | None => nan
  end.

Fixpoint setAt (st : Store) (r : nat) (t : GaitPhaseTransition) : Store :=
  match st, r with
  | [], _ => []
  | _ :: rest, O => t :: rest
  | x :: rest, S r' => x :: setAt rest r' t
  end.

(** [object.percent = p] for the object behind [r]. *)
Definition setPercent (st : Store) (r : nat) (p : N) : Store :=
  match nth_error st r with
  | Some t => setAt st r (mkGaitPhaseTransition (phase t) p (frame t) (detected t))
  | None => st
  end.

Fixpoint insertRef (st : Store) (r : nat) (l : list nat) : list nat :=
  match l with
  | [] => [r]
  | y :: l' =>
      if leb (percentAt st r) (percentAt st y) then r :: l
      else y :: insertRef st r l'
  end.
Definition sortRefs (st : Store) (refs : list nat) : list nat :=
  fold_right (insertRef st) [] refs.

(** The body of the [forEach] at an index above 0: [r] is
    [validated[index]], [prev] is [validated[index - 1]]; both tests read
    the store as it then is. *)
Definition adjust (st : Store) (prev r : nat) : Store :=
  let st1 :=
    if ltb (sub (percentAt st r) (percentAt st prev)) (of_Z 5)
    then setPercent st r (add (percentAt st prev) (of_Z 5)) else st in
  if gtb (sub (percentAt st1 r) (percentAt st1 prev)) (of_Z 40)
  then setPercent st1 r (add (percentAt st1 prev) (of_Z 40)) else st1.

Fixpoint adjustFrom (st : Store) (prev : nat) (l : list nat) : Store :=
  match l with
  | [] => st
  | r :: rest => adjustFrom (adjust st prev r) r rest
  end.

(** The returned array and the store after the call. *)
Definition validateTransitionsIn (st : Store) (transitions : list nat)
  : list nat * Store :=
  let validated := sortRefs st transitions in
  (validated,
   match validated with
   | [] => st
   | first :: rest => adjustFrom st first rest
   end).

End Code.

Arguments GaitPhase N : clear implicits.
Arguments GaitPhaseTransition N : clear implicits.
Arguments PhaseMarker N : clear implicits.
Arguments PhaseLabel N : clear implicits.
Arguments Store N : clear implicits.

End GaitPhaseDetector.

(* ================================================================== *)
(** ** Gait mode presets: the configuration table *)

Module GaitModePresets.

Inductive GaitMode : Type := walk | run | sprint.

Section Code.
Context {N : Type} {JSN : JSNumber N}.

Record Range : Type := mkRange {
  range_min : N;
  range_max : N;
  range_center : N
}.

Record JointRanges : Type := mkJointRanges {
  hip : Range;
  knee : Range;
  ankle : Range
}.

Record PhaseBoundaries : Type := mkPhaseBoundaries {
  IC : N;
  LR : N;
  MSt : N;
  TSt : N;
  PSw : N;
  ISw : N;
  MSw : N;
  TSw : N
}.

Record AnalysisSettings : Type := mkAnalysisSettings {
  frameRate : N;
  cycleDuration : N;
  minCycles : N;
  maxCycles : N
}.

Record Threshold : Type := mkThreshold {
  threshold_confidence : N;
  threshold_asymmetry : N
}.

Record QualityThresholds : Type := mkQualityThresholds {
  excellent : Threshold;
  good : Threshold;
  fair : Threshold;
  poor : Threshold
}.

Record GaitModeConfig : Type := mkGaitModeConfig {
  mode : GaitMode;
  label : string;
  description : string;
  yAxisRange : Range;
  jointRanges : JointRanges;
  phaseBoundaries : PhaseBoundaries;
  analysisSettings : AnalysisSettings;
  qualityThresholds : QualityThresholds
}.

Definition range (lo hi c : Z) : Range := mkRange (of_Z lo) (of_Z hi) (of_Z c).

Definition GAIT_MODE_PRESETS (m : GaitMode) : GaitModeConfig :=
  match m with
  | walk =>
      {| mode := walk;
         label := "Walking";
         description := "Normal walking gait analysis";
         yAxisRange := range (-20) 80 0;
         jointRanges :=
           mkJointRanges (range (-50) 50 0) (range (-20) 80 0) (range (-30) 30 0);
         phaseBoundaries :=
           mkPhaseBoundaries (of_Z 0) (of_Z 12) (of_Z 31) (of_Z 50) (of_Z 62)
             (of_Z 75) (of_Z 87) (of_Z 100);
         analysisSettings :=
           mkAnalysisSettings (of_Z 100) (dec 11 1) (of_Z 3) (of_Z 15);
         qualityThresholds :=
           mkQualityThresholds
             (mkThreshold (dec 8 1) (of_Z 5)) (mkThreshold (dec 6 1) (of_Z 10))
             (mkThreshold (dec 4 1) (of_Z 15)) (mkThreshold (dec 2 1) (of_Z 20)) |}
  | run =>
      {| mode := run;
         label := "Running";
         description := "Running gait analysis (future implementation)";
         yAxisRange := range (-30) 100 0;
         jointRanges :=
           mkJointRanges (range (-60) 60 0) (range (-30) 100 0) (range (-40) 40 0);
         phaseBoundaries :=
           mkPhaseBoundaries (of_Z 0) (of_Z 10) (of_Z 25) (of_Z 45) (of_Z 55)
             (of_Z 70) (of_Z 85) (of_Z 100);
         analysisSettings :=
           mkAnalysisSettings (of_Z 120) (dec 8 1) (of_Z 5) (of_Z 20);
         qualityThresholds :=
           mkQualityThresholds
             (mkThreshold (dec 85 2) (of_Z 8)) (mkThreshold (dec 65 2) (of_Z 15))
             (mkThreshold (dec 45 2) (of_Z 20)) (mkThreshold (dec 25 2) (of_Z 25)) |}
  | sprint =>
      {| mode := sprint;
         label := "Sprinting";
         description := "Sprint gait analysis (future implementation)";
         yAxisRange := range (-40) 120 0;
         jointRanges :=
           mkJointRanges (range (-70) 70 0) (range (-40) 120 0) (range (-50) 50 0);
         phaseBoundaries :=
           mkPhaseBoundaries (of_Z 0) (of_Z 8) (of_Z 20) (of_Z 40) (of_Z 50)
             (of_Z 65) (of_Z 80) (of_Z 100);
         analysisSettings :=
           mkAnalysisSettings (of_Z 200) (dec 6 1) (of_Z 8) (of_Z 25);
         qualityThresholds :=
           mkQualityThresholds
             (mkThreshold (dec 9 1) (of_Z 10)) (mkThreshold (dec 7 1) (of_Z 18))
             (mkThreshold (dec 5 1) (of_Z 25)) (mkThreshold (dec 3 1) (of_Z 30)) |}
  end.

Definition getGaitModeConfig (m : GaitMode) : GaitModeConfig :=
  GAIT_MODE_PRESETS m.

Definition getPhaseBoundaries (m : GaitMode) : PhaseBoundaries :=
  phaseBoundaries (getGaitModeConfig m).

Definition getQualityThresholds (m : GaitMode) : QualityThresholds :=
  qualityThresholds (getGaitModeConfig m).

End Code.

Arguments Range N : clear implicits.
Arguments PhaseBoundaries N : clear implicits.
Arguments QualityThresholds N : clear implicits.
Arguments GaitModeConfig N : clear implicits.

End GaitModePresets.

(* ================================================================== *)
(** ** KneeGraphGenerator: phase labels, ROM analysis and quality of a
       knee series.  The generator's [mode] field is the first argument. *)

Module KneeGraphGenerator.

Inductive PeakType : Type := flexion | extension.

Section Code.
Context {N : Type} {JSN : JSNumber N}.

Record KneeDataPoint : Type := mkKneeDataPoint {
  gaitCyclePercent : N;
  phase : string;
  kneeLeft : N;
  kneeRight : N;
  time : N
}.

Record KneePeak : Type := mkKneePeak {
  value : N;
  type : PeakType
}.

(** What [calculateROM] returns. *)
Record KneeROM : Type := mkKneeROM {
  rom_maxFlexion : N;
  rom_maxExtension : N;
  rom_totalROM : N
}.

Record KneeSide : Type := mkKneeSide {
  maxFlexion : N;
  maxExtension : N;
  totalROM : N;
  anatomicalZero : N
}.

Record KneeROMAnalysis : Type := mkKneeROMAnalysis {
  left : KneeSide;
  right : KneeSide;
  asymmetry : N;
  averageROM : N
}.

Record KneeQualityMetrics : Type := mkKneeQualityMetrics {
  confidence : N;
  dataQuality : ROMCalculator.DataQuality;
  recommendations : list string
}.

Definition getPhaseAtPosition (m : GaitModePresets.GaitMode) (cyclePosition : N)
  : string :=
  let percent := mul cyclePosition (of_Z 100) in
  let boundaries := GaitModePresets.phaseBoundaries (GaitModePresets.getGaitModeConfig m) in
  if ltb percent (GaitModePresets.LR boundaries) then "IC"
  else if ltb percent (GaitModePresets.MSt boundaries) then "LR"
  else if ltb percent (GaitModePresets.TSt boundaries) then "MSt"
  else if ltb percent (GaitModePresets.PSw boundaries) then "TSt"
  else if ltb percent (GaitModePresets.ISw boundaries) then "PSw"
  else if ltb percent (GaitModePresets.MSw boundaries) then "ISw"
  else if ltb percent (GaitModePresets.TSw boundaries) then "MSw"
  else "TSw".

Definition calculateAnatomicalZero (angles : list N) : N :=
  let initialFrames := slice angles 0 (Nat.min 15 (length angles)) in
  match length initialFrames with
  | O => of_Z 0
  | _ => round1 (div (sum initialFrames) (of_nat (length initialFrames)))
  end.

Definition windowSize : nat := 3.

Definition peakAt (angles : list N) (anatomicalZero : N) (i : nat)
  : list KneePeak :=
  let current := get angles i in
  let isFlexionPeak :=
    gtb current anatomicalZero
    && forallb (fun val => leb val current) (slice angles (i - windowSize) i)
    && forallb (fun val => leb val current)
         (slice angles (i + 1) (i + windowSize + 1)) in
  let isExtensionPeak :=
    ltb current anatomicalZero
    && forallb (fun val => geb val current) (slice angles (i - windowSize) i)
    && forallb (fun val => geb val current)
         (slice angles (i + 1) (i + windowSize + 1)) in
  if isFlexionPeak then [mkKneePeak current flexion]
  else if isExtensionPeak then [mkKneePeak current extension]
  else [].

Definition findPeaks (angles : list N) (anatomicalZero : N) : list KneePeak :=
  flat_map (peakAt angles anatomicalZero)
    (seq windowSize (length angles - windowSize - windowSize)).

Definition is_flexion (p : KneePeak) : bool :=
  match type p with flexion => true | extension => false end.
Definition is_extension (p : KneePeak) : bool :=
  match type p with extension => true | flexion => false end.

Definition calculateROM (peaks : list KneePeak) (anatomicalZero : N) : KneeROM :=
  let flexionPeaks := filter is_flexion peaks in
  let extensionPeaks := filter is_extension peaks in
  if (0 <? length flexionPeaks)%nat && (0 <? length extensionPeaks)%nat then
    let maxFlexion := math_max (map value flexionPeaks) in
    let maxExtension := math_min (map value extensionPeaks) in
    {| rom_maxFlexion := round1 maxFlexion;
       rom_maxExtension := round1 maxExtension;
       rom_totalROM := round1 (sub maxFlexion maxExtension) |}
  else
    let sorted := sort_asc (map value peaks) in
    let percentile95 :=
      or_else (get_num sorted (floor (mul (of_nat (length sorted)) (dec 95 2))))
              anatomicalZero in
    let percentile5 :=
      or_else (get_num sorted (floor (mul (of_nat (length sorted)) (dec 5 2))))
              anatomicalZero in
    {| rom_maxFlexion := round1 percentile95;
       rom_maxExtension := round1 percentile5;
       rom_totalROM := round1 (sub percentile95 percentile5) |}.

Definition calculateROMAnalysis (leftAngles rightAngles : list N)
  : KneeROMAnalysis :=
  let leftAnatomicalZero := calculateAnatomicalZero leftAngles in
  let rightAnatomicalZero := calculateAnatomicalZero rightAngles in
  let leftPeaks := findPeaks leftAngles leftAnatomicalZero in
  let rightPeaks := findPeaks rightAngles rightAnatomicalZero in
  let leftROM := calculateROM leftPeaks leftAnatomicalZero in
  let rightROM := calculateROM rightPeaks rightAnatomicalZero in
  let asymmetry := abs (sub (rom_totalROM leftROM) (rom_totalROM rightROM)) in
  let averageROM :=
    div (add (rom_totalROM leftROM) (rom_totalROM rightROM)) (of_Z 2) in
  {| left := {| maxFlexion := rom_maxFlexion leftROM;
                maxExtension := rom_maxExtension leftROM;
                totalROM := rom_totalROM leftROM;
                anatomicalZero := leftAnatomicalZero |};
     right := {| maxFlexion := rom_maxFlexion rightROM;
                 maxExtension := rom_maxExtension rightROM;
                 totalROM := rom_totalROM rightROM;
                 anatomicalZero := rightAnatomicalZero |};
     asymmetry := round1 asymmetry;
     averageROM := round1 averageROM |}.

Definition calculateQualityMetrics (m : GaitModePresets.GaitMode)
    (romAnalysis : KneeROMAnalysis) : KneeQualityMetrics :=
  let thresholds :=
    GaitModePresets.qualityThresholds (GaitModePresets.getGaitModeConfig m) in
  let asymmetry := asymmetry romAnalysis in
  let confidence := dec 85 2 in
  let passes (t : GaitModePresets.Threshold) : bool :=
    gtb confidence (GaitModePresets.threshold_confidence t)
    && ltb asymmetry (GaitModePresets.threshold_asymmetry t) in
  let dataQuality :=
    if passes (GaitModePresets.excellent thresholds) then ROMCalculator.excellent
    else if passes (GaitModePresets.good thresholds) then ROMCalculator.good
    else if passes (GaitModePresets.fair thresholds) then ROMCalculator.fair
    else ROMCalculator.poor in
  {| confidence := round2 confidence;
     dataQuality := dataQuality;
     recommendations :=
       (if ltb (averageROM romAnalysis) (of_Z 30) then
          ["Knee ROM is below normal range. Consider mobility exercises."%string]
        else [])
       ++ (if geb asymmetry (of_Z 15) then
             ["High knee asymmetry detected. Focus on bilateral training."%string]
           else if geb asymmetry (of_Z 5) then
             ["Moderate knee asymmetry detected. Include unilateral exercises."%string]
           else [])
       ++ (match dataQuality with
           | ROMCalculator.poor =>
               ["Data quality is poor. Consider re-recording with better conditions."%string]
           | _ => []
           end) |}.

(** *** [generateAveragedSingleCycle]

    The object [averagedData] maps whole percents to buckets; a percent
    that passed the guard is a whole number from 0 to 100. *)
Record Bucket : Type := mkBucket {
  bucket_left : list N;
  bucket_right : list N;
  bucket_phase : string
}.

Definition Buckets : Type := list (nat * Bucket).

Fixpoint lookupBucket (k : nat) (d : Buckets) : option Bucket :=
  match d with
  | [] => None
  | (k', b) :: d' => if (k =? k')%nat then Some b else lookupBucket k d'
  end.

Fixpoint storeBucket (k : nat) (b : Bucket) (d : Buckets) : Buckets :=
  match d with
  | [] => [(k, b)]
  | (k', b') :: d' =>
      if (k =? k')%nat then (k, b) :: d' else (k', b') :: storeBucket k b d'
  end.

(** The guard of the [forEach] and the key a point is filed under. *)
Definition bucketKey (point : KneeDataPoint) : option nat :=
  let percent := round (gaitCyclePercent point) in
  if geb percent (of_Z 0) && leb percent (of_Z 100)
     && negb (isNaN (kneeLeft point)) && negb (isNaN (kneeRight point))
  then to_index percent else None.

Definition addPoint (averagedData : Buckets) (point : KneeDataPoint) : Buckets :=
  match bucketKey point with
  | Some percent =>
      let bucket :=
        match lookupBucket percent averagedData with
        | Some b => b
        | None => mkBucket [] [] (phase point)
        end in
      storeBucket percent
        (mkBucket (bucket_left bucket ++ [kneeLeft point])
           (bucket_right bucket ++ [kneeRight point]) (bucket_phase bucket))
        averagedData
  | None => averagedData
  end.

Definition averagedPoint (m : GaitModePresets.GaitMode) (percent : nat)
    (b : Bucket) : KneeDataPoint :=
  let cycleDuration :=
    GaitModePresets.cycleDuration
      (GaitModePresets.analysisSettings (GaitModePresets.getGaitModeConfig m)) in
  let avgLeft := div (sum (bucket_left b)) (of_nat (length (bucket_left b))) in
  let avgRight := div (sum (bucket_right b)) (of_nat (length (bucket_right b))) in
  {| gaitCyclePercent := of_nat percent;
     phase := bucket_phase b;
     kneeLeft := round1 avgLeft;
     kneeRight := round1 avgRight;
     time := mul (div (of_nat percent) (of_Z 100)) cycleDuration |}.

Definition generateAveragedSingleCycle (m : GaitModePresets.GaitMode)
    (dataPoints : list KneeDataPoint) : list KneeDataPoint :=
  let settings :=
    GaitModePresets.analysisSettings (GaitModePresets.getGaitModeConfig m) in
  let framesPerCycle :=
    floor (mul (GaitModePresets.cycleDuration settings)
               (GaitModePresets.frameRate settings)) in
  let averagedData := fold_left addPoint dataPoints [] in
  let singleCycle :=
    flat_map (fun percent =>
      match lookupBucket percent averagedData with
      | Some b =>
          if (0 <? length (bucket_left b))%nat && (0 <? length (bucket_right b))%nat
          then [averagedPoint m percent b] else []
      | None => []
      end) (seq 0 101) in
  match singleCycle with
  | [] => slice dataPoints 0 (to_nat framesPerCycle)
  | _ => singleCycle
  end.

(** The ROM analysis and quality metrics of [analyzeKneeData], from the
    two knee series of the data points. *)
Definition analyzeKneeData (m : GaitModePresets.GaitMode)
    (dataPoints : list KneeDataPoint) : KneeROMAnalysis * KneeQualityMetrics :=
  let leftAngles := map kneeLeft dataPoints in
  let rightAngles := map kneeRight dataPoints in
  let romAnalysis := calculateROMAnalysis leftAngles rightAngles in
  (romAnalysis, calculateQualityMetrics m romAnalysis).

End Code.

Arguments KneeDataPoint N : clear implicits.
Arguments KneePeak N : clear implicits.
Arguments KneeROM N : clear implicits.
Arguments KneeSide N : clear implicits.
Arguments KneeROMAnalysis N : clear implicits.
Arguments KneeQualityMetrics N : clear implicits.
Arguments Bucket N : clear implicits.
Arguments Buckets N : clear implicits.

End KneeGraphGenerator.


(* ================================================================== *)
(** ** Inputs of the end-to-end scenarios and specification predicates *)

(** Flat at 0 for 101 points, except 70 at index 75 and -5 at index 95. *)
Definition scenario1 {N : Type} {JSN : JSNumber N} : list N :=
  repeat (of_Z 0) 75 ++ [of_Z 70] ++ repeat (of_Z 0) 19 ++ [of_Z (-5)]
    ++ repeat (of_Z 0) 5.

(** The all-zero series of 101 points. *)
Definition flat101 {N : Type} {JSN : JSNumber N} : list N :=
  repeat (of_Z 0) 101.

(** 51 points, flat at 0 except a bump of 2 at index 20 and a dip of -2 at
    index 40: one flexion and one extension peak, both weak. *)
Definition weakPeaks {N : Type} {JSN : JSNumber N} : list N :=
  repeat (of_Z 0) 20 ++ [of_Z 2] ++ repeat (of_Z 0) 19 ++ [of_Z (-2)]
    ++ repeat (of_Z 0) 10.

(** An IC event of the left leg at [frame], sampled at 100 Hz. *)
Definition icAt {N : Type} {JSN : JSNumber N} (frame : nat)
  : GaitCycleDetector.GaitEvent N :=
  GaitCycleDetector.mkGaitEvent frame
    (div (of_nat frame) (of_Z 100))
    GaitCycleDetector.IC GaitCycleDetector.Left.

(** [s] and [e] are consecutive entries of [l]. *)
Definition adjacent {A : Type} (s e : A) (l : list A) : Prop :=
  exists l1 l2, l = l1 ++ s :: e :: l2.

(** [M] is a greatest, [m] a least value among the finite numbers of [l]. *)
Definition is_maximum (M : Q) (l : list xnum) : Prop :=
  In (Fin M) l /\ forall q, In (Fin q) l -> q <= M.
Definition is_minimum (m : Q) (l : list xnum) : Prop :=
  In (Fin m) l /\ forall q, In (Fin q) l -> m <= q.

(** [a <= b] on numbers, as the comparison of the code decides it. *)
Definition xle (a b : xnum) : Prop := xleb a b = true.

(** [x] is the first entry of [l] that satisfies [f]. *)
Definition first_such {A : Type} (f : A -> bool) (x : A) (l : list A) : Prop :=
  exists l1 l2,
    l = l1 ++ x :: l2 /\ f x = true /\ Forall (fun y => f y = false) l1.

(** The events of one leg, in order: what [extractGaitCycles] pairs up. *)
Definition eventsOf {N : Type} (leg : GaitCycleDetector.Leg)
    (icEvents : list (GaitCycleDetector.GaitEvent N))
  : list (GaitCycleDetector.GaitEvent N) :=
  filter (fun e => GaitCycleDetector.leg_eqb (GaitCycleDetector.event_leg e) leg)
    icEvents.

(** A run of phases that tile [lo, hi]: finite bounds, each phase starting
    where the previous one ends. *)
Inductive tiles : Q -> list (GaitPhaseDetector.GaitPhase xnum) -> Q -> Prop :=
| tiles_last (ph : GaitPhaseDetector.GaitPhase xnum) (a b : Q) :
    GaitPhaseDetector.startPercent ph = Fin a ->
    GaitPhaseDetector.endPercent ph = Fin b ->
    a <= b ->
    tiles a [ph] b
| tiles_cons (ph : GaitPhaseDetector.GaitPhase xnum) (a b c : Q)
    (l : list (GaitPhaseDetector.GaitPhase xnum)) :
    GaitPhaseDetector.startPercent ph = Fin a ->
    GaitPhaseDetector.endPercent ph = Fin b ->
    a <= b ->
    tiles b l c ->
    tiles a (ph :: l) c.

(** [b] is a boundary shared by two consecutive catalog phases, both of
    which contain it, and the lookup answers with the earlier one. *)
Definition shared_boundary {N : Type} {JSN : JSNumber N} (b : Z) : Prop :=
  exists p1 p2 : GaitPhaseDetector.GaitPhase N,
    adjacent p1 p2 GaitPhaseDetector.STANDARD_PHASES
    /\ GaitPhaseDetector.endPercent p1 = of_Z b
    /\ GaitPhaseDetector.startPercent p2 = of_Z b
    /\ GaitPhaseDetector.contains (of_Z b) p1 = true
    /\ GaitPhaseDetector.contains (of_Z b) p2 = true
    /\ GaitPhaseDetector.getPhaseAtPercent (of_Z b) = Some p1.

(** [Math.floor(n * m / 100)], the position read for the [m]-th percentile
    of [n] sorted values. *)
Definition percentile_pos (n : nat) (m : Z) : nat :=
  Z.to_nat (Qfloor (inject_Z (Z.of_nat n) * (inject_Z m / inject_Z 100))).

(** Every numeric field of a result is a finite number. *)
Definition finite_result (r : ROMCalculator.ROMResult xnum) : Prop :=
  finite (ROMCalculator.anatomicalZero r)
  /\ finite (ROMCalculator.maxFlexion r)
  /\ finite (ROMCalculator.maxExtension r)
  /\ finite (ROMCalculator.totalROM r)
  /\ finite (ROMCalculator.confidence r).

(** What [resampleData] makes of the sub-series [src] for [points] points:
    nothing of an empty one, [points] entries otherwise, and [points]
    copies of the only sample of a one-sample series. *)
Definition resampled {N : Type} (src out : list N) (points : nat) : Prop :=
  (src = [] -> out = [])
  /\ (src <> [] -> length out = points)
  /\ (forall x, src = [x] -> out = repeat x points).

(** The ramp 0, 1, ..., 110: a cycle of 111 samples. *)
Definition ramp111 {N : Type} {JSN : JSNumber N} : list N :=
  map of_nat (seq 0 111).

(** Eight samples, 0 everywhere but 1 at the end. *)
Definition step8 {N : Type} {JSN : JSNumber N} : list N :=
  map of_Z [0; 0; 0; 0; 0; 0; 0; 1]%Z.

(** Twelve ankle samples with one dorsiflexion and one plantarflexion
    peak. *)
Definition ankle12 {N : Type} {JSN : JSNumber N} : list N :=
  map of_Z [0; 1; 2; 3; 2; 1; 0; -1; -2; -1; 0; 0]%Z.

(** The foot-contact flag of a leg in one frame. *)
Definition contact {N : Type} (leg : GaitCycleDetector.Leg)
    (d : GaitCycleDetector.GaitData N) : bool :=
  match leg with
  | GaitCycleDetector.Left => GaitCycleDetector.leftFootContact d
  | GaitCycleDetector.Right => GaitCycleDetector.rightFootContact d
  end.

(** The hip, knee and ankle columns of a leg. *)
Definition hipOf {N : Type} (leg : GaitCycleDetector.Leg)
  : GaitCycleDetector.GaitData N -> N :=
  match leg with
  | GaitCycleDetector.Left => GaitCycleDetector.leftHip
  | GaitCycleDetector.Right => GaitCycleDetector.rightHip
  end.
Definition kneeOf {N : Type} (leg : GaitCycleDetector.Leg)
  : GaitCycleDetector.GaitData N -> N :=
  match leg with
  | GaitCycleDetector.Left => GaitCycleDetector.leftKnee
  | GaitCycleDetector.Right => GaitCycleDetector.rightKnee
  end.
Definition ankleOf {N : Type} (leg : GaitCycleDetector.Leg)
  : GaitCycleDetector.GaitData N -> N :=
  match leg with
  | GaitCycleDetector.Left => GaitCycleDetector.leftAnkle
  | GaitCycleDetector.Right => GaitCycleDetector.rightAnkle
  end.

(** The foot of [leg] touches down at frame [i] of [data]: off the ground
    in the frame before, on it in frame [i], which is [cur]. *)
Definition touchdown {N : Type} (data : list (GaitCycleDetector.GaitData N))
    (leg : GaitCycleDetector.Leg) (i : nat)
    (cur : GaitCycleDetector.GaitData N) : Prop :=
  (1 <= i)%nat
  /\ nth_error data i = Some cur
  /\ exists prev, nth_error data (i - 1) = Some prev
                  /\ contact leg prev = false /\ contact leg cur = true.

(** Frame [i] of a recording at 100 Hz in which each foot is on the ground
    for the first 66 frames of its period of 110 frames, the right foot
    half a period ahead of the left one. *)
Definition strideFrame {N : Type} {JSN : JSNumber N} (i : nat)
  : GaitCycleDetector.GaitData N :=
  GaitCycleDetector.mkGaitData i (div (of_nat i) (of_Z 100))
    (of_nat (i mod 110)) (of_nat ((i + 55) mod 110))
    (of_nat (i mod 50)) (of_nat ((i + 55) mod 50))
    (of_nat (i mod 20)) (of_nat ((i + 55) mod 20))
    (i mod 110 <? 66)%nat ((i + 55) mod 110 <? 66)%nat.

(** The first [n] frames of that recording. *)
Definition strides {N : Type} {JSN : JSNumber N} (n : nat)
  : list (GaitCycleDetector.GaitData N) :=
  map strideFrame (seq 0 n).

(** The three joints, the normalized series of a joint in a cycle, and the
    averaged series of a leg and joint in the result of
    [calculateAverageAngles]. *)
Inductive Joint : Type := Hip | Knee | Ankle.

Definition normalizedOf {N : Type} (j : Joint)
  : GaitCycleDetector.NormalizedCycle N -> list N :=
  match j with
  | Hip => GaitCycleDetector.normalizedHip
  | Knee => GaitCycleDetector.normalizedKnee
  | Ankle => GaitCycleDetector.normalizedAnkle
  end.

Definition averageOf {N : Type} (leg : GaitCycleDetector.Leg) (j : Joint)
  : GaitCycleDetector.AverageAngles N -> list N :=
  match leg, j with
  | GaitCycleDetector.Left, Hip => GaitCycleDetector.avg_leftHip
  | GaitCycleDetector.Left, Knee => GaitCycleDetector.avg_leftKnee
  | GaitCycleDetector.Left, Ankle => GaitCycleDetector.avg_leftAnkle
  | GaitCycleDetector.Right, Hip => GaitCycleDetector.avg_rightHip
  | GaitCycleDetector.Right, Knee => GaitCycleDetector.avg_rightKnee
  | GaitCycleDetector.Right, Ankle => GaitCycleDetector.avg_rightAnkle
  end.

(** The averaged angles the charts compute from a recording, with [p]
    points per cycle. *)
Definition chartAverages {N : Type} {JSN : JSNumber N}
    (data : list (GaitCycleDetector.GaitData N)) (p : nat)
  : GaitCycleDetector.AverageAngles N :=
  GaitCycleDetector.calculateAverageAngles
    (GaitCycleDetector.normalizeGaitCycles
       (GaitCycleDetector.extractGaitCycles data
          (GaitCycleDetector.detectInitialContacts data)) p).

(** The normalized cycles of one leg, in order. *)
Definition cyclesOfLeg {N : Type} (leg : GaitCycleDetector.Leg)
    (cycles : list (GaitCycleDetector.NormalizedCycle N))
  : list (GaitCycleDetector.NormalizedCycle N) :=
  filter (fun c => GaitCycleDetector.leg_eqb (GaitCycleDetector.normalized_leg c) leg)
    cycles.

(** Transitions whose percents are finite, each at least 5 and at most 40
    beyond the one before; [spaced prev l] reads the first against
    [prev]. *)
Fixpoint spaced (prev : Q) (l : list (GaitPhaseDetector.GaitPhaseTransition xnum))
  : Prop :=
  match l with
  | [] => True
  | t :: rest =>
      exists q, GaitPhaseDetector.percent t = Fin q
                /\ prev + 5 <= q /\ q <= prev + 40 /\ spaced q rest
  end.

Definition well_spaced (l : list (GaitPhaseDetector.GaitPhaseTransition xnum))
  : Prop :=
  match l with
  | [] => True
  | t :: rest => exists q, GaitPhaseDetector.percent t = Fin q /\ spaced q rest
  end.


(** [x] is an index into an array of [n] entries. *)
Definition index_below {N : Type} {JSN : JSNumber N} (x : N) (n : nat) : Prop :=
  exists i, to_index x = Some i /\ (i < n)%nat.

(** A transition standing at the whole percent [p]. *)
Definition transitionAt {N : Type} {JSN : JSNumber N} (p : Z)
  : GaitPhaseDetector.GaitPhaseTransition N :=
  GaitPhaseDetector.mkGaitPhaseTransition "T" (of_Z p) (of_Z p) false.

(** The abbreviation of the phase found at [percent], if any. *)
Definition phaseNameAt {N : Type} {JSN : JSNumber N} (percent : N)
  : option string :=
  option_map GaitPhaseDetector.abbreviation
    (GaitPhaseDetector.getPhaseAtPercent percent).

(** The three kinds of message of [generateRecommendations]. *)
Definition significant_asymmetry : string :=
  "Significant asymmetry detected. Focus on bilateral training.".
Definition moderate_asymmetry : string :=
  "Moderate asymmetry present. Include unilateral exercises.".
Definition poor_quality : string :=
  "Data quality is poor. Consider re-recording with better conditions.".

(** The messages of the ankle and knee quality metrics. *)
Definition significant_ankle_asymmetry : string :=
  "Significant ankle asymmetry detected. Focus on bilateral training.".
Definition moderate_ankle_asymmetry : string :=
  "Moderate ankle asymmetry detected. Include unilateral exercises.".

(** Twelve equal ankle samples. *)
Definition flat12 {N : Type} {JSN : JSNumber N} : list N :=
  repeat (of_Z 3) 12.

(** 26 knee samples at -10 with two bumps, to -5 at index 18 and to 0 at
    index 22. *)
Definition kneeBumps {N : Type} {JSN : JSNumber N} : list N :=
  repeat (of_Z (-10)) 18 ++ [of_Z (-5)] ++ repeat (of_Z (-10)) 3 ++ [of_Z 0]
    ++ repeat (of_Z (-10)) 3.

(** The knee peak that corresponds to a peak of the generic calculator. *)
Definition kneePeakOf {N : Type} (p : ROMCalculator.PeakPoint N)
  : KneeGraphGenerator.KneePeak N :=
  KneeGraphGenerator.mkKneePeak (ROMCalculator.peak_value p)
    (match ROMCalculator.peak_type p with
     | ROMCalculator.flexion => KneeGraphGenerator.flexion
     | ROMCalculator.extension => KneeGraphGenerator.extension
     end).

(** The catalog abbreviation with the given position among the eight
    phases, and the quality read off the asymmetry alone with the three
    limits of a mode. *)
Definition qualityBelow {N : Type} {JSN : JSNumber N}
    (best : ROMCalculator.DataQuality) (a l1 l2 l3 : N)
  : ROMCalculator.DataQuality :=
  if ltb a l1 then best
  else if ltb a l2 then ROMCalculator.good
  else if ltb a l3 then ROMCalculator.fair
  else ROMCalculator.poor.

(** The points filed under the whole percent [k], in order, and the point
    of the averaged cycle made of a non-empty group. *)
Definition groupAt {N : Type} {JSN : JSNumber N} (k : nat)
    (points : list (KneeGraphGenerator.KneeDataPoint N))
  : list (KneeGraphGenerator.KneeDataPoint N) :=
  filter (fun p =>
    match KneeGraphGenerator.bucketKey p with
    | Some k' => (k =? k')%nat
    | None => false
    end) points.

Definition groupPoint {N : Type} {JSN : JSNumber N} (m : GaitModePresets.GaitMode)
    (k : nat) (group : list (KneeGraphGenerator.KneeDataPoint N))
  : list (KneeGraphGenerator.KneeDataPoint N) :=
  match group with
  | [] => []
  | first :: _ =>
      [KneeGraphGenerator.mkKneeDataPoint (of_nat k)
         (KneeGraphGenerator.phase first)
         (round1 (div (sum (map KneeGraphGenerator.kneeLeft group))
                      (of_nat (length group))))
         (round1 (div (sum (map KneeGraphGenerator.kneeRight group))
                      (of_nat (length group))))
         (mul (div (of_nat k) (of_Z 100))
              (GaitModePresets.cycleDuration
                 (GaitModePresets.analysisSettings
                    (GaitModePresets.getGaitModeConfig m))))]
  end.

(** The position of a label among the eight phases. *)
Definition phaseRank (label : string) : nat :=
  if String.eqb label "IC" then 0
  else if String.eqb label "LR" then 1
  else if String.eqb label "MSt" then 2
  else if String.eqb label "TSt" then 3
  else if String.eqb label "PSw" then 4
  else if String.eqb label "ISw" then 5
  else if String.eqb label "MSw" then 6
  else 7.

(* ================================================================== *)
(** No entry is NaN. *)
Definition no_NaN {N : Type} {JSN : JSNumber N} (l : list N) : Prop :=
  Forall (fun x => isNaN x = false) l.

(** [M] is a greatest, [m] a least entry of [l], as [<=] decides it. *)
Definition greatest {N : Type} {JSN : JSNumber N} (M : N) (l : list N) : Prop :=
  In M l /\ Forall (fun x => leb x M = true) l.
Definition least {N : Type} {JSN : JSNumber N} (m : N) (l : list N) : Prop :=
  In m l /\ Forall (fun x => leb m x = true) l.

(** Every entry is [<=] all the entries after it. *)
Definition ascending {N : Type} {JSN : JSNumber N} (l : list N) : Prop :=
  StronglySorted (fun a b => leb a b = true) l.

(** 51 points, flat at 0 except a bump of 2 at index 20 and a dip of -4 at
    index 40: two peaks of confidence 0.2 and 0.4. *)
Definition borderlinePeaks {N : Type} {JSN : JSNumber N} : list N :=
  repeat (of_Z 0) 20 ++ [of_Z 2] ++ repeat (of_Z 0) 19 ++ [of_Z (-4)]
    ++ repeat (of_Z 0) 10.








(** At most one of the flexion and extension columns of each leg holds
    something else than the literal 0. *)
Definition one_sided {N : Type} {JSN : JSNumber N}
    (r : ROMCalculator.ROMCSVRow N) : Prop :=
  (ROMCalculator.leftFlexion r = of_Z 0 \/ ROMCalculator.leftExtension r = of_Z 0)
  /\ (ROMCalculator.rightFlexion r = of_Z 0
      \/ ROMCalculator.rightExtension r = of_Z 0).



(** One side of an ankle analysis reports no movement: equal extremes and
    a total ROM of 0. *)
Definition still_side {N : Type} {JSN : JSNumber N}
    (s : AnkleROMCalculator.AnkleSide N) : Prop :=
  eqb (AnkleROMCalculator.maxDorsiflexion s) (AnkleROMCalculator.maxPlantarflexion s)
  = true
  /\ eqb (AnkleROMCalculator.totalROM s) (of_Z 0) = true.

(** The quality metrics of an ankle analysis come out unusable: NaN
    confidence, quality poor, and the poor-quality message. *)
Definition unusable {N : Type} {JSN : JSNumber N}
    (a : AnkleROMCalculator.AnkleROMAnalysis N) : Prop :=
  isNaN (AnkleROMCalculator.confidence (AnkleROMCalculator.calculateQualityMetrics a))
  = true
  /\ AnkleROMCalculator.dataQuality (AnkleROMCalculator.calculateQualityMetrics a)
     = ROMCalculator.poor
  /\ In poor_quality
       (AnkleROMCalculator.recommendations
          (AnkleROMCalculator.calculateQualityMetrics a)).

(** Ten ankle samples at 0.3 with one sample of 0.35 at index 2. *)
Definition ankleDrift {N : Type} {JSN : JSNumber N} : list N :=
  [dec 3 1; dec 3 1; dec 35 2; dec 3 1; dec 3 1; dec 3 1; dec 3 1; dec 3 1;
   dec 3 1; dec 3 1].

(** * Properties *)

(** ** Facts about the exact numbers *)

Lemma Qltb_lt (a b : Q) : Qltb a b = true <-> a < b.
Proof.
  unfold Qltb. rewrite negb_true_iff.
  split; intro H.
  - apply Qnot_le_lt. intro L. apply Qle_bool_iff in L. congruence.
  - destruct (Qle_bool b a) eqn:E; [|reflexivity].
    apply Qle_bool_iff in E. exfalso. exact (Qlt_not_le _ _ H E).
Qed.

Lemma Qltb_ge (a b : Q) : Qltb a b = false <-> b <= a.
Proof.
  unfold Qltb. rewrite negb_false_iff. apply Qle_bool_iff.
Qed.

Lemma Qle_bool_gt (a b : Q) : Qle_bool a b = false <-> b < a.
Proof.
  split; intro H.
  - apply Qnot_le_lt. intro L. apply Qle_bool_iff in L. congruence.
  - destruct (Qle_bool a b) eqn:E; [|reflexivity].
    apply Qle_bool_iff in E. exfalso. exact (Qlt_not_le _ _ H E).
Qed.

Lemma Qeq_bool_refl (a : Q) : Qeq_bool a a = true.
Proof. apply Qeq_bool_iff. reflexivity. Qed.

Lemma xdiv_fin (a b : Q) : ~ b == 0 -> xdiv (Fin a) (Fin b) = Fin (a / b).
Proof.
  intro H. unfold xdiv. destruct (Qeq_bool b 0) eqn:E; [|reflexivity].
  apply Qeq_bool_iff in E. contradiction.
Qed.

Lemma get_num_nat (d : list xnum) (q : Q) (i : nat) :
  q == inject_Z (Z.of_nat i) -> get_num d (Fin q) = nth i d NaN.
Proof.
  intro H.
  assert (F : Qfloor q = Z.of_nat i) by (rewrite H; apply Qfloor_Z).
  assert (E : Qeq_bool q (inject_Z (Qfloor q)) = true)
    by (apply Qeq_bool_iff; rewrite F; exact H).
  unfold get_num. change (to_index (Fin q)) with (xto_index (Fin q)).
  unfold xto_index. rewrite E, F.
  replace (0 <=? Z.of_nat i)%Z with true by (symmetry; apply Z.leb_le; lia).
  cbn [andb]. rewrite Nat2Z.id. reflexivity.
Qed.

Lemma round1_fin (q : Q) :
  round1 (Fin q)
  = Fin (inject_Z (Qfloor (q * inject_Z 10 + (1 # 2))) / inject_Z 10).
Proof. reflexivity. Qed.

(** ** The order laws in the two number models *)

Lemma SFleb_key (x y : spec_float) :
  SFleb x y = true <->
  exists a b, order_key x = Some a /\ order_key y = Some b /\ key_le a b.
Proof.
  assert (Yes : forall a b : Z * Z * Z, key_le a b ->
            true = true <-> exists a' b', Some a = Some a' /\ Some b = Some b' /\ key_le a' b').
  { intros a b H. split; [intros _; exists a, b; repeat split; exact H|reflexivity]. }
  assert (No : forall a b : Z * Z * Z, ~ key_le a b ->
            false = true <-> exists a' b', Some a = Some a' /\ Some b = Some b' /\ key_le a' b').
  { intros a b H. split; [discriminate|].
    intros (a' & b' & Ha & Hb & L). injection Ha as <-. injection Hb as <-.
    contradiction. }
  assert (Nan : forall o o' : option (Z * Z * Z), o = None \/ o' = None ->
            false = true <-> exists a' b', o = Some a' /\ o' = Some b' /\ key_le a' b').
  { intros o o' H. split; [discriminate|].
    intros (a' & b' & Ha & Hb & _). destruct H; congruence. }
  unfold SFleb, SFcompare.
  destruct x as [sx|sx| |sx mx ex], y as [sy|sy| |sy my ey];
    try destruct sx; try destruct sy; cbn [order_key];
    try (apply Nan; (left; reflexivity) || (right; reflexivity));
    try (apply Yes; cbn; lia); try (apply No; cbn; lia);
    change (Pos.compare_cont Eq mx my) with (Pos.compare mx my);
    destruct (Z.compare_spec ex ey), (Pos.compare_spec mx my); cbn [CompOpp];
    try (apply Yes; cbn; lia); try (apply No; cbn; lia).
Qed.

Lemma SFltb_leb (x y : spec_float) : SFltb x y = SFleb x y && negb (SFleb y x).
Proof.
  unfold SFltb, SFleb, SFcompare.
  destruct x as [sx|sx| |sx mx ex], y as [sy|sy| |sy my ey];
    try destruct sx; try destruct sy; try reflexivity;
    change (Pos.compare_cont Eq mx my) with (Pos.compare mx my);
    change (Pos.compare_cont Eq my mx) with (Pos.compare my mx);
    rewrite (Z.compare_antisym ex ey), (Pos.compare_antisym mx my);
    destruct (ex ?= ey)%Z, (mx ?= my)%positive; reflexivity.
Qed.

Lemma SFeqb_leb (x y : spec_float) : SFeqb x y = SFleb x y && SFleb y x.
Proof.
  unfold SFeqb, SFleb, SFcompare.
  destruct x as [sx|sx| |sx mx ex], y as [sy|sy| |sy my ey];
    try destruct sx; try destruct sy; try reflexivity;
    change (Pos.compare_cont Eq mx my) with (Pos.compare mx my);
    change (Pos.compare_cont Eq my mx) with (Pos.compare my mx);
    rewrite (Z.compare_antisym ex ey), (Pos.compare_antisym mx my);
    destruct (ex ?= ey)%Z, (mx ?= my)%positive; reflexivity.
Qed.

Lemma float_leb_key (a b : float) :
  PrimFloat.leb a b = true <->
  exists x y, order_key (Prim2SF a) = Some x /\ order_key (Prim2SF b) = Some y
              /\ key_le x y.
Proof. rewrite FloatAxioms.leb_spec. apply SFleb_key. Qed.

Lemma float_isNaN_key (a : float) :
  @isNaN float _ a = false <-> exists x, order_key (Prim2SF a) = Some x.
Proof.
  unfold isNaN. change (@eqb float _) with PrimFloat.eqb.
  rewrite FloatAxioms.eqb_spec, SFeqb_leb, andb_diag, negb_false_iff, SFleb_key.
  split.
  - intros (x & _ & H & _). exists x. exact H.
  - intros (x & H). exists x, x. split; [exact H|]. split; [exact H|].
    destruct x as [[x1 x2] x3]. cbn. lia.
Qed.

#[export] Instance float_JSOrder : JSOrder float.
Proof.
  constructor.
  - intros a H. apply float_isNaN_key in H. destruct H as (x & H).
    apply float_leb_key. exists x, x. split; [exact H|]. split; [exact H|].
    destruct x as [[x1 x2] x3]. cbn. lia.
  - intros a b c H1 H2. apply float_leb_key in H1, H2. apply float_leb_key.
    destruct H1 as (x & y & Hx & Hy & L1), H2 as (y' & z & Hy' & Hz & L2).
    rewrite Hy in Hy'. injection Hy' as <-.
    exists x, z. split; [exact Hx|]. split; [exact Hz|].
    destruct x as [[x1 x2] x3], y as [[y1 y2] y3], z as [[z1 z2] z3].
    cbn in *. lia.
  - intros a b Ha Hb. apply float_isNaN_key in Ha, Hb.
    destruct Ha as (x & Hx), Hb as (y & Hy).
    destruct x as [[x1 x2] x3] eqn:Ex, y as [[y1 y2] y3] eqn:Ey.
    assert (D : key_le x y \/ key_le y x) by (subst x y; cbn; lia).
    subst x y.
    destruct D as [D|D]; [left|right]; apply float_leb_key;
      do 2 eexists; (split; [eassumption|]); (split; [eassumption|exact D]).
  - intros a b H. apply float_leb_key in H. destruct H as (x & y & Hx & Hy & _).
    split; apply float_isNaN_key; eexists; eassumption.
  - intros a b. change (@ltb float _) with PrimFloat.ltb.
    change (@leb float _) with PrimFloat.leb.
    rewrite FloatAxioms.ltb_spec, !FloatAxioms.leb_spec. apply SFltb_leb.
  - intros a b. change (@eqb float _) with PrimFloat.eqb.
    change (@leb float _) with PrimFloat.leb.
    rewrite FloatAxioms.eqb_spec, !FloatAxioms.leb_spec. apply SFeqb_leb.
  - reflexivity.
  - intros a H. apply float_isNaN_key in H. destruct H as (x & H).
    apply float_leb_key. exists (-2, 0, 0)%Z, x. split; [reflexivity|].
    split; [exact H|].
    destruct (Prim2SF a) as [s|s| |s m e]; try destruct s; cbn in H;
      try discriminate; injection H as <-; cbn; lia.
  - intros a H. apply float_isNaN_key in H. destruct H as (x & H).
    apply float_leb_key. exists x, (2, 0, 0)%Z. split; [exact H|].
    split; [reflexivity|].
    destruct (Prim2SF a) as [s|s| |s m e]; try destruct s; cbn in H;
      try discriminate; injection H as <-; cbn; lia.
  - intros a H. apply float_leb_key in H. destruct H as (x & y & Hx & Hy & L).
    change (Prim2SF neg_infinity) with (S754_infinity true) in Hy.
    cbn in Hy. injection Hy as <-.
    apply FloatAxioms.Prim2SF_inj.
    change (Prim2SF neg_infinity) with (S754_infinity true).
    destruct (Prim2SF a) as [s|s| |s m e]; try destruct s; cbn in Hx;
      try discriminate; injection Hx as <-; cbn in L; try lia; reflexivity.
  - intros a H. apply float_leb_key in H. destruct H as (x & y & Hx & Hy & L).
    change (Prim2SF pos_infinity) with (S754_infinity false) in Hx.
    cbn in Hx. injection Hx as <-.
    apply FloatAxioms.Prim2SF_inj.
    change (Prim2SF pos_infinity) with (S754_infinity false).
    destruct (Prim2SF a) as [s|s| |s m e]; try destruct s; cbn in Hy;
      try discriminate; injection Hy as <-; cbn in L; try lia; reflexivity.
Qed.

#[export] Instance xnum_JSOrder : JSOrder xnum.
Proof.
  constructor.
  - intros [q| | |]; try reflexivity; try discriminate.
    intros _. apply Qle_bool_iff, Qle_refl.
  - intros [p| | |] [q| | |] [r| | |]; try reflexivity; try discriminate.
    cbn [leb xnum_JSNumber xleb]. rewrite !Qle_bool_iff. apply Qle_trans.
  - intros [p| | |] [q| | |]; try discriminate; intros _ _;
      try (left; reflexivity); try (right; reflexivity).
    cbn [leb xnum_JSNumber xleb]. rewrite !Qle_bool_iff.
    destruct (Qlt_le_dec p q) as [H|H]; [left; apply Qlt_le_weak, H|right; exact H].
  - intros [p| | |] [q| | |]; try discriminate; intros _; split; try reflexivity;
      unfold isNaN; cbn [eqb xnum_JSNumber xeqb]; rewrite Qeq_bool_refl; reflexivity.
  - intros [p| | |] [q| | |]; try reflexivity.
    cbn [ltb leb xnum_JSNumber xltb xleb]. unfold Qltb.
    destruct (Qle_bool q p) eqn:E; cbn [negb]; [symmetry; apply andb_false_r|].
    rewrite andb_true_r. symmetry. apply Qle_bool_iff.
    apply Qle_bool_gt in E. apply Qlt_le_weak, E.
  - intros [p| | |] [q| | |]; try reflexivity.
    cbn [eqb leb xnum_JSNumber xeqb xleb].
    destruct (Qeq_bool p q) eqn:E.
    + apply Qeq_bool_iff in E. symmetry. apply andb_true_iff.
      split; apply Qle_bool_iff; rewrite E; apply Qle_refl.
    + symmetry. apply andb_false_iff.
      destruct (Qle_bool p q) eqn:A; [right|left; reflexivity].
      destruct (Qle_bool q p) eqn:B; [|reflexivity].
      apply Qle_bool_iff in A, B. apply Qeq_bool_neq in E.
      exfalso. apply E. apply Qle_antisym; assumption.
  - reflexivity.
  - intros [p| | |]; try reflexivity; discriminate.
  - intros [p| | |]; try reflexivity; discriminate.
  - intros [p| | |]; try reflexivity; discriminate.
  - intros [p| | |]; try reflexivity; discriminate.
Qed.

(** The two zeros of binary64 in [Math.max] and [Math.min], told apart by
    the sign of the reciprocal: [+0] is the greater in either order. *)
Lemma max2_min2_zeros :
  div (of_Z 1) (max2 PrimFloat.neg_zero PrimFloat.zero) = PrimFloat.infinity
  /\ div (of_Z 1) (max2 PrimFloat.zero PrimFloat.neg_zero) = PrimFloat.infinity
  /\ div (of_Z 1) (min2 PrimFloat.zero PrimFloat.neg_zero) = PrimFloat.neg_infinity
  /\ div (of_Z 1) (min2 PrimFloat.neg_zero PrimFloat.zero) = PrimFloat.neg_infinity.
Proof. repeat split; vm_compute; reflexivity. Qed.

(** NaN absorbs the arithmetic of binary64. *)
Lemma SF_nan_is_nan (x : float) : Prim2SF x = S754_nan -> x = PrimFloat.nan.
Proof. intro H. rewrite <- (FloatAxioms.SF2Prim_Prim2SF x), H. reflexivity. Qed.

Lemma float_add_nan_r (x : float) : PrimFloat.add x PrimFloat.nan = PrimFloat.nan.
Proof.
  apply SF_nan_is_nan. rewrite FloatAxioms.add_spec.
  change (Prim2SF PrimFloat.nan) with S754_nan.
  unfold FloatAxioms.SF64add, SFadd.
  destruct (Prim2SF x) as [s|s| |s m e]; try destruct s; reflexivity.
Qed.

Lemma float_add_nan_l (x : float) : PrimFloat.add PrimFloat.nan x = PrimFloat.nan.
Proof.
  apply SF_nan_is_nan. rewrite FloatAxioms.add_spec.
  change (Prim2SF PrimFloat.nan) with S754_nan. reflexivity.
Qed.

Lemma float_div_nan_l (x : float) : PrimFloat.div PrimFloat.nan x = PrimFloat.nan.
Proof.
  apply SF_nan_is_nan. rewrite FloatAxioms.div_spec.
  change (Prim2SF PrimFloat.nan) with S754_nan. reflexivity.
Qed.

Lemma float_mul_nan_l (x : float) : PrimFloat.mul PrimFloat.nan x = PrimFloat.nan.
Proof.
  apply SF_nan_is_nan. rewrite FloatAxioms.mul_spec.
  change (Prim2SF PrimFloat.nan) with S754_nan. reflexivity.
Qed.

(** ** Consequences of the order laws *)

Section OrderLaws.
Context {N : Type} {JSN : JSNumber N} {JSO : JSOrder N}.

Lemma ltb_true (a b : N) : ltb a b = true -> leb a b = true /\ leb b a = false.
Proof.
  rewrite js_ltb_leb, andb_true_iff, negb_true_iff. tauto.
Qed.

Lemma ltb_false (a b : N) :
  isNaN a = false -> isNaN b = false -> ltb a b = false -> leb b a = true.
Proof.
  intros Ha Hb. rewrite js_ltb_leb.
  destruct (js_leb_total a b Ha Hb) as [H|H]; rewrite H.
  - cbn [andb]. apply negb_false_iff.
  - destruct (leb a b); reflexivity.
Qed.

Lemma ltb_asym (a b : N) : ltb a b = true -> ltb b a = false.
Proof.
  intro H. apply ltb_true in H. destruct H as [H1 H2].
  rewrite js_ltb_leb, H2. reflexivity.
Qed.

Lemma isNaN_leb (a : N) : isNaN a = false <-> leb a a = true.
Proof.
  unfold isNaN. rewrite js_eqb_leb, andb_diag, negb_false_iff. tauto.
Qed.

Lemma isNaN_true_leb (a b : N) :
  isNaN a = true \/ isNaN b = true -> leb a b = false /\ ltb a b = false.
Proof.
  intro H.
  assert (L : leb a b = false).
  { destruct (leb a b) eqn:E; [|reflexivity].
    apply js_leb_number in E. destruct E, H; congruence. }
  split; [exact L|]. rewrite js_ltb_leb, L. reflexivity.
Qed.

(** [max2] and [min2] of two numbers: one of the two, and a bound. *)
Lemma max2_bound (a b : N) :
  isNaN a = false -> isNaN b = false ->
  (max2 a b = a \/ max2 a b = b)
  /\ leb a (max2 a b) = true /\ leb b (max2 a b) = true.
Proof.
  intros Ha Hb. unfold max2. rewrite Ha, Hb.
  pose proof (proj1 (isNaN_leb a) Ha) as Ra.
  pose proof (proj1 (isNaN_leb b) Hb) as Rb.
  destruct (ltb a b) eqn:E1.
  - apply ltb_true in E1. split; [right; reflexivity|]. split; [apply E1|exact Rb].
  - apply (ltb_false a b Ha Hb) in E1.
    destruct (ltb b a) eqn:E2.
    + split; [left; reflexivity|]. split; [exact Ra|exact E1].
    + apply (ltb_false b a Hb Ha) in E2.
      destruct (is_neg_zero a).
      * split; [right; reflexivity|]. split; [exact E2|exact Rb].
      * split; [left; reflexivity|]. split; [exact Ra|exact E1].
Qed.

Lemma min2_bound (a b : N) :
  isNaN a = false -> isNaN b = false ->
  (min2 a b = a \/ min2 a b = b)
  /\ leb (min2 a b) a = true /\ leb (min2 a b) b = true.
Proof.
  intros Ha Hb. unfold min2. rewrite Ha, Hb.
  pose proof (proj1 (isNaN_leb a) Ha) as Ra.
  pose proof (proj1 (isNaN_leb b) Hb) as Rb.
  destruct (ltb b a) eqn:E1.
  - apply ltb_true in E1. split; [right; reflexivity|]. split; [apply E1|exact Rb].
  - apply (ltb_false b a Hb Ha) in E1.
    destruct (ltb a b) eqn:E2.
    + split; [left; reflexivity|]. split; [exact Ra|exact E1].
    + apply (ltb_false a b Ha Hb) in E2.
      destruct (is_neg_zero b).
      * split; [right; reflexivity|]. split; [exact E2|exact Rb].
      * split; [left; reflexivity|]. split; [exact Ra|exact E1].
Qed.

Lemma fold_max_bound (l : list N) :
  no_NaN l -> forall a, isNaN a = false ->
  (fold_left max2 l a = a \/ In (fold_left max2 l a) l)
  /\ leb a (fold_left max2 l a) = true
  /\ Forall (fun x => leb x (fold_left max2 l a) = true) l.
Proof.
  induction 1 as [|x l Hx _ IH]; intros a Ha; cbn [fold_left].
  - split; [left; reflexivity|]. split; [apply isNaN_leb, Ha|constructor].
  - destruct (max2_bound a x Ha Hx) as (C & La & Lx).
    assert (Hm : isNaN (max2 a x) = false)
      by (destruct C as [-> | ->]; assumption).
    destruct (IH (max2 a x) Hm) as (I & L & A).
    split; [|split].
    + destruct I as [I|I]; [|right; right; exact I].
      rewrite I. destruct C as [C|C]; [left; exact C|right; left; symmetry; exact C].
    + eapply js_leb_trans; eassumption.
    + constructor; [eapply js_leb_trans; eassumption|exact A].
Qed.

Lemma fold_min_bound (l : list N) :
  no_NaN l -> forall a, isNaN a = false ->
  (fold_left min2 l a = a \/ In (fold_left min2 l a) l)
  /\ leb (fold_left min2 l a) a = true
  /\ Forall (fun x => leb (fold_left min2 l a) x = true) l.
Proof.
  induction 1 as [|x l Hx _ IH]; intros a Ha; cbn [fold_left].
  - split; [left; reflexivity|]. split; [apply isNaN_leb, Ha|constructor].
  - destruct (min2_bound a x Ha Hx) as (C & La & Lx).
    assert (Hm : isNaN (min2 a x) = false)
      by (destruct C as [-> | ->]; assumption).
    destruct (IH (min2 a x) Hm) as (I & L & A).
    split; [|split].
    + destruct I as [I|I]; [|right; right; exact I].
      rewrite I. destruct C as [C|C]; [left; exact C|right; left; symmetry; exact C].
    + eapply js_leb_trans; eassumption.
    + constructor; [eapply js_leb_trans; eassumption|exact A].
Qed.

(** [Math.max(...l)] of numbers is a greatest entry, [Math.min(...l)] a
    least one. *)
Lemma math_max_greatest (l : list N) :
  l <> [] -> no_NaN l -> greatest (math_max l) l.
Proof.
  intros Hne F. destruct l as [|x l]; [congruence|].
  pose proof (Forall_inv F) as Hx. cbn beta in Hx.
  assert (Hi : isNaN (neg_infinity : N) = false).
  { apply (js_leb_number neg_infinity x), js_neg_infinity_least, Hx. }
  destruct (fold_max_bound (x :: l) F neg_infinity Hi) as (I & _ & A).
  split; [|exact A].
  destruct I as [I|I]; [|exact I].
  unfold math_max. rewrite I. left.
  apply js_below_neg_infinity. rewrite <- I. exact (Forall_inv A).
Qed.

Lemma math_min_least (l : list N) :
  l <> [] -> no_NaN l -> least (math_min l) l.
Proof.
  intros Hne F. destruct l as [|x l]; [congruence|].
  pose proof (Forall_inv F) as Hx. cbn beta in Hx.
  assert (Hi : isNaN (pos_infinity : N) = false).
  { apply (js_leb_number x pos_infinity), js_pos_infinity_greatest, Hx. }
  destruct (fold_min_bound (x :: l) F pos_infinity Hi) as (I & _ & A).
  split; [|exact A].
  destruct I as [I|I]; [|exact I].
  unfold math_min. rewrite I. left.
  apply js_above_pos_infinity. rewrite <- I. exact (Forall_inv A).
Qed.

(** The sort of an array of numbers. *)
Lemma insert_sorted_permutation (x : N) (l : list N) :
  Permutation (x :: l) (insert_sorted x l).
Proof.
  induction l as [|y l IH]; cbn [insert_sorted]; [reflexivity|].
  destruct (leb x y); [reflexivity|].
  rewrite perm_swap. apply perm_skip, IH.
Qed.

Lemma sort_asc_permutation (l : list N) : Permutation l (sort_asc l).
Proof.
  induction l as [|x l IH]; [reflexivity|].
  cbn [sort_asc fold_right]. rewrite <- insert_sorted_permutation.
  apply perm_skip, IH.
Qed.

Lemma insert_sorted_ascending (x : N) (l : list N) :
  isNaN x = false -> no_NaN l -> ascending l -> ascending (insert_sorted x l).
Proof.
  intros Hx F S. induction S as [|y l S IH Hy]; cbn [insert_sorted].
  - repeat constructor.
  - pose proof (Forall_inv F) as Fy. cbn beta in Fy.
    pose proof (Forall_inv_tail F) as Fl.
    destruct (leb x y) eqn:E.
    + constructor; [constructor; assumption|].
      constructor; [exact E|].
      eapply Forall_impl; [|exact Hy]. intros z Hz. cbn beta in *.
      eapply js_leb_trans; eassumption.
    + constructor; [apply IH, Fl|].
      assert (Lyx : leb y x = true).
      { destruct (js_leb_total x y Hx Fy) as [H|H]; [congruence|exact H]. }
      apply Forall_forall. intros z Hz.
      apply (Permutation_in z (Permutation_sym (insert_sorted_permutation x l))) in Hz.
      destruct Hz as [<-|Hz]; [exact Lyx|].
      rewrite Forall_forall in Hy. apply Hy, Hz.
Qed.

Lemma sort_asc_no_NaN (l : list N) : no_NaN l -> no_NaN (sort_asc l).
Proof.
  intro F. apply Forall_forall. intros x Hx.
  apply (Permutation_in x (Permutation_sym (sort_asc_permutation l))) in Hx.
  unfold no_NaN in F. rewrite Forall_forall in F. apply F, Hx.
Qed.

Lemma sort_asc_ascending (l : list N) : no_NaN l -> ascending (sort_asc l).
Proof.
  induction 1 as [|x l Hx Hl IH]; [constructor|].
  cbn [sort_asc fold_right].
  apply insert_sorted_ascending; [exact Hx|apply sort_asc_no_NaN, Hl|exact IH].
Qed.

(** Every detected peak stands at an inner index and carries the sample
    there. *)
Lemma findPeaks_peak (angles : list N) (zero : N) (p : ROMCalculator.PeakPoint N) :
  In p (ROMCalculator.findPeaks angles zero) ->
  (3 <= ROMCalculator.peak_index p)%nat
  /\ (ROMCalculator.peak_index p + 3 < length angles)%nat
  /\ ROMCalculator.peak_value p = get angles (ROMCalculator.peak_index p)
  /\ ROMCalculator.peak_confidence p
     = ROMCalculator.calculatePeakConfidence angles (ROMCalculator.peak_index p)
         ROMCalculator.windowSize
  /\ (ROMCalculator.is_flexion p = true ->
      gtb (ROMCalculator.peak_value p) zero = true)
  /\ (ROMCalculator.is_extension p = true ->
      ltb (ROMCalculator.peak_value p) zero = true).
Proof.
  unfold ROMCalculator.findPeaks. rewrite in_flat_map.
  intros (i & Hi & Hp). apply in_seq in Hi. unfold ROMCalculator.windowSize in Hi.
  revert Hp. unfold ROMCalculator.peakAt.
  destruct (gtb (get angles i) zero) eqn:G; cbn [andb].
  - destruct (forallb _ _ && forallb _ _).
    + intros [<-|[]]. cbn. repeat split; try lia; try (intros _; assumption); try discriminate.
    + destruct (ltb (get angles i) zero) eqn:L; cbn [andb].
      * destruct (forallb _ _ && forallb _ _); [|intros []].
        intros [<-|[]]. cbn. repeat split; try lia; try (intros _; assumption); try discriminate.
      * intros [].
  - destruct (ltb (get angles i) zero) eqn:L; cbn [andb].
    + destruct (forallb _ _ && forallb _ _); [|intros []].
      intros [<-|[]]. cbn. repeat split; try lia; try (intros _; assumption); try discriminate.
    + intros [].
Qed.

Lemma peak_values_no_NaN (angles : list N) (zero : N)
    (f : ROMCalculator.PeakPoint N -> bool) :
  no_NaN angles ->
  no_NaN (map ROMCalculator.peak_value
            (filter f (ROMCalculator.findPeaks angles zero))).
Proof.
  intro F. apply Forall_map, Forall_forall. intros p Hp.
  apply filter_In in Hp. destruct Hp as [Hp _].
  destruct (findPeaks_peak angles zero p Hp) as (_ & Hi & -> & _).
  unfold no_NaN in F. rewrite Forall_forall in F. apply F.
  unfold get. apply nth_In. lia.
Qed.

End OrderLaws.

(** ** Resampling *)

Section ResampleGeneric.
Context {N : Type} {JSN : JSNumber N}.

Lemma resampleData_length (d : list N) (t : nat) :
  d <> [] -> length (GaitCycleDetector.resampleData d t) = t.
Proof.
  intro H. destruct d as [|x [|y l]]; [congruence| |].
  - cbn. apply repeat_length.
  - unfold GaitCycleDetector.resampleData. rewrite length_map, length_seq. reflexivity.
Qed.

Lemma resampleData_resampled (d : list N) (t : nat) :
  resampled d (GaitCycleDetector.resampleData d t) t.
Proof.
  split; [|split].
  - intros ->. reflexivity.
  - apply resampleData_length.
  - intros x ->. reflexivity.
Qed.

(** C7, as the code has it.  For every list of cycles and every
    [pointsCount], the normalized cycles correspond one to one to the
    cycles; each normalized array of a non-empty angle sub-series has
    exactly [pointsCount] entries, that of an empty sub-series is empty,
    and a sub-series of exactly one sample yields [pointsCount] copies of
    that sample. *)
Theorem normalizeGaitCycles_points
    (cycles : list (GaitCycleDetector.GaitCycle N)) (pointsCount : nat) :
  Forall2
    (fun cycle n =>
       GaitCycleDetector.normalized_leg n = GaitCycleDetector.leg cycle
       /\ resampled (GaitCycleDetector.hipAngles cycle)
            (GaitCycleDetector.normalizedHip n) pointsCount
       /\ resampled (GaitCycleDetector.kneeAngles cycle)
            (GaitCycleDetector.normalizedKnee n) pointsCount
       /\ resampled (GaitCycleDetector.ankleAngles cycle)
            (GaitCycleDetector.normalizedAnkle n) pointsCount)
    cycles (GaitCycleDetector.normalizeGaitCycles cycles pointsCount).
Proof.
  induction cycles as [|cycle cycles IH]; cbn [GaitCycleDetector.normalizeGaitCycles map].
  - constructor.
  - constructor; [|exact IH].
    cbn [GaitCycleDetector.normalized_leg GaitCycleDetector.normalizedHip
         GaitCycleDetector.normalizedKnee GaitCycleDetector.normalizedAnkle].
    split; [reflexivity|]. repeat split; apply resampleData_resampled.
Qed.

End ResampleGeneric.

Lemma map_nth_seq {A : Type} (d : list A) (x : A) :
  map (fun i => nth i d x) (seq 0 (length d)) = d.
Proof.
  induction d as [|a d IH]; [reflexivity|].
  cbn [length seq map nth]. f_equal.
  rewrite <- seq_shift, map_map. exact IH.
Qed.

Lemma nth_map_seq {A : Type} (f : nat -> A) (t i : nat) (x : A) :
  (i < t)%nat -> nth i (map f (seq 0 t)) x = f i.
Proof.
  intro H. rewrite nth_indep with (d' := f O) by (rewrite length_map, length_seq; exact H).
  rewrite map_nth, seq_nth by exact H. reflexivity.
Qed.

(** Position [i] of the output, when its sample position is the integer [k]:
    the input's entry [k], copied. *)
Lemma resampleData_at (d : list xnum) (t i k : nat) :
  (2 <= length d)%nat -> (2 <= t)%nat -> (i < t)%nat ->
  inject_Z (Z.of_nat i) *
    ((inject_Z (Z.of_nat (length d)) - 1) / (inject_Z (Z.of_nat t) - 1))
  == inject_Z (Z.of_nat k) ->
  nth i (GaitCycleDetector.resampleData d t) NaN = nth k d NaN.
Proof.
  intros Hd Ht Hi Hk.
  destruct d as [|x [|y l]]; [cbn in Hd; lia|cbn in Hd; lia|].
  unfold GaitCycleDetector.resampleData.
  rewrite nth_map_seq by exact Hi.
  set (d := x :: y :: l) in *.
  assert (Hstep : div (sub (of_nat (length d)) (of_Z 1)) (sub (of_nat t) (of_Z 1))
                  = Fin ((inject_Z (Z.of_nat (length d)) - 1) / (inject_Z (Z.of_nat t) - 1))).
  { apply xdiv_fin. intro E.
    assert (E' : inject_Z (Z.of_nat t) == 1) by lra.
    unfold Qeq in E'. simpl in E'. lia. }
  rewrite Hstep.
  set (q := inject_Z (Z.of_nat i) * _) in Hk.
  change (mul (of_nat i) (Fin ((inject_Z (Z.of_nat (length d)) - 1) / (inject_Z (Z.of_nat t) - 1))))
    with (Fin q).
  assert (Hf : Qfloor q = Z.of_nat k) by (rewrite Hk; apply Qfloor_Z).
  assert (Hc : Qceiling q = Z.of_nat k) by (rewrite Hk; apply Qceiling_Z).
  change (floor (Fin q)) with (Fin (inject_Z (Qfloor q))).
  change (ceil (Fin q)) with (Fin (inject_Z (Qceiling q))).
  rewrite Hf, Hc.
  change (eqb (Fin (inject_Z (Z.of_nat k))) (Fin (inject_Z (Z.of_nat k))))
    with (Qeq_bool (inject_Z (Z.of_nat k)) (inject_Z (Z.of_nat k))).
  rewrite Qeq_bool_refl.
  apply get_num_nat. reflexivity.
Qed.

Lemma resampleData_same_length (d : list xnum) :
  (2 <= length d)%nat -> GaitCycleDetector.resampleData d (length d) = d.
Proof.
  intro Hd.
  apply nth_ext with (d := NaN) (d' := NaN).
  - apply resampleData_length. destruct d; [cbn in Hd; lia|discriminate].
  - intros i Hi. rewrite resampleData_length in Hi by (destruct d; [cbn in Hd; lia|discriminate]).
    apply resampleData_at; try assumption.
    assert (P : ~ inject_Z (Z.of_nat (length d)) - 1 == 0).
    { intro E. assert (E' : inject_Z (Z.of_nat (length d)) == 1) by lra.
      unfold Qeq in E'. simpl in E'. lia. }
    field. exact P.
Qed.

(** C9.  For every array and every target length of at least 2,
    resampling the resampled array to the same length gives it back, and
    an array whose length is the target length is returned unchanged. *)
Theorem resampleData_idempotent (d : list xnum) (targetPoints : nat) :
  (2 <= targetPoints)%nat ->
  GaitCycleDetector.resampleData (GaitCycleDetector.resampleData d targetPoints) targetPoints
  = GaitCycleDetector.resampleData d targetPoints
  /\ (length d = targetPoints -> GaitCycleDetector.resampleData d targetPoints = d).
Proof.
  intro Ht. split.
  - destruct d as [|x l]; [reflexivity|].
    assert (L : length (GaitCycleDetector.resampleData (x :: l) targetPoints) = targetPoints)
      by (apply resampleData_length; discriminate).
    rewrite <- L at 2. apply resampleData_same_length. lia.
  - intro L. subst targetPoints. apply resampleData_same_length. exact Ht.
Qed.

(** Idempotence on eight samples resampled to 101 points. *)
Lemma resampleData_idempotent_witness :
  (2 <= 101)%nat
  /\ GaitCycleDetector.resampleData
       (GaitCycleDetector.resampleData (step8 : list xnum) 101) 101
     = GaitCycleDetector.resampleData (step8 : list xnum) 101.
Proof.
  assert (H : (2 <= 101)%nat) by lia.
  split; [exact H|]. exact (proj1 (resampleData_idempotent step8 101 H)).
Defined.

(** In exact arithmetic both end positions are integers, and the first
    and last entries are copied from the input. *)
Theorem resampleData_endpoints_exact (d : list xnum) (targetPoints : nat) :
  (2 <= length d)%nat -> (2 <= targetPoints)%nat ->
  nth 0 (GaitCycleDetector.resampleData d targetPoints) NaN = nth 0 d NaN
  /\ nth (targetPoints - 1) (GaitCycleDetector.resampleData d targetPoints) NaN
     = nth (length d - 1) d NaN.
Proof.
  intros Hd Ht.
  assert (P : ~ inject_Z (Z.of_nat targetPoints) - 1 == 0).
  { intro E. assert (E' : inject_Z (Z.of_nat targetPoints) == 1) by lra.
    unfold Qeq in E'. simpl in E'. lia. }
  split.
  - apply resampleData_at; try assumption; try lia.
    change (inject_Z (Z.of_nat 0)) with 0. field. exact P.
  - apply resampleData_at; try assumption; try lia.
    assert (A : forall n, (1 <= n)%nat ->
                inject_Z (Z.of_nat (n - 1)) == inject_Z (Z.of_nat n) - 1).
    { intros n Hn. unfold Qeq. simpl. lia. }
    rewrite !A by lia. field. exact P.
Qed.

Lemma resampleData_endpoints_exact_witness :
  (2 <= length (step8 : list xnum))%nat /\ (2 <= 101)%nat
  /\ nth 0 (GaitCycleDetector.resampleData (step8 : list xnum) 101) NaN
     = nth 0 step8 NaN
  /\ nth (101 - 1) (GaitCycleDetector.resampleData (step8 : list xnum) 101) NaN
     = nth (length (step8 : list xnum) - 1) step8 NaN.
Proof.
  assert (H1 : (2 <= length (step8 : list xnum))%nat) by (cbn; lia).
  assert (H2 : (2 <= 101)%nat) by lia.
  split; [exact H1|]. split; [exact H2|].
  exact (resampleData_endpoints_exact step8 101 H1 H2).
Defined.

(** ** Gait cycles *)

Section CyclesGeneric.
Context {N : Type} {JSN : JSNumber N}.

Lemma cyclesOf_In (data : list (GaitCycleDetector.GaitData N))
    (ics : list (GaitCycleDetector.GaitEvent N)) (leg : GaitCycleDetector.Leg)
    (c : GaitCycleDetector.GaitCycle N) :
  In c (GaitCycleDetector.cyclesOf data ics leg) <->
  exists s e, adjacent s e ics
              /\ GaitCycleDetector.createGaitCycle data s e leg = Some c.
Proof.
  induction ics as [|s rest IH]; cbn [GaitCycleDetector.cyclesOf].
  - split; [intros []|]. intros (s & e & (l1 & l2 & E) & _).
    destruct l1; discriminate.
  - destruct rest as [|e rest'].
    + split; [intros []|]. intros (s' & e' & (l1 & l2 & E) & _).
      destruct l1 as [|? [|? ?]]; discriminate.
    + assert (Step : In c (GaitCycleDetector.cyclesOf data (e :: rest') leg) <->
                     exists s' e', adjacent s' e' (e :: rest') /\
                       GaitCycleDetector.createGaitCycle data s' e' leg = Some c)
        by exact IH.
      clear IH.
      assert (Tail : forall s' e', adjacent s' e' (s :: e :: rest') <->
                 (s' = s /\ e' = e) \/ adjacent s' e' (e :: rest')).
      { intros s' e'. split.
        - intros (l1 & l2 & E). destruct l1 as [|x l1].
          + left. cbn in E. injection E as -> -> _. split; reflexivity.
          + right. cbn in E. injection E as _ E. exists l1, l2. exact E.
        - intros [[-> ->]|(l1 & l2 & E)].
          + exists [], rest'. reflexivity.
          + exists (s :: l1), l2. cbn. rewrite E. reflexivity. }
      destruct (GaitCycleDetector.createGaitCycle data s e leg) as [c0|] eqn:C.
      * cbn [In]. rewrite Step. split.
        -- intros [<-|(s' & e' & A & B)].
           ++ exists s, e. split; [apply Tail; left; split; reflexivity|exact C].
           ++ exists s', e'. split; [apply Tail; right; exact A|exact B].
        -- intros (s' & e' & A & B). apply Tail in A. destruct A as [[-> ->]|A].
           ++ left. congruence.
           ++ right. exists s', e'. split; assumption.
      * rewrite Step. split.
        -- intros (s' & e' & A & B). exists s', e'. split; [apply Tail; right; exact A|exact B].
        -- intros (s' & e' & A & B). apply Tail in A. destruct A as [[-> ->]|A].
           ++ congruence.
           ++ exists s', e'. split; assumption.
Qed.

Lemma extractGaitCycles_In (data : list (GaitCycleDetector.GaitData N))
    (icEvents : list (GaitCycleDetector.GaitEvent N))
    (c : GaitCycleDetector.GaitCycle N) :
  In c (GaitCycleDetector.extractGaitCycles data icEvents) <->
  exists leg s e, adjacent s e (eventsOf leg icEvents)
                  /\ GaitCycleDetector.createGaitCycle data s e leg = Some c.
Proof.
  unfold GaitCycleDetector.extractGaitCycles. rewrite in_app_iff, !cyclesOf_In.
  split.
  - intros [(s & e & A & B)|(s & e & A & B)].
    + exists GaitCycleDetector.Left, s, e. split; assumption.
    + exists GaitCycleDetector.Right, s, e. split; assumption.
  - intros ([|] & s & e & A & B); [left|right]; exists s, e; split; assumption.
Qed.

Lemma createGaitCycle_fields (data : list (GaitCycleDetector.GaitData N))
    (s e : GaitCycleDetector.GaitEvent N) (leg : GaitCycleDetector.Leg)
    (c : GaitCycleDetector.GaitCycle N) :
  GaitCycleDetector.createGaitCycle data s e leg = Some c ->
  GaitCycleDetector.leg c = leg
  /\ GaitCycleDetector.startFrame c = GaitCycleDetector.event_frame s
  /\ GaitCycleDetector.endFrame c = GaitCycleDetector.event_frame e
  /\ GaitCycleDetector.duration c
     = sub (GaitCycleDetector.event_time e) (GaitCycleDetector.event_time s).
Proof.
  unfold GaitCycleDetector.createGaitCycle.
  destruct (_ || _); [discriminate|]. intro H. injection H as <-. cbn. repeat split.
Qed.

(** The duration test of [createGaitCycle], for any number instance: a cycle is
    made unless [duration < 0.8] or [duration > 1.5]. *)
Lemma createGaitCycle_some_iff (data : list (GaitCycleDetector.GaitData N))
    (s e : GaitCycleDetector.GaitEvent N) (leg : GaitCycleDetector.Leg) :
  (exists c, GaitCycleDetector.createGaitCycle data s e leg = Some c)
  <-> ltb (sub (GaitCycleDetector.event_time e) (GaitCycleDetector.event_time s))
          (dec 8 1)
      || gtb (sub (GaitCycleDetector.event_time e) (GaitCycleDetector.event_time s))
             (dec 15 1)
      = false.
Proof.
  unfold GaitCycleDetector.createGaitCycle.
  destruct (_ || _); split; try reflexivity; try discriminate.
  - intros (c & H). discriminate H.
  - intros _. eexists. reflexivity.
Qed.

End CyclesGeneric.

(** ** Phase lookup *)

Lemma find_first_such {A : Type} (f : A -> bool) (l : list A) (x : A) :
  find f l = Some x -> first_such f x l.
Proof.
  induction l as [|y l IH]; cbn [find]; [discriminate|].
  destruct (f y) eqn:E.
  - intro H. injection H as <-. exists [], l. repeat split; [exact E|constructor].
  - intro H. destruct (IH H) as (l1 & l2 & E1 & E2 & E3).
    exists (y :: l1), l2. rewrite E1. repeat split; [exact E2|].
    constructor; assumption.
Qed.

Lemma contains_bounds (q a b : Q) (ph : GaitPhaseDetector.GaitPhase xnum) :
  GaitPhaseDetector.startPercent ph = Fin a ->
  GaitPhaseDetector.endPercent ph = Fin b ->
  GaitPhaseDetector.contains (Fin q) ph = Qle_bool a q && Qle_bool q b.
Proof.
  intros Ha Hb. unfold GaitPhaseDetector.contains. rewrite Ha, Hb. reflexivity.
Qed.

Lemma tiles_le (lo hi : Q) (l : list (GaitPhaseDetector.GaitPhase xnum)) :
  tiles lo l hi -> lo <= hi.
Proof.
  induction 1 as [ph a b Ha Hb Hab|ph a b c l Ha Hb Hab T IH]; [exact Hab|].
  apply Qle_trans with b; assumption.
Qed.

Lemma tiles_lookup (lo hi q : Q) (l : list (GaitPhaseDetector.GaitPhase xnum)) :
  tiles lo l hi -> lo <= q <= hi ->
  exists ph a b,
    find (GaitPhaseDetector.contains (Fin q)) l = Some ph
    /\ GaitPhaseDetector.startPercent ph = Fin a
    /\ GaitPhaseDetector.endPercent ph = Fin b
    /\ a <= q <= b.
Proof.
  induction 1 as [ph a b Ha Hb Hab|ph a b c l Ha Hb Hab T IH]; intros [L U].
  - exists ph, a, b. cbn [find]. rewrite (contains_bounds q a b ph Ha Hb).
    apply Qle_bool_iff in L. apply Qle_bool_iff in U. rewrite L, U. cbn [andb].
    apply Qle_bool_iff in L. apply Qle_bool_iff in U. repeat split; assumption.
  - cbn [find]. rewrite (contains_bounds q a b ph Ha Hb).
    destruct (Qle_bool q b) eqn:E.
    + apply Qle_bool_iff in L. rewrite L. cbn [andb].
      apply Qle_bool_iff in L. apply Qle_bool_iff in E.
      exists ph, a, b. repeat split; assumption.
    + rewrite andb_false_r. apply Qle_bool_gt in E.
      apply IH. split; [apply Qlt_le_weak; exact E|exact U].
Qed.

Lemma tiles_outside (lo hi q : Q) (l : list (GaitPhaseDetector.GaitPhase xnum)) :
  tiles lo l hi -> q < lo \/ hi < q ->
  find (GaitPhaseDetector.contains (Fin q)) l = None.
Proof.
  induction 1 as [ph a b Ha Hb Hab|ph a b c l Ha Hb Hab T IH]; intros O;
    cbn [find]; rewrite (contains_bounds q a b ph Ha Hb).
  - destruct O as [O|O].
    + apply Qle_bool_gt in O. rewrite O. reflexivity.
    + apply Qle_bool_gt in O. rewrite O, andb_false_r. reflexivity.
  - assert (Hbc : b <= c) by (eapply tiles_le; exact T).
    destruct O as [O|O].
    + assert (O' : q < b) by (eapply Qlt_le_trans; eassumption).
      apply Qle_bool_gt in O. rewrite O. cbn [andb]. apply IH. left. exact O'.
    + assert (O' : b < q) by (eapply Qle_lt_trans; eassumption).
      apply Qle_bool_gt in O'. rewrite O', andb_false_r. apply IH. right. exact O.
Qed.

Lemma STANDARD_PHASES_tiles : tiles 0 GaitPhaseDetector.STANDARD_PHASES 100.
Proof.
  unfold GaitPhaseDetector.STANDARD_PHASES.
  do 7 (eapply tiles_cons; [reflexivity|reflexivity|discriminate|]).
  eapply tiles_last; [reflexivity|reflexivity|discriminate].
Qed.

Ltac shared_at k :=
  eexists; eexists; split;
  [exists (firstn k GaitPhaseDetector.STANDARD_PHASES),
          (skipn (2 + k) GaitPhaseDetector.STANDARD_PHASES); reflexivity
  |repeat split; reflexivity].

Lemma shared_boundaries_exact :
  Forall (@shared_boundary xnum _) [2; 12; 31; 50; 62; 75; 87]%Z.
Proof.
  repeat constructor.
  - shared_at 0%nat.
  - shared_at 1%nat.
  - shared_at 2%nat.
  - shared_at 3%nat.
  - shared_at 4%nat.
  - shared_at 5%nat.
  - shared_at 6%nat.
Qed.

Lemma shared_boundaries_binary64 :
  Forall (@shared_boundary float _) [2; 12; 31; 50; 62; 75; 87]%Z.
Proof.
  repeat constructor.
  - shared_at 0%nat.
  - shared_at 1%nat.
  - shared_at 2%nat.
  - shared_at 3%nat.
  - shared_at 4%nat.
  - shared_at 5%nat.
  - shared_at 6%nat.
Qed.

(** C8.  For every percent in [0, 100] the lookup returns a phase, the
    first of the catalog whose closed interval contains the percent; it
    returns nothing below 0 or above 100; at each of 2, 12, 31, 50, 62, 75
    and 87 two consecutive phases both contain the percent and the lookup
    returns the earlier one; at 12 it returns Loading Response. *)
Theorem getPhaseAtPercent_first_match :
  (forall q : Q, 0 <= q <= 100 ->
     exists ph a b,
       GaitPhaseDetector.getPhaseAtPercent (Fin q) = Some ph
       /\ first_such (GaitPhaseDetector.contains (Fin q)) ph
            GaitPhaseDetector.STANDARD_PHASES
       /\ GaitPhaseDetector.startPercent ph = Fin a
       /\ GaitPhaseDetector.endPercent ph = Fin b
       /\ a <= q <= b)
  /\ (forall q : Q, q < 0 \/ 100 < q ->
        GaitPhaseDetector.getPhaseAtPercent (Fin q) = None)
  /\ Forall (@shared_boundary xnum _) [2; 12; 31; 50; 62; 75; 87]%Z
  /\ Forall (@shared_boundary float _) [2; 12; 31; 50; 62; 75; 87]%Z
  /\ option_map GaitPhaseDetector.name
       (GaitPhaseDetector.getPhaseAtPercent (of_Z 12 : xnum))
     = Some "Loading Response"%string
  /\ option_map GaitPhaseDetector.name
       (GaitPhaseDetector.getPhaseAtPercent (of_Z 12 : float))
     = Some "Loading Response"%string.
Proof.
  split; [|split; [|split; [|split; [|split]]]].
  - intros q Hq.
    destruct (tiles_lookup 0 100 q _ STANDARD_PHASES_tiles Hq)
      as (ph & a & b & F & Ha & Hb & R).
    exists ph, a, b. split; [exact F|]. split; [|repeat split; tauto].
    apply find_first_such. exact F.
  - intros q Hq. exact (tiles_outside 0 100 q _ STANDARD_PHASES_tiles Hq).
  - exact shared_boundaries_exact.
  - exact shared_boundaries_binary64.
  - reflexivity.
  - reflexivity.
Qed.

(** The lookup at 12 percent. *)
Lemma getPhaseAtPercent_first_match_witness :
  0 <= 12 <= 100 /\
  exists ph a b,
    GaitPhaseDetector.getPhaseAtPercent (Fin 12) = Some ph
    /\ first_such (GaitPhaseDetector.contains (Fin 12)) ph
         GaitPhaseDetector.STANDARD_PHASES
    /\ GaitPhaseDetector.startPercent ph = Fin a
    /\ GaitPhaseDetector.endPercent ph = Fin b
    /\ a <= 12 <= b.
Proof.
  assert (H : 0 <= 12 <= 100) by (split; discriminate).
  split; [exact H|].
  exact (proj1 getPhaseAtPercent_first_match 12 H).
Defined.

(** ** Finite numbers *)

Lemma finite_inv (a : xnum) : finite a -> exists q, a = Fin q.
Proof. destruct a; cbn; try contradiction. intros _. eexists; reflexivity. Qed.

Lemma Forall_finite_nth (l : list xnum) (i : nat) :
  Forall finite l -> (i < length l)%nat -> exists q, nth i l NaN = Fin q.
Proof.
  intros F H. apply finite_inv. rewrite Forall_forall in F.
  apply F, nth_In, H.
Qed.

Lemma fold_add_finite (l : list xnum) :
  Forall finite l -> forall a, exists q, fold_left xadd l (Fin a) = Fin q.
Proof.
  induction 1 as [|x l Hx _ IH]; intro a; cbn [fold_left].
  - eexists; reflexivity.
  - destruct (finite_inv x Hx) as [q ->]. apply IH.
Qed.

Lemma sum_finite (l : list xnum) : Forall finite l -> exists q, sum l = Fin q.
Proof. intro F. apply (fold_add_finite l F). Qed.

Lemma round1_nonneg (q : Q) : 0 <= q -> nonneg (round1 (Fin q)).
Proof.
  intro H. rewrite round1_fin. cbn [nonneg].
  assert (Z : (0 <= Qfloor (q * inject_Z 10 + (1 # 2)))%Z).
  { change 0%Z with (Qfloor 0). apply Qfloor_resp_le.
    change (inject_Z 10) with (10 # 1). lra. }
  apply Qle_shift_div_l; [reflexivity|].
  rewrite Qmult_0_l. change 0 with (inject_Z 0). rewrite <- Zle_Qle. exact Z.
Qed.

(** ** Math.max and Math.min over finite numbers *)

(** The exact numbers have one zero only. *)
Lemma is_neg_zero_exact (a : xnum) : is_neg_zero a = false.
Proof.
  unfold is_neg_zero. destruct a as [q| | |]; try reflexivity.
  change (eqb (Fin q) (of_Z 0)) with (Qeq_bool q 0).
  destruct (Qeq_bool q 0) eqn:E; [|reflexivity].
  change (div (of_Z 1) (Fin q)) with (xdiv (Fin 1) (Fin q)).
  unfold xdiv, inject_Z in *. rewrite E. reflexivity.
Qed.

Lemma max2_fin (a b : Q) : max2 (Fin a) (Fin b) = if Qltb a b then Fin b else Fin a.
Proof.
  unfold max2, isNaN. cbn [eqb xnum_JSNumber xeqb]. rewrite !Qeq_bool_refl.
  rewrite is_neg_zero_exact. cbn [negb].
  change (ltb (Fin a) (Fin b)) with (Qltb a b).
  change (ltb (Fin b) (Fin a)) with (Qltb b a).
  destruct (Qltb a b), (Qltb b a); reflexivity.
Qed.

Lemma min2_fin (a b : Q) : min2 (Fin a) (Fin b) = if Qltb b a then Fin b else Fin a.
Proof.
  unfold min2, isNaN. cbn [eqb xnum_JSNumber xeqb]. rewrite !Qeq_bool_refl.
  rewrite is_neg_zero_exact. cbn [negb].
  change (ltb (Fin a) (Fin b)) with (Qltb a b).
  change (ltb (Fin b) (Fin a)) with (Qltb b a).
  destruct (Qltb b a), (Qltb a b); reflexivity.
Qed.

Lemma max2_neg_infinity (a : Q) : max2 neg_infinity (Fin a) = Fin a.
Proof.
  unfold max2, isNaN. cbn [eqb xnum_JSNumber xeqb neg_infinity negb].
  rewrite Qeq_bool_refl. reflexivity.
Qed.

Lemma min2_pos_infinity (a : Q) : min2 pos_infinity (Fin a) = Fin a.
Proof.
  unfold min2, isNaN. cbn [eqb xnum_JSNumber xeqb pos_infinity negb].
  rewrite Qeq_bool_refl. reflexivity.
Qed.

Lemma fold_max_spec (l : list xnum) :
  Forall finite l -> forall a,
  exists M, fold_left max2 l (Fin a) = Fin M
            /\ a <= M
            /\ (forall q, In (Fin q) l -> q <= M)
            /\ (M = a \/ In (Fin M) l).
Proof.
  induction 1 as [|x l Hx _ IH]; intro a; cbn [fold_left].
  - exists a. split; [reflexivity|]. split; [apply Qle_refl|].
    split; [intros q []|left; reflexivity].
  - destruct (finite_inv x Hx) as [b ->]. rewrite max2_fin.
    destruct (Qltb a b) eqn:E.
    + apply Qltb_lt in E. destruct (IH b) as (M & F & L & A & I).
      exists M. split; [exact F|]. split; [lra|]. split.
      * intros q [Q|Q]; [injection Q as <-; exact L|apply A, Q].
      * right. destruct I as [->|I]; [left; reflexivity|right; exact I].
    + apply Qltb_ge in E. destruct (IH a) as (M & F & L & A & I).
      exists M. split; [exact F|]. split; [exact L|]. split.
      * intros q [Q|Q]; [injection Q as <-; lra|apply A, Q].
      * destruct I as [->|I]; [left; reflexivity|right; right; exact I].
Qed.

Lemma fold_min_spec (l : list xnum) :
  Forall finite l -> forall a,
  exists m, fold_left min2 l (Fin a) = Fin m
            /\ m <= a
            /\ (forall q, In (Fin q) l -> m <= q)
            /\ (m = a \/ In (Fin m) l).
Proof.
  induction 1 as [|x l Hx _ IH]; intro a; cbn [fold_left].
  - exists a. split; [reflexivity|]. split; [apply Qle_refl|].
    split; [intros q []|left; reflexivity].
  - destruct (finite_inv x Hx) as [b ->]. rewrite min2_fin.
    destruct (Qltb b a) eqn:E.
    + apply Qltb_lt in E. destruct (IH b) as (M & F & L & A & I).
      exists M. split; [exact F|]. split; [lra|]. split.
      * intros q [Q|Q]; [injection Q as <-; exact L|apply A, Q].
      * right. destruct I as [->|I]; [left; reflexivity|right; exact I].
    + apply Qltb_ge in E. destruct (IH a) as (M & F & L & A & I).
      exists M. split; [exact F|]. split; [exact L|]. split.
      * intros q [Q|Q]; [injection Q as <-; lra|apply A, Q].
      * destruct I as [->|I]; [left; reflexivity|right; right; exact I].
Qed.

Lemma math_max_spec (l : list xnum) :
  l <> [] -> Forall finite l -> exists M, math_max l = Fin M /\ is_maximum M l.
Proof.
  intros Hne F. destruct l as [|x l]; [congruence|].
  inversion F as [|? ? Hx Hl]; subst.
  destruct (finite_inv x Hx) as [a ->].
  unfold math_max. cbn [fold_left].
  rewrite max2_neg_infinity.
  destruct (fold_max_spec l Hl a) as (M & E & L & A & I).
  exists M. split; [exact E|]. split.
  - destruct I as [->|I]; [left; reflexivity|right; exact I].
  - intros q [Q|Q]; [injection Q as <-; exact L|apply A, Q].
Qed.

Lemma math_min_spec (l : list xnum) :
  l <> [] -> Forall finite l -> exists m, math_min l = Fin m /\ is_minimum m l.
Proof.
  intros Hne F. destruct l as [|x l]; [congruence|].
  inversion F as [|? ? Hx Hl]; subst.
  destruct (finite_inv x Hx) as [a ->].
  unfold math_min. cbn [fold_left].
  rewrite min2_pos_infinity.
  destruct (fold_min_spec l Hl a) as (M & E & L & A & I).
  exists M. split; [exact E|]. split.
  - destruct I as [->|I]; [left; reflexivity|right; exact I].
  - intros q [Q|Q]; [injection Q as <-; exact L|apply A, Q].
Qed.

(** ** The ascending sort *)

Lemma insert_sorted_finite (x : xnum) (l : list xnum) :
  finite x -> Forall finite l -> Forall finite (insert_sorted x l).
Proof.
  intros Hx. induction 1 as [|y l Hy Hl IH]; cbn [insert_sorted].
  - constructor; [exact Hx|constructor].
  - destruct (leb x y); constructor; try assumption. constructor; assumption.
Qed.

Lemma sort_asc_finite (l : list xnum) :
  Forall finite l -> Forall finite (sort_asc l).
Proof.
  induction 1 as [|x l Hx _ IH]; [constructor|].
  apply insert_sorted_finite; assumption.
Qed.

Lemma insert_sorted_perm (x : xnum) (l : list xnum) :
  Permutation (x :: l) (insert_sorted x l).
Proof.
  induction l as [|y l IH]; cbn [insert_sorted]; [reflexivity|].
  destruct (leb x y); [reflexivity|].
  rewrite perm_swap. apply perm_skip, IH.
Qed.

Lemma sort_asc_perm (l : list xnum) : Permutation l (sort_asc l).
Proof.
  induction l as [|x l IH]; [reflexivity|].
  cbn [sort_asc fold_right]. rewrite <- insert_sorted_perm.
  apply perm_skip, IH.
Qed.

Lemma sort_asc_length (l : list xnum) : length (sort_asc l) = length l.
Proof. symmetry. apply Permutation_length, sort_asc_perm. Qed.

Lemma xle_fin (a b : Q) : xle (Fin a) (Fin b) <-> a <= b.
Proof. unfold xle. cbn. apply Qle_bool_iff. Qed.

Lemma insert_sorted_sorted (x : xnum) (l : list xnum) :
  finite x -> Forall finite l ->
  StronglySorted xle l -> StronglySorted xle (insert_sorted x l).
Proof.
  intros Hx F S. destruct (finite_inv x Hx) as [a ->].
  induction S as [|y l S IH Hy]; cbn [insert_sorted].
  - constructor; constructor.
  - inversion F as [|? ? Fy Fl]; subst.
    destruct (finite_inv y Fy) as [b ->].
    change (leb (Fin a) (Fin b)) with (Qle_bool a b).
    destruct (Qle_bool a b) eqn:E.
    + apply Qle_bool_iff in E. constructor; [constructor; assumption|].
      constructor; [apply xle_fin; exact E|].
      rewrite Forall_forall in *. intros z Hz.
      destruct (finite_inv z (Fl z Hz)) as [c ->].
      apply xle_fin. apply Qle_trans with b; [exact E|]. apply xle_fin, Hy, Hz.
    + apply Qle_bool_gt in E. constructor; [apply IH; assumption|].
      rewrite Forall_forall in *. intros z Hz.
      apply (Permutation_in _ (Permutation_sym (insert_sorted_perm (Fin a) l))) in Hz.
      destruct Hz as [<-|Hz]; [apply xle_fin; lra|apply Hy, Hz].
Qed.

Lemma sort_asc_sorted (l : list xnum) :
  Forall finite l -> StronglySorted xle (sort_asc l).
Proof.
  induction 1 as [|x l Hx Hl IH]; [constructor|].
  apply insert_sorted_sorted; [exact Hx|apply sort_asc_finite, Hl|exact IH].
Qed.

Lemma StronglySorted_nth (l : list xnum) (i j : nat) :
  StronglySorted xle l -> (i <= j)%nat -> (j < length l)%nat ->
  Forall finite l ->
  xle (nth i l NaN) (nth j l NaN).
Proof.
  intros S. revert i j. induction S as [|x l S IH Hx]; intros i j Hij Hj F.
  - cbn in Hj. lia.
  - inversion F as [|? ? Fx Fl]; subst.
    destruct j as [|j].
    + assert (i = 0)%nat by lia. subst i. cbn.
      destruct (finite_inv x Fx) as [a ->]. apply xle_fin, Qle_refl.
    + destruct i as [|i].
      * cbn [nth]. rewrite Forall_forall in Hx. apply Hx, nth_In. cbn in Hj. lia.
      * cbn [nth]. apply IH; [lia|cbn in Hj; lia|exact Fl].
Qed.

(** ** Slices *)

Lemma Forall_slice {A : Type} (P : A -> Prop) (l : list A) (from to : nat) :
  Forall P l -> Forall P (slice l from to).
Proof.
  intro F. unfold slice.
  rewrite <- (firstn_skipn from l) in F. apply Forall_app in F. destruct F as [_ F].
  rewrite <- (firstn_skipn (to - from) (skipn from l)) in F.
  apply Forall_app in F. tauto.
Qed.

Lemma slice_length {A : Type} (l : list A) (from to : nat) :
  (from <= to)%nat -> (to <= length l)%nat ->
  length (slice l from to) = (to - from)%nat.
Proof.
  intros H1 H2. unfold slice. rewrite length_firstn, length_skipn. lia.
Qed.

Lemma nonempty_length {A : Type} (l : list A) : (0 < length l)%nat -> l <> [].
Proof. destruct l; [cbn; lia|discriminate]. Qed.

(** ** Percentile positions *)

Lemma dec_percent (m : Z) : dec m 2 = Fin (inject_Z m / inject_Z 100).
Proof. reflexivity. Qed.

Lemma percentile_pos_lt (n : nat) (m : Z) :
  (1 <= n)%nat -> (0 <= m < 100)%Z -> (percentile_pos n m < n)%nat.
Proof.
  intros Hn Hm. unfold percentile_pos.
  set (x := inject_Z (Z.of_nat n) * (inject_Z m / inject_Z 100)).
  assert (N1 : 1 <= inject_Z (Z.of_nat n)) by (change 1 with (inject_Z 1); rewrite <- Zle_Qle; lia).
  assert (M0 : 0 <= inject_Z m) by (change 0 with (inject_Z 0); rewrite <- Zle_Qle; lia).
  assert (M1 : inject_Z m < 100) by (change 100 with (inject_Z 100); rewrite <- Zlt_Qlt; lia).
  assert (X0 : 0 <= x).
  { unfold x. apply Qmult_le_0_compat; [lra|].
    apply Qle_shift_div_l; [reflexivity|]. change (inject_Z 100) with 100. lra. }
  assert (X1 : x < inject_Z (Z.of_nat n)).
  { unfold x. change (inject_Z 100) with 100.
    assert (D : inject_Z m / 100 < 1) by (apply Qlt_shift_div_r; [reflexivity|lra]).
    nra. }
  assert (F0 : (0 <= Qfloor x)%Z) by (change 0%Z with (Qfloor 0); apply Qfloor_resp_le, X0).
  assert (F1 : (Qfloor x < Z.of_nat n)%Z).
  { rewrite Zlt_Qlt. eapply Qle_lt_trans; [apply Qfloor_le|exact X1]. }
  lia.
Qed.

Lemma percentile_pos_mono (n : nat) (m1 m2 : Z) :
  (0 <= m1 <= m2)%Z -> (percentile_pos n m1 <= percentile_pos n m2)%nat.
Proof.
  intro H. unfold percentile_pos.
  assert (L : (Qfloor (inject_Z (Z.of_nat n) * (inject_Z m1 / inject_Z 100))
               <= Qfloor (inject_Z (Z.of_nat n) * (inject_Z m2 / inject_Z 100)))%Z).
  { apply Qfloor_resp_le.
    assert (N0 : 0 <= inject_Z (Z.of_nat n)) by (change 0 with (inject_Z 0); rewrite <- Zle_Qle; lia).
    assert (M : inject_Z m1 <= inject_Z m2) by (rewrite <- Zle_Qle; lia).
    change (inject_Z 100) with 100.
    assert (D : inject_Z m1 / 100 <= inject_Z m2 / 100).
    { apply Qmult_le_compat_r; [exact M|discriminate]. }
    nra. }
  lia.
Qed.

Lemma percentile_read (sorted : list xnum) (m : Z) :
  (0 <= m)%Z ->
  get_num sorted (floor (mul (of_nat (length sorted)) (dec m 2)))
  = nth (percentile_pos (length sorted) m) sorted NaN.
Proof.
  intro Hm. rewrite dec_percent.
  change (floor (mul (of_nat (length sorted)) (Fin (inject_Z m / inject_Z 100))))
    with (Fin (inject_Z (Qfloor (inject_Z (Z.of_nat (length sorted))
                                 * (inject_Z m / inject_Z 100))))).
  apply get_num_nat. unfold percentile_pos.
  rewrite Z2Nat.id; [reflexivity|].
  change 0%Z with (Qfloor 0). apply Qfloor_resp_le.
  assert (N0 : 0 <= inject_Z (Z.of_nat (length sorted)))
    by (change 0 with (inject_Z 0); rewrite <- Zle_Qle; lia).
  assert (M0 : 0 <= inject_Z m) by (change 0 with (inject_Z 0); rewrite <- Zle_Qle; lia).
  apply Qmult_le_0_compat; [exact N0|].
  apply Qle_shift_div_l; [reflexivity|]. lra.
Qed.

(** ** Peaks of a finite series *)

Lemma Forall_finite_get (l : list xnum) (i : nat) :
  Forall finite l -> (i < length l)%nat -> exists q, get l i = Fin q.
Proof. exact (Forall_finite_nth l i). Qed.

Lemma peakAt_inv (angles : list xnum) (zero : xnum) (i : nat)
    (p : ROMCalculator.PeakPoint xnum) :
  In p (ROMCalculator.peakAt angles zero i) ->
  ROMCalculator.peak_index p = i
  /\ ROMCalculator.peak_value p = get angles i
  /\ ROMCalculator.peak_confidence p
     = ROMCalculator.calculatePeakConfidence angles i ROMCalculator.windowSize
  /\ (ROMCalculator.is_flexion p = true -> gtb (get angles i) zero = true)
  /\ (ROMCalculator.is_extension p = true -> ltb (get angles i) zero = true).
Proof.
  unfold ROMCalculator.peakAt.
  destruct (gtb (get angles i) zero) eqn:G; cbn [andb].
  - destruct (forallb _ _ && forallb _ _).
    + intros [<-|[]]. cbn. repeat split; try reflexivity; try discriminate.
    + destruct (ltb (get angles i) zero) eqn:L; cbn [andb].
      * destruct (forallb _ _ && forallb _ _); [|intros []].
        intros [<-|[]]. cbn. repeat split; try reflexivity; try discriminate.
      * intros [].
  - destruct (ltb (get angles i) zero) eqn:L; cbn [andb].
    + destruct (forallb _ _ && forallb _ _); [|intros []].
      intros [<-|[]]. cbn. repeat split; try reflexivity; try discriminate.
    + intros [].
Qed.

Lemma findPeaks_inv (angles : list xnum) (zero : xnum)
    (p : ROMCalculator.PeakPoint xnum) :
  In p (ROMCalculator.findPeaks angles zero) ->
  exists i, (3 <= i)%nat /\ (i + 3 < length angles)%nat
            /\ In p (ROMCalculator.peakAt angles zero i).
Proof.
  unfold ROMCalculator.findPeaks. rewrite in_flat_map.
  intros (i & Hi & Hp). apply in_seq in Hi. unfold ROMCalculator.windowSize in Hi.
  exists i. split; [lia|]. split; [lia|exact Hp].
Qed.

Lemma calculatePeakConfidence_finite (angles : list xnum) (i : nat) :
  Forall finite angles -> (3 <= i)%nat -> (i + 3 < length angles)%nat ->
  exists c, ROMCalculator.calculatePeakConfidence angles i ROMCalculator.windowSize
            = Fin c /\ 0 <= c <= 1.
Proof.
  intros F H1 H2. unfold ROMCalculator.calculatePeakConfidence, ROMCalculator.windowSize.
  destruct (Forall_finite_get angles i F ltac:(lia)) as [p Hp].
  rewrite Hp.
  destruct (math_max_spec (slice angles (i - 3) i)) as (Mb & Eb & _).
  { apply nonempty_length. rewrite slice_length; lia. }
  { apply Forall_slice, F. }
  destruct (math_max_spec (slice angles (i + 1) (i + 3 + 1))) as (Ma & Ea & _).
  { apply nonempty_length. rewrite slice_length; lia. }
  { apply Forall_slice, F. }
  rewrite Eb, Ea.
  set (x := (Qabs (p + - Mb) + Qabs (p + - Ma)) / inject_Z 2 / inject_Z 10).
  change (div (div (add (abs (sub (Fin p) (Fin Mb))) (abs (sub (Fin p) (Fin Ma))))
                 (of_Z 2)) (of_Z 10)) with (Fin x).
  change (of_Z 1) with (Fin (inject_Z 1)).
  assert (X0 : 0 <= x).
  { unfold x. change (inject_Z 2) with 2. change (inject_Z 10) with 10.
    pose proof (Qabs_nonneg (p + - Mb)). pose proof (Qabs_nonneg (p + - Ma)).
    apply Qle_shift_div_l; [reflexivity|]. apply Qle_shift_div_l; [reflexivity|]. lra. }
  rewrite min2_fin. destruct (Qltb (inject_Z 1) x) eqn:E.
  - eexists. split; [reflexivity|]. split; discriminate.
  - apply Qltb_ge in E. exists x. split; [reflexivity|]. split; assumption.
Qed.

Lemma findPeaks_finite (angles : list xnum) (z : Q)
    (p : ROMCalculator.PeakPoint xnum) :
  Forall finite angles ->
  In p (ROMCalculator.findPeaks angles (Fin z)) ->
  exists v c,
    ROMCalculator.peak_value p = Fin v
    /\ ROMCalculator.peak_confidence p = Fin c /\ 0 <= c <= 1
    /\ (ROMCalculator.is_flexion p = true -> z < v)
    /\ (ROMCalculator.is_extension p = true -> v < z).
Proof.
  intros F Hp. destruct (findPeaks_inv _ _ _ Hp) as (i & H1 & H2 & Hi).
  destruct (peakAt_inv _ _ _ _ Hi) as (_ & V & C & Fl & Ex).
  destruct (Forall_finite_get angles i F ltac:(lia)) as [v Hv].
  destruct (calculatePeakConfidence_finite angles i F H1 H2) as (c & Hc & Rc).
  exists v, c. rewrite Hv in *.
  split; [exact V|]. split; [rewrite C; exact Hc|]. split; [exact Rc|]. split.
  - intro T. apply Qltb_lt. exact (Fl T).
  - intro T. apply Qltb_lt. exact (Ex T).
Qed.

Lemma averageConfidence_finite (angles : list xnum) (z : Q) :
  Forall finite angles ->
  exists c, ROMCalculator.averageConfidence
              (ROMCalculator.findPeaks angles (Fin z)) = Fin c.
Proof.
  intro F. unfold ROMCalculator.averageConfidence.
  set (peaks := ROMCalculator.findPeaks angles (Fin z)).
  assert (C : forall p, In p peaks -> exists c, ROMCalculator.peak_confidence p = Fin c).
  { intros p Hp. destruct (findPeaks_finite angles z p F Hp) as (_ & c & _ & Hc & _).
    exists c. exact Hc. }
  assert (S : forall a, exists q,
             fold_left (fun sum p => add sum (ROMCalculator.peak_confidence p))
               peaks (Fin a) = Fin q).
  { clearbody peaks. induction peaks as [|p peaks IH]; intro a; cbn [fold_left].
    - eexists; reflexivity.
    - destruct (C p (or_introl eq_refl)) as [c ->].
      apply IH. intros p' Hp'. apply C. right. exact Hp'. }
  destruct (length peaks) as [|n] eqn:L; [eexists; reflexivity|].
  destruct (S (inject_Z 0)) as [q Hq].
  change (of_Z 0) with (Fin (inject_Z 0)). rewrite Hq.
  eexists. apply xdiv_fin. intro E. unfold Qeq in E. simpl in E. lia.
Qed.

Lemma calculateAnatomicalZero_finite (angles : list xnum) :
  Forall finite angles -> exists z, ROMCalculator.calculateAnatomicalZero angles = Fin z.
Proof.
  intro F. unfold ROMCalculator.calculateAnatomicalZero,
    ROMCalculator.calculateAnatomicalZeroOf.
  set (init := slice angles 0 (Nat.min 15 (length angles))).
  destruct (length init) as [|n] eqn:L; [eexists; reflexivity|].
  destruct (sum_finite init) as [q Hq]; [apply Forall_slice, F|].
  rewrite Hq.
  change (of_nat (S n)) with (Fin (inject_Z (Z.of_nat (S n)))).
  rewrite xdiv_fin by (intro E; unfold Qeq in E; simpl in E; lia).
  rewrite round1_fin. eexists; reflexivity.
Qed.

(** ** The percentile method *)

Lemma calculatePercentileROM_spec (angles : list xnum) (zero : xnum) :
  let sorted := sort_asc angles in
  let n := length angles in
  ROMCalculator.calculatePercentileROM angles zero
  = ROMCalculator.mkROMResult zero
      (round1 (nth (percentile_pos n 95) sorted NaN))
      (round1 (nth (percentile_pos n 5) sorted NaN))
      (round1 (sub (nth (percentile_pos n 95) sorted NaN)
                   (nth (percentile_pos n 5) sorted NaN)))
      ROMCalculator.percentile_fallback
      (dec 7 1).
Proof.
  cbn zeta. unfold ROMCalculator.calculatePercentileROM.
  rewrite !percentile_read by lia. rewrite sort_asc_length. reflexivity.
Qed.

Lemma percentiles_ordered (angles : list xnum) :
  Forall finite angles -> angles <> [] ->
  exists a95 a5,
    nth (percentile_pos (length angles) 95) (sort_asc angles) NaN = Fin a95
    /\ nth (percentile_pos (length angles) 5) (sort_asc angles) NaN = Fin a5
    /\ a5 <= a95.
Proof.
  intros F Hne.
  assert (Hn : (1 <= length angles)%nat) by (destruct angles; [congruence|cbn; lia]).
  pose proof (percentile_pos_lt (length angles) 95 Hn ltac:(lia)) as L95.
  pose proof (percentile_pos_mono (length angles) 5 95 ltac:(lia)) as M.
  pose proof (sort_asc_finite angles F) as FS.
  rewrite <- sort_asc_length in L95 at 2.
  destruct (Forall_finite_nth _ _ FS L95) as [a95 E95].
  destruct (Forall_finite_nth (sort_asc angles) (percentile_pos (length angles) 5) FS
              ltac:(lia)) as [a5 E5].
  exists a95, a5. split; [exact E95|]. split; [exact E5|].
  pose proof (StronglySorted_nth (sort_asc angles) _ _ (sort_asc_sorted angles F) M L95 FS) as S.
  rewrite E95, E5 in S. apply xle_fin. exact S.
Qed.

(** ** The peak method *)

Lemma values_nonempty {A B : Type} (f : A -> B) (l : list A) :
  map f l <> [] <-> (1 <=? length l)%nat = true.
Proof.
  destruct l; cbn; split; intro H; congruence.
Qed.

Lemma flexion_values (angles : list xnum) (z : Q) :
  Forall finite angles ->
  Forall (fun x => exists v, x = Fin v /\ z < v)
    (map ROMCalculator.peak_value
       (filter ROMCalculator.is_flexion (ROMCalculator.findPeaks angles (Fin z)))).
Proof.
  intro F. apply Forall_map, Forall_forall. intros p Hp.
  apply filter_In in Hp. destruct Hp as [Hp T].
  destruct (findPeaks_finite angles z p F Hp) as (v & c & V & _ & _ & Fl & _).
  exists v. split; [exact V|apply Fl, T].
Qed.

Lemma extension_values (angles : list xnum) (z : Q) :
  Forall finite angles ->
  Forall (fun x => exists v, x = Fin v /\ v < z)
    (map ROMCalculator.peak_value
       (filter ROMCalculator.is_extension (ROMCalculator.findPeaks angles (Fin z)))).
Proof.
  intro F. apply Forall_map, Forall_forall. intros p Hp.
  apply filter_In in Hp. destruct Hp as [Hp T].
  destruct (findPeaks_finite angles z p F Hp) as (v & c & V & _ & _ & _ & Ex).
  exists v. split; [exact V|apply Ex, T].
Qed.

Lemma Forall_bounded_finite (P : Q -> Prop) (l : list xnum) :
  Forall (fun x => exists v, x = Fin v /\ P v) l -> Forall finite l.
Proof.
  apply Forall_impl. intros x (v & -> & _). exact I.
Qed.

Section PeakRule.
Context {N : Type} {JSN : JSNumber N} {JSO : JSOrder N}.

(** C1, as the code has it.  For an angle series without NaN, in every
    model of the numbers that satisfies the order laws (exact arithmetic
    and binary64 among them), [calculatePeakROM] uses the peak method
    exactly when there is a flexion peak, an extension peak and the mean
    peak confidence, as the code computes it, exceeds 0.3: then the method
    is [peak_detection], maxFlexion is the greatest flexion-peak value and
    maxExtension the least extension-peak value, each rounded to one
    decimal, totalROM is their difference rounded to one decimal, and the
    confidence is the mean peak confidence capped at 0.95.  In every other
    case (a peak type absent, or a mean confidence not above 0.3) it falls
    back to the values at positions [floor(0.95 n)] and [floor(0.05 n)] of
    the sorted series, with confidence 0.7 and method
    [percentile_fallback]. *)
Theorem calculatePeakROM_rule (angles : list N) (z : N) :
  no_NaN angles ->
  let peaks := ROMCalculator.findPeaks angles z in
  let flexionValues :=
    map ROMCalculator.peak_value (filter ROMCalculator.is_flexion peaks) in
  let extensionValues :=
    map ROMCalculator.peak_value (filter ROMCalculator.is_extension peaks) in
  let avgConfidence := ROMCalculator.averageConfidence peaks in
  let r := ROMCalculator.calculatePeakROM angles z in
  (flexionValues <> [] /\ extensionValues <> []
   /\ gtb avgConfidence (dec 3 1) = true ->
   ROMCalculator.method r = ROMCalculator.peak_detection
   /\ exists M m,
        greatest M flexionValues /\ least m extensionValues
        /\ ROMCalculator.maxFlexion r = round1 M
        /\ ROMCalculator.maxExtension r = round1 m
        /\ ROMCalculator.totalROM r = round1 (sub M m)
        /\ ROMCalculator.confidence r = min2 avgConfidence (dec 95 2))
  /\
  (flexionValues = [] \/ extensionValues = []
   \/ gtb avgConfidence (dec 3 1) = false ->
   ROMCalculator.method r = ROMCalculator.percentile_fallback
   /\ ROMCalculator.confidence r = dec 7 1
   /\ exists sorted,
        Permutation angles sorted /\ ascending sorted
        /\ let p95 :=
             get_num sorted (floor (mul (of_nat (length angles)) (dec 95 2))) in
           let p5 :=
             get_num sorted (floor (mul (of_nat (length angles)) (dec 5 2))) in
           ROMCalculator.maxFlexion r = round1 p95
           /\ ROMCalculator.maxExtension r = round1 p5
           /\ ROMCalculator.totalROM r = round1 (sub p95 p5)).
Proof.
  intros F peaks flexionValues extensionValues avgConfidence r.
  unfold r, ROMCalculator.calculatePeakROM.
  fold peaks. fold avgConfidence.
  split.
  - intros (Hf & He & Hc).
    pose proof Hf as Hf'. pose proof He as He'.
    apply values_nonempty in Hf'. apply values_nonempty in He'.
    rewrite Hf', He', Hc. cbn [andb ROMCalculator.method ROMCalculator.maxFlexion
      ROMCalculator.maxExtension ROMCalculator.totalROM ROMCalculator.confidence].
    split; [reflexivity|].
    fold flexionValues. fold extensionValues.
    exists (math_max flexionValues), (math_min extensionValues).
    split; [apply math_max_greatest; [exact Hf|apply peak_values_no_NaN, F]|].
    split; [apply math_min_least; [exact He|apply peak_values_no_NaN, F]|].
    repeat split.
  - intros Hno.
    assert (C : (1 <=? length (filter ROMCalculator.is_flexion peaks))%nat
                && (1 <=? length (filter ROMCalculator.is_extension peaks))%nat
                && gtb avgConfidence (dec 3 1) = false).
    { destruct Hno as [H|[H|H]].
      - apply map_eq_nil in H. rewrite H. reflexivity.
      - apply map_eq_nil in H. rewrite H. cbn. rewrite andb_false_r. reflexivity.
      - rewrite H. apply andb_false_r. }
    rewrite C. unfold ROMCalculator.calculatePercentileROM.
    cbn [ROMCalculator.method ROMCalculator.maxFlexion ROMCalculator.maxExtension
         ROMCalculator.totalROM ROMCalculator.confidence].
    split; [reflexivity|]. split; [reflexivity|].
    exists (sort_asc angles). split; [apply sort_asc_permutation|].
    split; [apply sort_asc_ascending, F|].
    rewrite <- (Permutation_length (sort_asc_permutation angles)).
    repeat split.
Qed.

End PeakRule.

(** The rule applied to one series in the two models.  The series
    [borderlinePeaks] has a flexion peak of confidence 0.2 and an extension peak
    of confidence 0.4.  In binary64 their mean is
    [(0 + 0.2 + 0.4) / 2 = 0.30000000000000004 > 0.3], so the program uses
    the peak method; in exact arithmetic the mean is 0.3 and the fallback
    is taken. *)
Lemma calculatePeakROM_rule_witness :
  no_NaN (borderlinePeaks : list float)
  /\ ROMCalculator.method
       (ROMCalculator.calculatePeakROM (borderlinePeaks : list float) (of_Z 0))
     = ROMCalculator.peak_detection
  /\ ROMCalculator.method
       (ROMCalculator.calculatePeakROM (borderlinePeaks : list xnum) (of_Z 0))
     = ROMCalculator.percentile_fallback.
Proof.
  assert (F1 : no_NaN (borderlinePeaks : list float)) by (repeat constructor).
  assert (F2 : no_NaN (borderlinePeaks : list xnum)) by (repeat constructor).
  split; [exact F1|]. split.
  - apply (proj1 (calculatePeakROM_rule (borderlinePeaks : list float) (of_Z 0) F1)).
    split; [discriminate|]. split; [discriminate|]. vm_compute. reflexivity.
  - apply (proj2 (calculatePeakROM_rule (borderlinePeaks : list xnum) (of_Z 0) F2)).
    right. right. vm_compute. reflexivity.
Defined.

(** ** Results of the generic calculator on finite series *)

Lemma calculatePercentileROM_finite (angles : list xnum) (z : Q) :
  Forall finite angles -> angles <> [] ->
  finite_result (ROMCalculator.calculatePercentileROM angles (Fin z))
  /\ nonneg (ROMCalculator.totalROM
               (ROMCalculator.calculatePercentileROM angles (Fin z))).
Proof.
  intros F Hne. rewrite calculatePercentileROM_spec. cbn zeta.
  destruct (percentiles_ordered angles F Hne) as (a95 & a5 & E95 & E5 & L).
  rewrite E95, E5. unfold finite_result.
  cbn [ROMCalculator.anatomicalZero ROMCalculator.maxFlexion
       ROMCalculator.maxExtension ROMCalculator.totalROM ROMCalculator.confidence].
  change (sub (Fin a95) (Fin a5)) with (Fin (a95 + - a5)).
  repeat split; try exact I. apply round1_nonneg. lra.
Qed.

Lemma calculatePeakROM_finite (angles : list xnum) (z : Q) :
  Forall finite angles -> angles <> [] ->
  finite_result (ROMCalculator.calculatePeakROM angles (Fin z))
  /\ nonneg (ROMCalculator.totalROM (ROMCalculator.calculatePeakROM angles (Fin z))).
Proof.
  intros F Hne.
  unfold ROMCalculator.calculatePeakROM.
  set (peaks := ROMCalculator.findPeaks angles (Fin z)).
  destruct ((1 <=? length (filter ROMCalculator.is_flexion peaks))%nat
            && (1 <=? length (filter ROMCalculator.is_extension peaks))%nat
            && gtb (ROMCalculator.averageConfidence peaks) (dec 3 1)) eqn:C.
  - apply andb_true_iff in C. destruct C as [C _].
    apply andb_true_iff in C. destruct C as [Hf He].
    pose proof (flexion_values angles z F) as FV.
    pose proof (extension_values angles z F) as EV.
    fold peaks in FV, EV.
    destruct (math_max_spec _ (proj2 (values_nonempty _ _) Hf)
                (Forall_bounded_finite _ _ FV)) as (M & EM & HM & _).
    destruct (math_min_spec _ (proj2 (values_nonempty _ _) He)
                (Forall_bounded_finite _ _ EV)) as (m & Em & Hm & _).
    rewrite Forall_forall in FV, EV.
    destruct (FV _ HM) as (M' & EqM & LM). injection EqM as <-.
    destruct (EV _ Hm) as (m' & Eqm & Lm). injection Eqm as <-.
    destruct (averageConfidence_finite angles z F) as [c Hc]. fold peaks in Hc.
    unfold finite_result.
    cbn [ROMCalculator.anatomicalZero ROMCalculator.maxFlexion
         ROMCalculator.maxExtension ROMCalculator.totalROM ROMCalculator.confidence].
    rewrite EM, Em, Hc.
    change (sub (Fin M) (Fin m)) with (Fin (M + - m)).
    change (dec 95 2) with (Fin (inject_Z 95 / inject_Z 100)). rewrite min2_fin.
    repeat split; try exact I.
    + destruct (Qltb _ c); exact I.
    + apply round1_nonneg. lra.
  - apply calculatePercentileROM_finite; assumption.
Qed.

(** The generic calculator on a finite series: every field of the result
    is a finite number, never NaN, and the totalROM is [>= 0]. *)
Theorem calculateLegROM_finite_nonneg (angles : list xnum) :
  Forall finite angles ->
  finite_result (ROMCalculator.calculateLegROM angles)
  /\ nonneg (ROMCalculator.totalROM (ROMCalculator.calculateLegROM angles)).
Proof.
  intro F. destruct angles as [|x l] eqn:E.
  - cbn. unfold finite_result. cbn. repeat split; discriminate.
  - rewrite <- E in *. 
    assert (L : ROMCalculator.calculateLegROM angles
                = ROMCalculator.calculatePeakROM angles
                    (ROMCalculator.calculateAnatomicalZero angles))
      by (rewrite E; reflexivity).
    rewrite L. destruct (calculateAnatomicalZero_finite angles F) as [z ->].
    apply calculatePeakROM_finite; [exact F|rewrite E; discriminate].
Qed.

Lemma calculateLegROM_finite_nonneg_witness :
  Forall finite (scenario1 : list xnum)
  /\ finite_result (ROMCalculator.calculateLegROM (scenario1 : list xnum))
  /\ nonneg (ROMCalculator.totalROM (ROMCalculator.calculateLegROM (scenario1 : list xnum))).
Proof.
  assert (F : Forall finite (scenario1 : list xnum)) by (repeat constructor).
  split; [exact F|]. exact (calculateLegROM_finite_nonneg scenario1 F).
Defined.

(** The generic bilateral analysis of two finite series has finite
    fields only, and a non-negative asymmetry. *)
Theorem calculateBilateralROM_finite (leftAngles rightAngles : list xnum) :
  Forall finite leftAngles -> Forall finite rightAngles ->
  let a := ROMCalculator.calculateBilateralROM leftAngles rightAngles in
  finite_result (ROMCalculator.left a) /\ finite_result (ROMCalculator.right a)
  /\ finite (ROMCalculator.asymmetry a) /\ nonneg (ROMCalculator.asymmetry a)
  /\ finite (ROMCalculator.averageROM a).
Proof.
  intros FL FR a. unfold a, ROMCalculator.calculateBilateralROM.
  destruct (calculateLegROM_finite_nonneg leftAngles FL) as [RL _].
  destruct (calculateLegROM_finite_nonneg rightAngles FR) as [RR _].
  cbn [ROMCalculator.left ROMCalculator.right ROMCalculator.asymmetry
       ROMCalculator.averageROM].
  split; [exact RL|]. split; [exact RR|].
  destruct RL as (_ & _ & _ & TL & _). destruct RR as (_ & _ & _ & TR & _).
  destruct (finite_inv _ TL) as [tl ->]. destruct (finite_inv _ TR) as [tr ->].
  change (abs (sub (Fin tl) (Fin tr))) with (Fin (Qabs (tl + - tr))).
  split; [exact I|]. split; [apply round1_nonneg, Qabs_nonneg|exact I].
Qed.

Lemma calculateBilateralROM_finite_witness :
  Forall finite (scenario1 : list xnum) /\ Forall finite (flat101 : list xnum)
  /\ finite (ROMCalculator.asymmetry
               (ROMCalculator.calculateBilateralROM scenario1 flat101))
  /\ finite (ROMCalculator.averageROM
               (ROMCalculator.calculateBilateralROM scenario1 flat101)).
Proof.
  assert (F1 : Forall finite (scenario1 : list xnum)) by (repeat constructor).
  assert (F2 : Forall finite (flat101 : list xnum)) by (repeat constructor).
  split; [exact F1|]. split; [exact F2|].
  destruct (calculateBilateralROM_finite scenario1 flat101 F1 F2)
    as (_ & _ & A & _ & B).
  split; [exact A|exact B].
Defined.

(** ** The ankle calculator *)

Lemma to_nat_inject (j : Z) : (0 <= j)%Z -> to_nat (Fin (inject_Z j)) = Z.to_nat j.
Proof.
  intro H. unfold to_nat. change (to_index (Fin (inject_Z j))) with (xto_index (Fin (inject_Z j))).
  unfold xto_index. rewrite Qfloor_Z, Qeq_bool_refl.
  replace (0 <=? j)%Z with true by (symmetry; apply Z.leb_le; exact H).
  reflexivity.
Qed.

(** The number of initial frames the ankle calculator averages over. *)
Lemma ankle_initialFrames (n : nat) :
  exists k : nat,
    to_nat (min2 (of_Z 20) (floor (mul (of_nat n) (dec 1 1)))) = k
    /\ (k <= n)%nat /\ (10 <= n -> 1 <= k)%nat /\ (n < 10 -> k = 0)%nat.
Proof.
  change (floor (mul (of_nat n) (dec 1 1)))
    with (Fin (inject_Z (Qfloor (inject_Z (Z.of_nat n) * (inject_Z 1 / inject_Z 10))))).
  change (of_Z 20) with (Fin (inject_Z 20)).
  set (x := inject_Z (Z.of_nat n) * (inject_Z 1 / inject_Z 10)).
  assert (X : x == inject_Z (Z.of_nat n) / 10) by (unfold x; field).
  assert (N0 : 0 <= inject_Z (Z.of_nat n))
    by (change 0 with (inject_Z 0); rewrite <- Zle_Qle; lia).
  assert (F0 : (0 <= Qfloor x)%Z).
  { change 0%Z with (Qfloor 0). apply Qfloor_resp_le. rewrite X.
    apply Qle_shift_div_l; [reflexivity|]. lra. }
  assert (Fn : (Qfloor x <= Z.of_nat n)%Z).
  { rewrite Zle_Qle. eapply Qle_trans; [apply Qfloor_le|]. rewrite X.
    apply Qle_shift_div_r; [reflexivity|]. lra. }
  assert (F10 : (10 <= n)%nat -> (1 <= Qfloor x)%Z).
  { intro H. change 1%Z with (Qfloor 1). apply Qfloor_resp_le. rewrite X.
    apply Qle_shift_div_l; [reflexivity|].
    assert (10 <= inject_Z (Z.of_nat n))
      by (change 10 with (inject_Z 10); rewrite <- Zle_Qle; lia).
    lra. }
  assert (F9 : (n < 10)%nat -> (Qfloor x < 1)%Z).
  { intro H. rewrite Zlt_Qlt. eapply Qle_lt_trans; [apply Qfloor_le|]. rewrite X.
    apply Qlt_shift_div_r; [reflexivity|].
    assert (inject_Z (Z.of_nat n) < 10)
      by (change 10 with (inject_Z 10); rewrite <- Zlt_Qlt; lia).
    change (inject_Z 1) with 1. lra. }
  rewrite min2_fin. destruct (Qltb (inject_Z (Qfloor x)) (inject_Z 20)) eqn:E.
  - exists (Z.to_nat (Qfloor x)). rewrite to_nat_inject by exact F0.
    split; [reflexivity|]. repeat split; intros; try specialize (F10 ltac:(assumption));
      try specialize (F9 ltac:(assumption)); lia.
  - apply Qltb_ge in E. rewrite <- Zle_Qle in E.
    exists 20%nat. rewrite to_nat_inject by lia.
    split; [reflexivity|]. repeat split; intros; try specialize (F9 ltac:(assumption)); lia.
Qed.

(** With fewer than ten samples the mean is taken over no frame at all:
    the anatomical zero is [0 / 0]. *)
Theorem ankle_anatomicalZero_short (angles : list xnum) :
  (length angles < 10)%nat ->
  AnkleROMCalculator.calculateAnatomicalZero angles = NaN.
Proof.
  intro H. unfold AnkleROMCalculator.calculateAnatomicalZero.
  destruct (ankle_initialFrames (length angles)) as (k & -> & _ & _ & K0).
  rewrite (K0 H). reflexivity.
Qed.

Lemma calculateAnkleROM_NaN (peaks : list (AnkleROMCalculator.AnklePeak xnum)) :
  AnkleROMCalculator.rom_totalROM (AnkleROMCalculator.calculateAnkleROM peaks NaN)
  = NaN.
Proof.
  unfold AnkleROMCalculator.calculateAnkleROM.
  cbn [AnkleROMCalculator.rom_totalROM].
  set (a := match filter AnkleROMCalculator.is_dorsiflexion peaks with
            | [] => NaN | _ => _ end).
  set (b := match filter AnkleROMCalculator.is_plantarflexion peaks with
            | [] => NaN | _ => _ end).
  assert (A : sub a NaN = NaN) by (destruct a; reflexivity).
  rewrite A. reflexivity.
Qed.

(** Hence the totalROM of a leg with fewer than ten samples is NaN. *)
Theorem ankle_totalROM_short (leftAngles rightAngles : list xnum) :
  (length leftAngles < 10)%nat ->
  AnkleROMCalculator.totalROM
    (AnkleROMCalculator.left
       (AnkleROMCalculator.calculateBilateralROM leftAngles rightAngles)) = NaN.
Proof.
  intro H. unfold AnkleROMCalculator.calculateBilateralROM.
  cbn [AnkleROMCalculator.left AnkleROMCalculator.totalROM].
  rewrite (ankle_anatomicalZero_short leftAngles H).
  apply calculateAnkleROM_NaN.
Qed.

Lemma ankle_totalROM_short_witness :
  (length (@nil xnum) < 10)%nat
  /\ AnkleROMCalculator.totalROM
       (AnkleROMCalculator.left (AnkleROMCalculator.calculateBilateralROM [] []))
     = NaN.
Proof.
  assert (H : (length (@nil xnum) < 10)%nat) by (cbn; lia).
  split; [exact H|]. exact (ankle_totalROM_short [] [] H).
Defined.

Lemma ankle_anatomicalZero_finite (angles : list xnum) :
  Forall finite angles -> (10 <= length angles)%nat ->
  exists z, AnkleROMCalculator.calculateAnatomicalZero angles = Fin z.
Proof.
  intros F H. unfold AnkleROMCalculator.calculateAnatomicalZero.
  destruct (ankle_initialFrames (length angles)) as (k & -> & Kn & K1 & _).
  specialize (K1 H).
  destruct (sum_finite (slice angles 0 k)) as [q Hq]; [apply Forall_slice, F|].
  rewrite Hq, slice_length by lia. rewrite Nat.sub_0_r.
  change (of_nat k) with (Fin (inject_Z (Z.of_nat k))).
  rewrite xdiv_fin by (intro E; unfold Qeq in E; simpl in E; lia).
  rewrite round1_fin. eexists; reflexivity.
Qed.

Lemma findAnklePeaks_finite (angles : list xnum) (zero : xnum) :
  Forall finite angles -> angles <> [] ->
  Forall (fun p => finite (AnkleROMCalculator.value p))
    (AnkleROMCalculator.findAnklePeaks angles zero).
Proof.
  intros F Hne. unfold AnkleROMCalculator.findAnklePeaks.
  set (inner := seq 1 (length angles - 1 - 1)).
  assert (G : forall i, In i inner -> finite (get angles i)).
  { intros i Hi. apply in_seq in Hi.
    destruct (Forall_finite_get angles i F ltac:(lia)) as [q ->]. exact I. }
  match goal with |- Forall _ (match ?a ++ ?b with _ => _ end) =>
    set (maxima := a); set (minima := b) end.
  assert (D : Forall (fun p => finite (AnkleROMCalculator.value p)) (maxima ++ minima)).
  { apply Forall_app. split; apply Forall_flat_map, Forall_forall; intros i Hi;
      match goal with |- Forall _ (if ?c then _ else _) => destruct c end;
      repeat constructor; cbn; apply G, Hi. }
  destruct (maxima ++ minima) as [|p l] eqn:E; [|exact D].
  rewrite !percentile_read by lia. rewrite sort_asc_length.
  destruct (percentiles_ordered angles F Hne) as (a95 & a5 & E95 & E5 & _).
  rewrite E95, E5. repeat constructor.
Qed.

(** The ankle formula itself: from a finite anatomical zero and finite
    peak values it yields finite bounds and a totalROM [>= 0]. *)
Lemma calculateAnkleROM_finite (peaks : list (AnkleROMCalculator.AnklePeak xnum)) (z : Q) :
  Forall (fun p => finite (AnkleROMCalculator.value p)) peaks ->
  let r := AnkleROMCalculator.calculateAnkleROM peaks (Fin z) in
  finite (AnkleROMCalculator.rom_maxDorsiflexion r)
  /\ finite (AnkleROMCalculator.rom_maxPlantarflexion r)
  /\ finite (AnkleROMCalculator.rom_totalROM r)
  /\ nonneg (AnkleROMCalculator.rom_totalROM r).
Proof.
  intros F r. unfold r, AnkleROMCalculator.calculateAnkleROM.
  assert (FD : Forall finite (map AnkleROMCalculator.value
                 (filter AnkleROMCalculator.is_dorsiflexion peaks))).
  { apply Forall_map, Forall_forall. intros p Hp. apply filter_In in Hp.
    rewrite Forall_forall in F. apply F, Hp. }
  assert (FP : Forall finite (map AnkleROMCalculator.value
                 (filter AnkleROMCalculator.is_plantarflexion peaks))).
  { apply Forall_map, Forall_forall. intros p Hp. apply filter_In in Hp.
    rewrite Forall_forall in F. apply F, Hp. }
  assert (A : exists a, match filter AnkleROMCalculator.is_dorsiflexion peaks with
                        | [] => Fin z
                        | _ => math_max (map AnkleROMCalculator.value
                                 (filter AnkleROMCalculator.is_dorsiflexion peaks))
                        end = Fin a).
  { destruct (filter AnkleROMCalculator.is_dorsiflexion peaks) as [|p l] eqn:E;
      [eexists; reflexivity|].
    destruct (math_max_spec (map AnkleROMCalculator.value (p :: l))
                ltac:(discriminate) FD) as (M & -> & _).
    eexists; reflexivity. }
  assert (B : exists b, match filter AnkleROMCalculator.is_plantarflexion peaks with
                        | [] => Fin z
                        | _ => math_min (map AnkleROMCalculator.value
                                 (filter AnkleROMCalculator.is_plantarflexion peaks))
                        end = Fin b).
  { destruct (filter AnkleROMCalculator.is_plantarflexion peaks) as [|p l] eqn:E;
      [eexists; reflexivity|].
    destruct (math_min_spec (map AnkleROMCalculator.value (p :: l))
                ltac:(discriminate) FP) as (M & -> & _).
    eexists; reflexivity. }
  destruct A as [a ->]. destruct B as [b ->].
  cbn [AnkleROMCalculator.rom_maxDorsiflexion AnkleROMCalculator.rom_maxPlantarflexion
       AnkleROMCalculator.rom_totalROM].
  change (add (abs (sub (Fin a) (Fin z))) (abs (sub (Fin b) (Fin z))))
    with (Fin (Qabs (a + - z) + Qabs (b + - z))).
  repeat split; try exact I.
  apply round1_nonneg.
  pose proof (Qabs_nonneg (a + - z)). pose proof (Qabs_nonneg (b + - z)). lra.
Qed.

(** With at least ten finite samples per leg the ankle calculator returns
    finite, non-negative totalROMs. *)
Theorem ankle_totalROM_nonneg (leftAngles rightAngles : list xnum) :
  Forall finite leftAngles -> Forall finite rightAngles ->
  (10 <= length leftAngles)%nat -> (10 <= length rightAngles)%nat ->
  let a := AnkleROMCalculator.calculateBilateralROM leftAngles rightAngles in
  nonneg (AnkleROMCalculator.totalROM (AnkleROMCalculator.left a))
  /\ nonneg (AnkleROMCalculator.totalROM (AnkleROMCalculator.right a))
  /\ finite (AnkleROMCalculator.totalROM (AnkleROMCalculator.left a))
  /\ finite (AnkleROMCalculator.totalROM (AnkleROMCalculator.right a))
  /\ finite (AnkleROMCalculator.asymmetry a)
  /\ finite (AnkleROMCalculator.averageROM a).
Proof.
  intros FL FR HL HR a. unfold a, AnkleROMCalculator.calculateBilateralROM.
  destruct (ankle_anatomicalZero_finite leftAngles FL HL) as [zl ->].
  destruct (ankle_anatomicalZero_finite rightAngles FR HR) as [zr ->].
  assert (NL : leftAngles <> []) by (destruct leftAngles; [cbn in HL; lia|discriminate]).
  assert (NR : rightAngles <> []) by (destruct rightAngles; [cbn in HR; lia|discriminate]).
  destruct (calculateAnkleROM_finite _ zl (findAnklePeaks_finite leftAngles (Fin zl) FL NL))
    as (_ & _ & TL & PL).
  destruct (calculateAnkleROM_finite _ zr (findAnklePeaks_finite rightAngles (Fin zr) FR NR))
    as (_ & _ & TR & PR).
  cbn [AnkleROMCalculator.left AnkleROMCalculator.right AnkleROMCalculator.totalROM
       AnkleROMCalculator.asymmetry AnkleROMCalculator.averageROM].
  split; [exact PL|]. split; [exact PR|]. split; [exact TL|]. split; [exact TR|].
  destruct (finite_inv _ TL) as [tl ->]. destruct (finite_inv _ TR) as [tr ->].
  split; exact I.
Qed.

Lemma ankle_totalROM_nonneg_witness :
  Forall finite (ankle12 : list xnum)
  /\ (10 <= length (ankle12 : list xnum))%nat
  /\ nonneg (AnkleROMCalculator.totalROM
               (AnkleROMCalculator.left
                  (AnkleROMCalculator.calculateBilateralROM ankle12 ankle12))).
Proof.
  assert (F : Forall finite (ankle12 : list xnum)) by (repeat constructor).
  assert (L : (10 <= length (ankle12 : list xnum))%nat) by (cbn; lia).
  split; [exact F|]. split; [exact L|].
  exact (proj1 (ankle_totalROM_nonneg ankle12 ankle12 F F L L)).
Defined.

(** ** The end-to-end scenarios *)

(** C7 fails as stated: a cycle extracted from events beyond the recorded
    frames has empty angle sub-series, and its normalized arrays are empty
    rather than of 101 entries. *)
Lemma normalize_cycle_without_samples :
  exists (data : list (GaitCycleDetector.GaitData float)) cycle n,
    GaitCycleDetector.extractGaitCycles data [icAt 0; icAt 110] = [cycle]
    /\ GaitCycleDetector.normalizeGaitCycles [cycle] 101 = [n]
    /\ (2 <= 101)%nat
    /\ length (GaitCycleDetector.normalizedHip n) <> 101%nat
    /\ GaitCycleDetector.normalizedHip n = []
    /\ GaitCycleDetector.normalizedKnee n = []
    /\ GaitCycleDetector.normalizedAnkle n = [].
Proof.
  exists []. eexists. eexists.
  split; [reflexivity|]. split; [reflexivity|]. cbn.
  repeat split; try lia; discriminate.
Qed.

(** C2.  On the 101-point series that is 0 except 70 at index 75 and -5
    at index 95, the single-leg calculation finds the anatomical zero 0,
    one peak at each of the two indices, and returns maxFlexion 70,
    maxExtension -5, totalROM 75 with method [peak_detection], in exact
    arithmetic and in binary64 alike. *)
Theorem scenario1_peak_detection :
  (let r := ROMCalculator.calculateLegROM (scenario1 : list xnum) in
   xeq (ROMCalculator.anatomicalZero r) (of_Z 0)
   /\ xeq (ROMCalculator.maxFlexion r) (of_Z 70)
   /\ xeq (ROMCalculator.maxExtension r) (of_Z (-5))
   /\ xeq (ROMCalculator.totalROM r) (of_Z 75)
   /\ ROMCalculator.method r = ROMCalculator.peak_detection)
  /\
  (let r := ROMCalculator.calculateLegROM (scenario1 : list float) in
   ROMCalculator.anatomicalZero r = of_Z 0
   /\ ROMCalculator.maxFlexion r = of_Z 70
   /\ ROMCalculator.maxExtension r = of_Z (-5)
   /\ ROMCalculator.totalROM r = of_Z 75
   /\ ROMCalculator.method r = ROMCalculator.peak_detection)
  /\ length (scenario1 : list float) = 101%nat
  /\ map ROMCalculator.peak_index
       (ROMCalculator.findPeaks (scenario1 : list float) (of_Z 0)) = [75; 95]%nat.
Proof.
  split; [|split; [|split]].
  - vm_compute. repeat split; reflexivity.
  - vm_compute. repeat split; reflexivity.
  - reflexivity.
  - vm_compute. reflexivity.
Qed.

(** C3 fails as stated: for two all-zero 101-point series the data quality
    is not [poor] and the confidence of a leg is not 0. *)
Lemma flat_series_quality_not_poor :
  (let a := ROMCalculator.calculateBilateralROM (flat101 : list xnum) flat101 in
   ROMCalculator.dataQuality a <> ROMCalculator.poor
   /\ ~ xeq (ROMCalculator.confidence (ROMCalculator.left a)) (of_Z 0))
  /\
  (let a := ROMCalculator.calculateBilateralROM (flat101 : list float) flat101 in
   ROMCalculator.dataQuality a <> ROMCalculator.poor
   /\ eqb (ROMCalculator.confidence (ROMCalculator.left a)) (of_Z 0) = false).
Proof.
  split.
  - vm_compute. split; [discriminate|]. intro H. discriminate H.
  - vm_compute. split; [discriminate|reflexivity].
Qed.

(** C3, as the code has it.  For two all-zero 101-point series,
    [calculateBilateralROM] returns asymmetry 0 and averageROM 0; both
    legs come from the percentile fallback, whose confidence is the fixed
    0.7, so the data quality is [good]. *)
Theorem flat_series_bilateral :
  (let a := ROMCalculator.calculateBilateralROM (flat101 : list xnum) flat101 in
   xeq (ROMCalculator.asymmetry a) (of_Z 0)
   /\ xeq (ROMCalculator.averageROM a) (of_Z 0)
   /\ ROMCalculator.method (ROMCalculator.left a) = ROMCalculator.percentile_fallback
   /\ ROMCalculator.method (ROMCalculator.right a) = ROMCalculator.percentile_fallback
   /\ xeq (ROMCalculator.confidence (ROMCalculator.left a)) (dec 7 1)
   /\ xeq (ROMCalculator.confidence (ROMCalculator.right a)) (dec 7 1)
   /\ ROMCalculator.dataQuality a = ROMCalculator.good)
  /\
  (let a := ROMCalculator.calculateBilateralROM (flat101 : list float) flat101 in
   ROMCalculator.asymmetry a = of_Z 0
   /\ ROMCalculator.averageROM a = of_Z 0
   /\ ROMCalculator.method (ROMCalculator.left a) = ROMCalculator.percentile_fallback
   /\ ROMCalculator.method (ROMCalculator.right a) = ROMCalculator.percentile_fallback
   /\ ROMCalculator.confidence (ROMCalculator.left a) = dec 7 1
   /\ ROMCalculator.confidence (ROMCalculator.right a) = dec 7 1
   /\ ROMCalculator.dataQuality a = ROMCalculator.good).
Proof.
  split; vm_compute; repeat split; reflexivity.
Qed.

(** C1 fails as stated: the weak-peak series has one flexion peak (2) and
    one extension peak (-2), yet the calculation does not use the peak
    method: their mean confidence is 0.2, the method is
    [percentile_fallback] and the reported maxFlexion is 0, not 2. *)
Lemma weak_peaks_fall_back :
  let zero := ROMCalculator.calculateAnatomicalZero (weakPeaks : list float) in
  let peaks := ROMCalculator.findPeaks (weakPeaks : list float) zero in
  let r := ROMCalculator.calculatePeakROM (weakPeaks : list float) zero in
  map ROMCalculator.peak_type peaks
    = [ROMCalculator.flexion; ROMCalculator.extension]
  /\ map ROMCalculator.peak_value peaks = [of_Z 2; of_Z (-2)]
  /\ ROMCalculator.calculateLegROM (weakPeaks : list float) = r
  /\ ROMCalculator.method r = ROMCalculator.percentile_fallback
  /\ ROMCalculator.method r <> ROMCalculator.peak_detection
  /\ ROMCalculator.maxFlexion r = of_Z 0
  /\ eqb (ROMCalculator.maxFlexion r) (of_Z 2) = false
  /\ ROMCalculator.totalROM r = of_Z 0.
Proof.
  vm_compute. repeat split; try reflexivity. discriminate.
Qed.

(** C4 at its failing input.  For the empty and for a one-element angle
    array the ankle calculator reports the totalROM NaN, which is not
    [>= 0]. *)
Theorem ankle_totalROM_not_nonneg :
  (let a := AnkleROMCalculator.calculateBilateralROM ([] : list xnum) [of_Z 5] in
   AnkleROMCalculator.totalROM (AnkleROMCalculator.left a) = NaN
   /\ AnkleROMCalculator.totalROM (AnkleROMCalculator.right a) = NaN
   /\ ~ nonneg (AnkleROMCalculator.totalROM (AnkleROMCalculator.left a))
   /\ ~ nonneg (AnkleROMCalculator.totalROM (AnkleROMCalculator.right a)))
  /\
  (let a := AnkleROMCalculator.calculateBilateralROM ([] : list float) [of_Z 5] in
   AnkleROMCalculator.totalROM (AnkleROMCalculator.left a) = nan
   /\ AnkleROMCalculator.totalROM (AnkleROMCalculator.right a) = nan
   /\ geb (AnkleROMCalculator.totalROM (AnkleROMCalculator.left a)) (of_Z 0) = false
   /\ geb (AnkleROMCalculator.totalROM (AnkleROMCalculator.right a)) (of_Z 0) = false).
Proof.
  split; vm_compute; repeat split; try reflexivity; intros [].
Qed.

(** C6 at its failing input.  For empty angle arrays, and for a
    five-sample array, the ankle calculator returns NaN in its anatomical
    zero, its totalROM, the asymmetry and the average ROM; the generic
    calculator returns the all-zero result with confidence 0 and method
    [percentile_fallback] for the empty array. *)
Theorem ankle_short_input_NaN :
  (let a := AnkleROMCalculator.calculateBilateralROM ([] : list float) [] in
   AnkleROMCalculator.left a
     = AnkleROMCalculator.mkAnkleSide nan nan nan nan
   /\ AnkleROMCalculator.right a
     = AnkleROMCalculator.mkAnkleSide nan nan nan nan
   /\ AnkleROMCalculator.asymmetry a = nan
   /\ AnkleROMCalculator.averageROM a = nan)
  /\
  (let a := AnkleROMCalculator.calculateBilateralROM ([] : list xnum) [] in
   AnkleROMCalculator.left a
     = AnkleROMCalculator.mkAnkleSide NaN NaN NaN NaN
   /\ AnkleROMCalculator.asymmetry a = NaN
   /\ AnkleROMCalculator.averageROM a = NaN)
  /\
  (let s : list float := map of_Z [1; 2; 3; 2; 1]%Z in
   let a := AnkleROMCalculator.calculateBilateralROM s s in
   AnkleROMCalculator.anatomicalZero (AnkleROMCalculator.left a) = nan
   /\ AnkleROMCalculator.totalROM (AnkleROMCalculator.left a) = nan
   /\ AnkleROMCalculator.asymmetry a = nan
   /\ AnkleROMCalculator.averageROM a = nan)
  /\
  ROMCalculator.calculateLegROM ([] : list float)
  = ROMCalculator.mkROMResult (of_Z 0) (of_Z 0) (of_Z 0) (of_Z 0)
      ROMCalculator.percentile_fallback (of_Z 0).
Proof.
  split; [|split; [|split]]; vm_compute; repeat split; reflexivity.
Qed.

(** C10 at its failing inputs, in binary64.  Resampling eight samples to
    101 points puts the last sample position at [100 * (7 / 100)], which
    exceeds 7: the last output is interpolated towards the missing ninth
    sample and is NaN, not the input's last element 1.  The same happens
    for a cycle of 111 samples resampled to 101 points.  Resampling
    [0; 0.25] to 50 points stops short of the last index and yields the
    rounded 0.2.  The first element is copied. *)
Theorem resampleData_last_point_binary64 :
  let out8 := GaitCycleDetector.resampleData (step8 : list float) 101 in
  let out111 := GaitCycleDetector.resampleData (ramp111 : list float) 101 in
  let out2 := GaitCycleDetector.resampleData ([of_Z 0; dec 25 2] : list float) 50 in
  nth 7 (step8 : list float) nan = of_Z 1
  /\ nth 100 out8 (of_Z 0) = nan
  /\ ltb (of_Z 7) (mul (of_Z 100) (div (of_Z 7) (of_Z 100)) : float) = true
  /\ nth 110 (ramp111 : list float) nan = of_Z 110
  /\ nth 100 out111 (of_Z 0) = nan
  /\ nth 49 out2 nan = dec 2 1
  /\ eqb (nth 49 out2 nan) (dec 25 2) = false
  /\ nth 0 out8 nan = of_Z 0.
Proof.
  vm_compute. repeat split; reflexivity.
Qed.

Lemma resampleData_idempotent_binary64_samples :
  let r8 := GaitCycleDetector.resampleData (step8 : list float) 101 in
  let r111 := GaitCycleDetector.resampleData (ramp111 : list float) 101 in
  GaitCycleDetector.resampleData r8 101 = r8
  /\ GaitCycleDetector.resampleData r111 101 = r111.
Proof.
  vm_compute. split; reflexivity.
Qed.


(** ** Initial contacts and the cycles extracted from them *)

Section ContactsGeneric.
Context {N : Type} {JSN : JSNumber N}.

Lemma insertByFrame_perm (e : GaitCycleDetector.GaitEvent N)
    (l : list (GaitCycleDetector.GaitEvent N)) :
  Permutation (e :: l) (GaitCycleDetector.insertByFrame e l).
Proof.
  induction l as [|y l IH]; cbn [GaitCycleDetector.insertByFrame]; [reflexivity|].
  destruct (_ <=? _)%nat; [reflexivity|].
  rewrite perm_swap. apply perm_skip, IH.
Qed.

Lemma sortByFrame_perm (l : list (GaitCycleDetector.GaitEvent N)) :
  Permutation l (GaitCycleDetector.sortByFrame l).
Proof.
  induction l as [|e l IH]; [reflexivity|].
  cbn [GaitCycleDetector.sortByFrame fold_right].
  rewrite <- insertByFrame_perm. apply perm_skip, IH.
Qed.

(** A list whose frames already ascend is left as it is by the sort. *)
Lemma sortByFrame_sorted (l : list (GaitCycleDetector.GaitEvent N)) :
  StronglySorted
    (fun a b => (GaitCycleDetector.event_frame a <= GaitCycleDetector.event_frame b)%nat) l ->
  GaitCycleDetector.sortByFrame l = l.
Proof.
  induction 1 as [|e l S IH H]; [reflexivity|].
  cbn [GaitCycleDetector.sortByFrame fold_right].
  change (fold_right GaitCycleDetector.insertByFrame [] l)
    with (GaitCycleDetector.sortByFrame l).
  rewrite IH. destruct l as [|y l]; [reflexivity|].
  cbn [GaitCycleDetector.insertByFrame].
  inversion H as [|? ? Hy _]; subst.
  apply Nat.leb_le in Hy. rewrite Hy. reflexivity.
Qed.

Lemma contactEvents_frame (data : list (GaitCycleDetector.GaitData N)) (i : nat)
    (e : GaitCycleDetector.GaitEvent N) :
  In e (GaitCycleDetector.contactEvents data i) ->
  GaitCycleDetector.event_frame e = i.
Proof.
  unfold GaitCycleDetector.contactEvents.
  destruct (nth_error data (i - 1)) as [prev|]; [|intros []].
  destruct (nth_error data i) as [cur|]; [|intros []].
  rewrite in_app_iff.
  destruct (negb _ && _), (negb _ && _); cbn; intuition (subst; reflexivity).
Qed.

(** The events pushed over ascending frames ascend. *)
Lemma contacts_ascending (data : list (GaitCycleDetector.GaitData N)) (a n : nat) :
  StronglySorted
    (fun x y => (GaitCycleDetector.event_frame x <= GaitCycleDetector.event_frame y)%nat)
    (flat_map (GaitCycleDetector.contactEvents data) (seq a n)).
Proof.
  revert a. induction n as [|n IH]; intro a; cbn [seq flat_map]; [constructor|].
  assert (Tail : Forall (fun y => (a <= GaitCycleDetector.event_frame y)%nat)
                   (flat_map (GaitCycleDetector.contactEvents data) (seq (S a) n))).
  { apply Forall_forall. intros y Hy. apply in_flat_map in Hy.
    destruct Hy as (j & Hj & Hy). apply in_seq in Hj.
    rewrite (contactEvents_frame _ _ _ Hy). lia. }
  assert (Here : forall x, In x (GaitCycleDetector.contactEvents data a) ->
                 GaitCycleDetector.event_frame x = a)
    by (intros x; apply contactEvents_frame).
  induction (GaitCycleDetector.contactEvents data a) as [|x l IHl]; cbn [app].
  - apply IH.
  - constructor.
    + apply IHl. intros z Hz. apply Here. right. exact Hz.
    + apply Forall_app. split.
      * apply Forall_forall. intros z Hz.
        rewrite (Here x (or_introl eq_refl)), (Here z (or_intror Hz)). lia.
      * rewrite (Here x (or_introl eq_refl)). exact Tail.
Qed.

Lemma detectInitialContacts_unsorted (data : list (GaitCycleDetector.GaitData N)) :
  GaitCycleDetector.detectInitialContacts data
  = flat_map (GaitCycleDetector.contactEvents data) (seq 1 (length data - 1)).
Proof.
  unfold GaitCycleDetector.detectInitialContacts.
  apply sortByFrame_sorted, contacts_ascending.
Qed.

End ContactsGeneric.

Lemma filter_flat_map {A B : Type} (p : B -> bool) (f : A -> list B) (l : list A) :
  filter p (flat_map f l) = flat_map (fun x => filter p (f x)) l.
Proof.
  induction l as [|x l IH]; [reflexivity|].
  cbn [flat_map]. rewrite filter_app, IH. reflexivity.
Qed.

Section ContactsGeneric2.
Context {N : Type} {JSN : JSNumber N}.

Lemma contactEvents_In (data : list (GaitCycleDetector.GaitData N)) (i : nat)
    (e : GaitCycleDetector.GaitEvent N) :
  (1 <= i)%nat ->
  (In e (GaitCycleDetector.contactEvents data i) <->
   exists cur, touchdown data (GaitCycleDetector.event_leg e) i cur
               /\ e = GaitCycleDetector.mkGaitEvent i (GaitCycleDetector.time cur)
                        GaitCycleDetector.IC (GaitCycleDetector.event_leg e)).
Proof.
  intro Hi. unfold GaitCycleDetector.contactEvents, touchdown.
  destruct (nth_error data (i - 1)) as [prev|] eqn:P.
  2:{ split; [intros []|]. intros (cur & (_ & _ & prev & Q & _) & _). discriminate. }
  destruct (nth_error data i) as [cur|] eqn:C.
  2:{ split; [intros []|]. intros (cur & (_ & Q & _) & _). discriminate. }
  rewrite in_app_iff. split.
  - intros [H|H].
    + destruct (negb (GaitCycleDetector.leftFootContact prev)
                && GaitCycleDetector.leftFootContact cur) eqn:E; [|destruct H].
      destruct H as [<-|[]]. apply andb_true_iff in E. destruct E as [E1 E2].
      apply negb_true_iff in E1. exists cur. cbn. split; [|reflexivity].
      split; [exact Hi|]. split; [reflexivity|]. exists prev. auto.
    + destruct (negb (GaitCycleDetector.rightFootContact prev)
                && GaitCycleDetector.rightFootContact cur) eqn:E; [|destruct H].
      destruct H as [<-|[]]. apply andb_true_iff in E. destruct E as [E1 E2].
      apply negb_true_iff in E1. exists cur. cbn. split; [|reflexivity].
      split; [exact Hi|]. split; [reflexivity|]. exists prev. auto.
  - intros (cur' & (_ & Q & prev' & Q' & F1 & F2) & ->).
    injection Q as <-. injection Q' as <-.
    cbn [GaitCycleDetector.event_leg] in *.
    destruct (GaitCycleDetector.event_leg e); cbn [contact] in F1, F2.
    + left. rewrite F1, F2. cbn. left. reflexivity.
    + right. rewrite F1, F2. cbn. left. reflexivity.
Qed.

(** X1.  An event is reported exactly for every touchdown: for each leg and
    each frame [i >= 1] at which the leg's contact flag turns from off to
    on, the IC event of that leg at frame [i] with the time of frame [i];
    nothing is reported for frame 0, and nothing else. *)
Theorem detectInitialContacts_touchdowns
    (data : list (GaitCycleDetector.GaitData N))
    (e : GaitCycleDetector.GaitEvent N) :
  In e (GaitCycleDetector.detectInitialContacts data) <->
  exists cur,
    touchdown data (GaitCycleDetector.event_leg e)
      (GaitCycleDetector.event_frame e) cur
    /\ GaitCycleDetector.event_time e = GaitCycleDetector.time cur
    /\ GaitCycleDetector.event_type e = GaitCycleDetector.IC
    /\ (GaitCycleDetector.event_frame e < length data)%nat.
Proof.
  rewrite detectInitialContacts_unsorted, in_flat_map. split.
  - intros (i & Hi & He). apply in_seq in Hi.
    apply contactEvents_In in He; [|lia].
    destruct He as (cur & T & ->). exists cur. cbn. repeat split; try apply T; lia.
  - intros (cur & T & Ht & Hy & Hl).
    exists (GaitCycleDetector.event_frame e). split.
    + apply in_seq. destruct T as (T1 & _). lia.
    + apply contactEvents_In; [apply T|]. exists cur. split; [exact T|].
      destruct e as [f t ty l]. cbn in *. subst. reflexivity.
Qed.

Lemma leg_events_ascending (data : list (GaitCycleDetector.GaitData N))
    (leg : GaitCycleDetector.Leg) (a n : nat) :
  StronglySorted
    (fun x y => (GaitCycleDetector.event_frame x < GaitCycleDetector.event_frame y)%nat)
    (eventsOf leg (flat_map (GaitCycleDetector.contactEvents data) (seq a n))).
Proof.
  unfold eventsOf. rewrite filter_flat_map.
  revert a. induction n as [|n IH]; intro a; cbn [seq flat_map]; [constructor|].
  assert (Tail : Forall (fun y => (a < GaitCycleDetector.event_frame y)%nat)
            (flat_map (fun x => filter
               (fun e => GaitCycleDetector.leg_eqb (GaitCycleDetector.event_leg e) leg)
               (GaitCycleDetector.contactEvents data x)) (seq (S a) n))).
  { apply Forall_forall. intros y Hy. apply in_flat_map in Hy.
    destruct Hy as (j & Hj & Hy). apply in_seq in Hj. apply filter_In in Hy.
    rewrite (contactEvents_frame _ _ _ (proj1 Hy)). lia. }
  unfold GaitCycleDetector.contactEvents at 1.
  destruct (nth_error data (a - 1)) as [prev|]; [|apply IH].
  destruct (nth_error data a) as [cur|]; [|apply IH].
  rewrite filter_app.
  destruct (negb (GaitCycleDetector.leftFootContact prev) && _),
           (negb (GaitCycleDetector.rightFootContact prev) && _), leg;
    cbn [filter app GaitCycleDetector.leg_eqb GaitCycleDetector.event_leg];
    try apply IH; (constructor; [apply IH|exact Tail]).
Qed.

(** X2.  The reported events ascend by frame, the sort leaving the scan's
    order as it is (at one frame the left leg before the right), and the
    events of one leg have pairwise different, strictly ascending frames. *)
Theorem detectInitialContacts_ordered (data : list (GaitCycleDetector.GaitData N)) :
  StronglySorted
    (fun x y => (GaitCycleDetector.event_frame x <= GaitCycleDetector.event_frame y)%nat)
    (GaitCycleDetector.detectInitialContacts data)
  /\ GaitCycleDetector.detectInitialContacts data
     = flat_map (GaitCycleDetector.contactEvents data) (seq 1 (length data - 1))
  /\ forall leg,
       StronglySorted
         (fun x y => (GaitCycleDetector.event_frame x < GaitCycleDetector.event_frame y)%nat)
         (eventsOf leg (GaitCycleDetector.detectInitialContacts data)).
Proof.
  rewrite detectInitialContacts_unsorted. split; [apply contacts_ascending|].
  split; [reflexivity|]. intro leg. apply leg_events_ascending.
Qed.

End ContactsGeneric2.

Section CycleSlices.
Context {N : Type} {JSN : JSNumber N}.

Lemma skipn_nth_error_cons {A : Type} (l : list A) (a : nat) (d : A) :
  nth_error l a = Some d -> skipn a l = d :: skipn (S a) l.
Proof.
  revert a. induction l as [|x l IH]; intros [|a] H; try discriminate.
  - injection H as ->. reflexivity.
  - cbn [skipn]. apply IH. exact H.
Qed.

Lemma skipn_nth_error_nil {A : Type} (l : list A) (a : nat) :
  nth_error l a = None -> skipn a l = [].
Proof.
  intro H. apply nth_error_None in H. apply skipn_all2. exact H.
Qed.

(** The values pushed over consecutive frames are the column of the
    frames recorded among them. *)
Lemma collect_seq (data : list (GaitCycleDetector.GaitData N))
    (f : GaitCycleDetector.GaitData N -> N) (a k : nat) :
  GaitCycleDetector.collect data f (seq a k) = map f (firstn k (skipn a data)).
Proof.
  unfold GaitCycleDetector.collect.
  revert a. induction k as [|k IH]; intro a; [reflexivity|].
  cbn [seq flat_map]. rewrite IH.
  destruct (nth_error data a) as [d|] eqn:E.
  - rewrite (skipn_nth_error_cons _ _ _ E). reflexivity.
  - rewrite (skipn_nth_error_nil _ _ E).
    rewrite skipn_all2 by (apply nth_error_None in E; lia).
    destruct k; reflexivity.
Qed.

Lemma firstn_min_length {A : Type} (l : list A) (a b : nat) :
  firstn (Nat.min b (a + length l) - a) l = firstn (b - a) l.
Proof.
  destruct (Nat.le_ge_cases b (a + length l)) as [H|H].
  - rewrite Nat.min_l by exact H. reflexivity.
  - rewrite Nat.min_r by exact H.
    replace (a + length l - a)%nat with (length l) by lia.
    rewrite firstn_all. symmetry. apply firstn_all2. lia.
Qed.

Lemma cycle_column (data : list (GaitCycleDetector.GaitData N))
    (f : GaitCycleDetector.GaitData N -> N) (s e : nat) :
  GaitCycleDetector.collect data f (GaitCycleDetector.cycleFrames data s e)
  = map f (slice data s (e + 1)).
Proof.
  unfold GaitCycleDetector.cycleFrames, slice. rewrite collect_seq. f_equal.
  destruct (Nat.le_ge_cases s (length data)) as [H|H].
  - replace (length data) with (s + length (skipn s data))%nat
      by (rewrite length_skipn; lia).
    apply firstn_min_length.
  - rewrite skipn_all2 by exact H. rewrite !firstn_nil. reflexivity.
Qed.

Lemma createGaitCycle_arrays (data : list (GaitCycleDetector.GaitData N))
    (s e : GaitCycleDetector.GaitEvent N) (leg : GaitCycleDetector.Leg)
    (c : GaitCycleDetector.GaitCycle N) :
  GaitCycleDetector.createGaitCycle data s e leg = Some c ->
  GaitCycleDetector.hipAngles c
  = map (hipOf leg) (slice data (GaitCycleDetector.event_frame s)
                       (GaitCycleDetector.event_frame e + 1))
  /\ GaitCycleDetector.kneeAngles c
     = map (kneeOf leg) (slice data (GaitCycleDetector.event_frame s)
                           (GaitCycleDetector.event_frame e + 1))
  /\ GaitCycleDetector.ankleAngles c
     = map (ankleOf leg) (slice data (GaitCycleDetector.event_frame s)
                            (GaitCycleDetector.event_frame e + 1))
  /\ GaitCycleDetector.frames c
     = seq (GaitCycleDetector.event_frame s)
         (length (slice data (GaitCycleDetector.event_frame s)
                    (GaitCycleDetector.event_frame e + 1))).
Proof.
  unfold GaitCycleDetector.createGaitCycle.
  destruct (_ || _); [discriminate|]. intro H. injection H as <-.
  cbn [GaitCycleDetector.hipAngles GaitCycleDetector.kneeAngles
       GaitCycleDetector.ankleAngles GaitCycleDetector.frames].
  rewrite !cycle_column.
  split; [destruct leg; reflexivity|]. split; [destruct leg; reflexivity|].
  split; [destruct leg; reflexivity|].
  unfold GaitCycleDetector.cycleFrames, slice. f_equal.
  rewrite length_firstn, length_skipn. lia.
Qed.

(** X3.  Whatever events are paired up, every extracted cycle holds, for
    its own leg, the hip, knee and ankle values of the recorded frames from
    its start frame to its end frame inclusive, in order, and lists those
    frames; frames beyond the recording are left out. *)
Theorem extractGaitCycles_columns (data : list (GaitCycleDetector.GaitData N))
    (icEvents : list (GaitCycleDetector.GaitEvent N))
    (c : GaitCycleDetector.GaitCycle N) :
  In c (GaitCycleDetector.extractGaitCycles data icEvents) ->
  GaitCycleDetector.hipAngles c
  = map (hipOf (GaitCycleDetector.leg c))
      (slice data (GaitCycleDetector.startFrame c) (GaitCycleDetector.endFrame c + 1))
  /\ GaitCycleDetector.kneeAngles c
     = map (kneeOf (GaitCycleDetector.leg c))
         (slice data (GaitCycleDetector.startFrame c) (GaitCycleDetector.endFrame c + 1))
  /\ GaitCycleDetector.ankleAngles c
     = map (ankleOf (GaitCycleDetector.leg c))
         (slice data (GaitCycleDetector.startFrame c) (GaitCycleDetector.endFrame c + 1))
  /\ GaitCycleDetector.frames c
     = seq (GaitCycleDetector.startFrame c)
         (length (slice data (GaitCycleDetector.startFrame c)
                    (GaitCycleDetector.endFrame c + 1))).
Proof.
  intro H. apply extractGaitCycles_In in H.
  destruct H as (leg & s & e & _ & C).
  destruct (createGaitCycle_fields _ _ _ _ _ C) as (-> & -> & -> & _).
  exact (createGaitCycle_arrays data s e leg c C).
Qed.

(** Consecutive entries of a strictly ascending list ascend. *)
Lemma adjacent_sorted {A : Type} (R : A -> A -> Prop) (l : list A) (x y : A) :
  StronglySorted R l -> adjacent x y l -> R x y.
Proof.
  intros S (l1 & l2 & ->). induction l1 as [|z l1 IH].
  - cbn in S. inversion S as [|? ? _ H]; subst. inversion H; assumption.
  - apply IH. cbn in S. inversion S; assumption.
Qed.

Lemma adjacent_In {A : Type} (l : list A) (x y : A) :
  adjacent x y l -> In x l /\ In y l.
Proof.
  intros (l1 & l2 & ->). split; apply in_or_app; right; cbn; auto.
Qed.

(** The cycles of a recording's own touchdowns. *)
Lemma detected_cycle_frames (data : list (GaitCycleDetector.GaitData N))
    (c : GaitCycleDetector.GaitCycle N) :
  In c (GaitCycleDetector.extractGaitCycles data
          (GaitCycleDetector.detectInitialContacts data)) ->
  (1 <= GaitCycleDetector.startFrame c)%nat
  /\ (GaitCycleDetector.startFrame c < GaitCycleDetector.endFrame c)%nat
  /\ (GaitCycleDetector.endFrame c < length data)%nat.
Proof.
  intro H. apply extractGaitCycles_In in H.
  destruct H as (leg & s & e & A & C).
  destruct (createGaitCycle_fields _ _ _ _ _ C) as (_ & -> & -> & _).
  rewrite detectInitialContacts_unsorted in A.
  pose proof (adjacent_sorted _ _ s e
                (leg_events_ascending data leg 1 (length data - 1)) A) as Lt.
  cbv beta in Lt.
  destruct (adjacent_In _ _ _ A) as [Is Ie].
  apply filter_In in Is. apply filter_In in Ie.
  destruct Is as [Is _]. destruct Ie as [Ie _].
  apply in_flat_map in Is. destruct Is as (i & Hi & Is).
  apply in_flat_map in Ie. destruct Ie as (j & Hj & Ie).
  apply in_seq in Hi. apply in_seq in Hj.
  rewrite (contactEvents_frame _ _ _ Is) in *.
  rewrite (contactEvents_frame _ _ _ Ie) in *. lia.
Qed.

Lemma detected_cycle_length (data : list (GaitCycleDetector.GaitData N))
    (c : GaitCycleDetector.GaitCycle N) (f : GaitCycleDetector.GaitData N -> N) :
  In c (GaitCycleDetector.extractGaitCycles data
          (GaitCycleDetector.detectInitialContacts data)) ->
  length (map f (slice data (GaitCycleDetector.startFrame c)
                   (GaitCycleDetector.endFrame c + 1)))
  = (GaitCycleDetector.endFrame c - GaitCycleDetector.startFrame c + 1)%nat.
Proof.
  intro H. destruct (detected_cycle_frames data c H) as (H1 & H2 & H3).
  rewrite length_map, slice_length by lia. lia.
Qed.

(** X4.  Every cycle extracted from the touchdowns detected in the same
    recording starts at a frame [>= 1], ends at a later frame inside the
    recording, and holds one hip, knee and ankle sample for each of its
    [endFrame - startFrame + 1] frames: at least two, never none. *)
Theorem detected_cycles_complete (data : list (GaitCycleDetector.GaitData N))
    (c : GaitCycleDetector.GaitCycle N) :
  In c (GaitCycleDetector.extractGaitCycles data
          (GaitCycleDetector.detectInitialContacts data)) ->
  let n := (GaitCycleDetector.endFrame c - GaitCycleDetector.startFrame c + 1)%nat in
  (1 <= GaitCycleDetector.startFrame c)%nat
  /\ (GaitCycleDetector.startFrame c < GaitCycleDetector.endFrame c)%nat
  /\ (GaitCycleDetector.endFrame c < length data)%nat
  /\ (2 <= n)%nat
  /\ GaitCycleDetector.frames c = seq (GaitCycleDetector.startFrame c) n
  /\ length (GaitCycleDetector.hipAngles c) = n
  /\ length (GaitCycleDetector.kneeAngles c) = n
  /\ length (GaitCycleDetector.ankleAngles c) = n.
Proof.
  intros H n.
  destruct (detected_cycle_frames data c H) as (H1 & H2 & H3).
  pose proof H as H'. apply extractGaitCycles_In in H'.
  destruct H' as (leg & s & e & _ & C).
  destruct (createGaitCycle_arrays data s e leg c C) as (Eh & Ek & Ea & Ef).
  destruct (createGaitCycle_fields _ _ _ _ _ C) as (_ & Es & Ee & _).
  rewrite <- Es, <- Ee in Eh, Ek, Ea, Ef.
  assert (L : length (slice data (GaitCycleDetector.startFrame c)
                        (GaitCycleDetector.endFrame c + 1)) = n)
    by (rewrite slice_length by lia; unfold n; lia).
  rewrite Eh, Ek, Ea, Ef, !length_map, L. unfold n.
  repeat split; try lia.
Qed.

(** X5.  Through the whole chain detect, extract, normalize: every
    normalized hip, knee and ankle array has exactly [pointsCount]
    entries. *)
Theorem detected_cycles_normalized (data : list (GaitCycleDetector.GaitData N))
    (pointsCount : nat) (n : GaitCycleDetector.NormalizedCycle N) :
  In n (GaitCycleDetector.normalizeGaitCycles
          (GaitCycleDetector.extractGaitCycles data
             (GaitCycleDetector.detectInitialContacts data)) pointsCount) ->
  length (GaitCycleDetector.normalizedHip n) = pointsCount
  /\ length (GaitCycleDetector.normalizedKnee n) = pointsCount
  /\ length (GaitCycleDetector.normalizedAnkle n) = pointsCount.
Proof.
  unfold GaitCycleDetector.normalizeGaitCycles. rewrite in_map_iff.
  intros (c & <- & H).
  pose proof H as H'. apply extractGaitCycles_In in H'.
  destruct H' as (leg & s & e & _ & C).
  destruct (createGaitCycle_arrays data s e leg c C) as (Eh & Ek & Ea & _).
  destruct (createGaitCycle_fields _ _ _ _ _ C) as (_ & Es & Ee & _).
  rewrite <- Es, <- Ee in Eh, Ek, Ea.
  cbn [GaitCycleDetector.normalizedHip GaitCycleDetector.normalizedKnee
       GaitCycleDetector.normalizedAnkle].
  repeat split; apply resampleData_length; apply nonempty_length;
    [rewrite Eh|rewrite Ek|rewrite Ea];
    rewrite (detected_cycle_length data c _ H); lia.
Qed.

End CycleSlices.

(** ** The duration window of a cycle *)

Section DurationWindow.
Context {N : Type} {JSN : JSNumber N} {JSO : JSOrder N}.
Hypothesis number_08 : isNaN (dec 8 1 : N) = false.
Hypothesis number_15 : isNaN (dec 15 1 : N) = false.




End DurationWindow.



(** The recording [strides 300] holds a left cycle from frame 110 to
    frame 220. *)
Lemma strides_cycles :
  exists c : GaitCycleDetector.GaitCycle xnum,
    In c (GaitCycleDetector.extractGaitCycles (strides 300)
            (GaitCycleDetector.detectInitialContacts (strides 300)))
    /\ GaitCycleDetector.leg c = GaitCycleDetector.Left
    /\ GaitCycleDetector.startFrame c = 110%nat
    /\ GaitCycleDetector.endFrame c = 220%nat.
Proof.
  vm_compute. eexists. split; [left; reflexivity|]. repeat split.
Qed.

Lemma extractGaitCycles_columns_witness :
  exists c : GaitCycleDetector.GaitCycle xnum,
    In c (GaitCycleDetector.extractGaitCycles (strides 300)
            (GaitCycleDetector.detectInitialContacts (strides 300)))
    /\ GaitCycleDetector.hipAngles c
       = map (hipOf (GaitCycleDetector.leg c))
           (slice (strides 300) (GaitCycleDetector.startFrame c)
              (GaitCycleDetector.endFrame c + 1)).
Proof.
  destruct strides_cycles as (c & H & _). exists c. split; [exact H|].
  exact (proj1 (extractGaitCycles_columns (strides 300) _ c H)).
Defined.

Lemma detected_cycles_complete_witness :
  exists c : GaitCycleDetector.GaitCycle xnum,
    In c (GaitCycleDetector.extractGaitCycles (strides 300)
            (GaitCycleDetector.detectInitialContacts (strides 300)))
    /\ GaitCycleDetector.startFrame c = 110%nat
    /\ GaitCycleDetector.endFrame c = 220%nat
    /\ length (GaitCycleDetector.hipAngles c)
       = (GaitCycleDetector.endFrame c - GaitCycleDetector.startFrame c + 1)%nat.
Proof.
  destruct strides_cycles as (c & H & _ & Hs & He). exists c.
  split; [exact H|]. split; [exact Hs|]. split; [exact He|].
  exact (proj1 (proj2 (proj2 (proj2 (proj2 (proj2
           (detected_cycles_complete (strides 300) c H))))))).
Defined.

Lemma detected_cycles_normalized_witness :
  exists n : GaitCycleDetector.NormalizedCycle xnum,
    In n (GaitCycleDetector.normalizeGaitCycles
            (GaitCycleDetector.extractGaitCycles (strides 300)
               (GaitCycleDetector.detectInitialContacts (strides 300))) 101)
    /\ length (GaitCycleDetector.normalizedHip n) = 101%nat.
Proof.
  destruct strides_cycles as (c & H & _).
  eexists. split.
  - unfold GaitCycleDetector.normalizeGaitCycles. apply in_map. exact H.
  - refine (proj1 (detected_cycles_normalized (strides 300) 101 _ _)).
    unfold GaitCycleDetector.normalizeGaitCycles.
    exact (in_map _ _ c H).
Defined.


Section CycleLengths.
Context {N : Type} {JSN : JSNumber N}.

(** The normalized hip series of a cycle of a recording's own touchdowns
    has [p] entries. *)
Lemma detected_cycles_lengths (data : list (GaitCycleDetector.GaitData N))
    (p : nat) (c : GaitCycleDetector.GaitCycle N) :
  In c (GaitCycleDetector.extractGaitCycles data
          (GaitCycleDetector.detectInitialContacts data)) ->
  length (GaitCycleDetector.resampleData (GaitCycleDetector.hipAngles c) p) = p.
Proof.
  intro H. pose proof H as H'. apply extractGaitCycles_In in H'.
  destruct H' as (leg & s & e & _ & C).
  destruct (createGaitCycle_arrays data s e leg c C) as (Eh & _).
  destruct (createGaitCycle_fields _ _ _ _ _ C) as (_ & Es & Ee & _).
  rewrite <- Es, <- Ee in Eh.
  apply resampleData_length, nonempty_length. rewrite Eh.
  rewrite (detected_cycle_length data c _ H). lia.
Qed.

End CycleLengths.

(** ** Averaged cycles *)

Section AverageGeneric.
Context {N : Type} {JSN : JSNumber N}.

Lemma averageSeries_length (cycles : list (GaitCycleDetector.NormalizedCycle N))
    (f : GaitCycleDetector.NormalizedCycle N -> list N) (p : nat) :
  length (GaitCycleDetector.averageSeries cycles f p) = p.
Proof.
  unfold GaitCycleDetector.averageSeries. rewrite length_map.
  destruct cycles; [apply repeat_length|].
  rewrite length_map, length_seq. reflexivity.
Qed.

Lemma averageOf_series (cs : list (GaitCycleDetector.NormalizedCycle N))
    (leg : GaitCycleDetector.Leg) (j : Joint) :
  averageOf leg j (GaitCycleDetector.calculateAverageAngles cs)
  = GaitCycleDetector.averageSeries (cyclesOfLeg leg cs) (normalizedOf j)
      (GaitCycleDetector.averagePointsCount (cyclesOfLeg GaitCycleDetector.Left cs)).
Proof. destruct leg, j; reflexivity. Qed.

(** X6.  The six averaged series have one common length, fixed by the
    left leg alone: the number of hip entries of the first left cycle, or
    101 when there is no left cycle or that cycle has no hip entry.  The
    right cycles have no say in it.  A leg without cycles gets series of
    that length filled with the rounded 0. *)
Theorem calculateAverageAngles_lengths
    (cs : list (GaitCycleDetector.NormalizedCycle N))
    (leg : GaitCycleDetector.Leg) (j : Joint) :
  length (averageOf leg j (GaitCycleDetector.calculateAverageAngles cs))
  = match cyclesOfLeg GaitCycleDetector.Left cs with
    | [] => 101%nat
    | c :: _ =>
        if (length (GaitCycleDetector.normalizedHip c) =? 0)%nat then 101%nat
        else length (GaitCycleDetector.normalizedHip c)
    end
  /\ (cyclesOfLeg leg cs = [] ->
      averageOf leg j (GaitCycleDetector.calculateAverageAngles cs)
      = repeat (round1 (of_Z 0))
          (length (averageOf leg j (GaitCycleDetector.calculateAverageAngles cs)))).
Proof.
  rewrite averageOf_series, averageSeries_length. split.
  - unfold GaitCycleDetector.averagePointsCount.
    destruct (cyclesOfLeg GaitCycleDetector.Left cs) as [|c l]; [reflexivity|].
    destruct (length (GaitCycleDetector.normalizedHip c)); reflexivity.
  - intro H. rewrite H. unfold GaitCycleDetector.averageSeries.
    apply map_repeat.
Qed.

Lemma cyclesOfLeg_normalize (cycles : list (GaitCycleDetector.GaitCycle N))
    (p : nat) (leg : GaitCycleDetector.Leg) :
  cyclesOfLeg leg (GaitCycleDetector.normalizeGaitCycles cycles p)
  = GaitCycleDetector.normalizeGaitCycles
      (filter (fun c => GaitCycleDetector.leg_eqb (GaitCycleDetector.leg c) leg)
         cycles) p.
Proof.
  unfold cyclesOfLeg, GaitCycleDetector.normalizeGaitCycles.
  induction cycles as [|c l IH]; [reflexivity|].
  cbn [map filter GaitCycleDetector.normalized_leg].
  destruct (GaitCycleDetector.leg_eqb (GaitCycleDetector.leg c) leg);
    cbn [map]; rewrite IH; reflexivity.
Qed.

(** The length used for the averages of the cycles of a recording's own
    touchdowns. *)
Lemma detected_pointsCount (data : list (GaitCycleDetector.GaitData N)) (p : nat) :
  GaitCycleDetector.averagePointsCount
    (cyclesOfLeg GaitCycleDetector.Left
       (GaitCycleDetector.normalizeGaitCycles
          (GaitCycleDetector.extractGaitCycles data
             (GaitCycleDetector.detectInitialContacts data)) p))
  = match filter (fun c => GaitCycleDetector.leg_eqb (GaitCycleDetector.leg c)
                             GaitCycleDetector.Left)
            (GaitCycleDetector.extractGaitCycles data
               (GaitCycleDetector.detectInitialContacts data)) with
    | [] => 101%nat
    | _ :: _ => match p with O => 101%nat | _ => p end
    end.
Proof.
  rewrite cyclesOfLeg_normalize.
  destruct (filter _ _) as [|c l] eqn:E; [reflexivity|].
  assert (H : In c (GaitCycleDetector.extractGaitCycles data
                      (GaitCycleDetector.detectInitialContacts data))).
  { assert (H : In c (c :: l)) by (left; reflexivity).
    rewrite <- E in H. apply filter_In in H. apply H. }
  cbn [GaitCycleDetector.normalizeGaitCycles map
       GaitCycleDetector.averagePointsCount GaitCycleDetector.normalizedHip].
  pose proof (detected_cycles_lengths data p c H) as L.
  rewrite L. destruct p; reflexivity.
Qed.

(** X7.  End to end, as the charts call it: detect the touchdowns of a
    recording, extract and normalize the cycles to [p] points and average
    them.  With the default 101 points all six averaged series have 101
    entries whatever the recording holds; with another [p >= 1] they have
    [p] entries as soon as the recording holds a left cycle. *)
Theorem pipeline_average_lengths (data : list (GaitCycleDetector.GaitData N))
    (p : nat) (leg : GaitCycleDetector.Leg) (j : Joint) :
  p = 101%nat
  \/ ((1 <= p)%nat
      /\ exists c, In c (GaitCycleDetector.extractGaitCycles data
                          (GaitCycleDetector.detectInitialContacts data))
                   /\ GaitCycleDetector.leg c = GaitCycleDetector.Left) ->
  length (averageOf leg j
            (GaitCycleDetector.calculateAverageAngles
               (GaitCycleDetector.normalizeGaitCycles
                  (GaitCycleDetector.extractGaitCycles data
                     (GaitCycleDetector.detectInitialContacts data)) p)))
  = p.
Proof.
  intro H. rewrite averageOf_series, averageSeries_length, detected_pointsCount.
  destruct H as [->|(Hp & c & Hc & Hl)].
  - destruct (filter _ _); reflexivity.
  - destruct (filter _ _) as [|c' l] eqn:E.
    + exfalso.
      assert (F : In c []); [|destruct F].
      rewrite <- E. apply filter_In. split; [exact Hc|]. rewrite Hl. reflexivity.
    + destruct p; [lia|reflexivity].
Qed.

End AverageGeneric.

Lemma pipeline_average_lengths_witness :
  length (averageOf GaitCycleDetector.Right Knee
            (GaitCycleDetector.calculateAverageAngles
               (GaitCycleDetector.normalizeGaitCycles
                  (GaitCycleDetector.extractGaitCycles
                     (strides 300 : list (GaitCycleDetector.GaitData xnum))
                     (GaitCycleDetector.detectInitialContacts (strides 300))) 50)))
  = 50%nat.
Proof.
  apply pipeline_average_lengths. right. split; [lia|].
  destruct strides_cycles as (c & H & L & _). exists c. split; assumption.
Defined.

(** ** Averaged values past the end of a cycle *)

Lemma xadd_NaN_l (a : xnum) : xadd NaN a = NaN.
Proof. reflexivity. Qed.

Lemma xadd_NaN_r (a : xnum) : xadd a NaN = NaN.
Proof. destruct a; reflexivity. Qed.

Lemma fold_add_NaN {A : Type} (g : A -> xnum) (l : list A) :
  fold_left (fun s c => xadd s (g c)) l NaN = NaN.
Proof. induction l as [|c l IH]; [reflexivity|]. cbn [fold_left]. exact IH. Qed.

Lemma fold_add_absorbs {A : Type} (g : A -> xnum) (l : list A) (a : xnum) (c : A) :
  In c l -> g c = NaN -> fold_left (fun s c => xadd s (g c)) l a = NaN.
Proof.
  revert a. induction l as [|x l IH]; intros a H E; [destruct H|].
  cbn [fold_left]. destruct H as [->|H].
  - rewrite E, xadd_NaN_r. apply fold_add_NaN.
  - apply IH; assumption.
Qed.

Lemma get_map_seq (g : nat -> xnum) (p i : nat) :
  (i < p)%nat -> get (map g (seq 0 p)) i = g i.
Proof.
  intro H. unfold get. rewrite (nth_indep _ NaN (g 0%nat)) by (rewrite length_map, length_seq; exact H).
  rewrite map_nth. rewrite seq_nth by exact H. reflexivity.
Qed.

Lemma averageSeries_get (cycles : list (GaitCycleDetector.NormalizedCycle xnum))
    (f : GaitCycleDetector.NormalizedCycle xnum -> list xnum) (p i : nat) :
  cycles <> [] -> (i < p)%nat ->
  get (GaitCycleDetector.averageSeries cycles f p) i
  = round1 (GaitCycleDetector.averageAt cycles f i).
Proof.
  intros Hc Hi. unfold GaitCycleDetector.averageSeries.
  destruct cycles as [|c l]; [congruence|].
  rewrite map_map. apply (get_map_seq (fun x => round1 (GaitCycleDetector.averageAt (c :: l) f x))).
  exact Hi.
Qed.

(** X8.  When a leg has cycles and one of them is shorter than the
    averaged series, every averaged entry at or beyond that cycle's end is
    NaN: the missing sample is read as [undefined] and added to the sum. *)
Theorem average_past_cycle_end
    (cs : list (GaitCycleDetector.NormalizedCycle xnum))
    (leg : GaitCycleDetector.Leg) (j : Joint)
    (c : GaitCycleDetector.NormalizedCycle xnum) (i : nat) :
  In c cs -> GaitCycleDetector.normalized_leg c = leg ->
  (length (normalizedOf j c) <= i)%nat ->
  (i < length (averageOf leg j (GaitCycleDetector.calculateAverageAngles cs)))%nat ->
  get (averageOf leg j (GaitCycleDetector.calculateAverageAngles cs)) i = NaN.
Proof.
  intros Hc Hl Hlen Hi. rewrite averageOf_series in *.
  rewrite averageSeries_length in Hi.
  assert (Hin : In c (cyclesOfLeg leg cs)).
  { apply filter_In. split; [exact Hc|]. rewrite Hl. destruct leg; reflexivity. }
  rewrite averageSeries_get; [|intro E; rewrite E in Hin; destruct Hin|exact Hi].
  unfold GaitCycleDetector.averageAt.
  change add with xadd.
  rewrite (fold_add_absorbs (fun c => get (normalizedOf j c) i) _ _ c Hin).
  - reflexivity.
  - unfold get. apply nth_overflow. exact Hlen.
Qed.

(** Two right cycles of two samples each, no left cycle. *)
Lemma average_past_cycle_end_witness :
  get (averageOf GaitCycleDetector.Right Hip
         (GaitCycleDetector.calculateAverageAngles
            [GaitCycleDetector.mkNormalizedCycle GaitCycleDetector.Right
               [Fin 1; Fin 2] [Fin 3; Fin 4] [Fin 5; Fin 6]])) 2
  = NaN.
Proof.
  apply (average_past_cycle_end _ GaitCycleDetector.Right Hip
           (GaitCycleDetector.mkNormalizedCycle GaitCycleDetector.Right
              [Fin 1; Fin 2] [Fin 3; Fin 4] [Fin 5; Fin 6]) 2).
  - left. reflexivity.
  - reflexivity.
  - cbn. lia.
  - cbn. lia.
Defined.

(** ** Phase transitions *)



Lemma constrain_spec (prev p : Q) :
  exists q, GaitPhaseDetector.constrain (Fin prev) (Fin p) = Fin q
            /\ prev + 5 <= q /\ q <= prev + 40
            /\ (prev + 5 <= p -> p <= prev + 40 ->
                GaitPhaseDetector.constrain (Fin prev) (Fin p) = Fin p).
Proof.
  change (GaitPhaseDetector.constrain (Fin prev) (Fin p))
    with (let p1 := if Qltb (p + - prev) 5 then Fin (prev + 5) else Fin p in
          if xltb (Fin 40) (xsub p1 (Fin prev)) then Fin (prev + 40) else p1).
  destruct (Qltb (p + - prev) 5) eqn:E1; cbv zeta.
  - apply Qltb_lt in E1.
    change (xltb (Fin 40) (xsub (Fin (prev + 5)) (Fin prev)))
      with (Qltb 40 (prev + 5 + - prev)).
    destruct (Qltb 40 (prev + 5 + - prev)) eqn:E2.
    + apply Qltb_lt in E2. lra.
    + exists (prev + 5). split; [reflexivity|]. repeat split; try lra.
  - apply Qltb_ge in E1.
    change (xltb (Fin 40) (xsub (Fin p) (Fin prev))) with (Qltb 40 (p + - prev)).
    destruct (Qltb 40 (p + - prev)) eqn:E2.
    + apply Qltb_lt in E2. exists (prev + 40). split; [reflexivity|].
      repeat split; try lra.
    + apply Qltb_ge in E2. exists p. split; [reflexivity|]. repeat split; lra.
Qed.


Lemma constrainFrom_fixed (prev : Q)
    (l : list (GaitPhaseDetector.GaitPhaseTransition xnum)) :
  spaced prev l -> GaitPhaseDetector.constrainFrom (Fin prev) l = l.
Proof.
  revert prev. induction l as [|t l IH]; intros prev S; [reflexivity|].
  destruct S as (q & Eq & B1 & B2 & S).
  cbn [GaitPhaseDetector.constrainFrom]. rewrite Eq.
  destruct (constrain_spec prev q) as (_ & _ & _ & _ & Fix).
  rewrite (Fix B1 B2), (IH q S). destruct t as [ph pc fr de]. cbn in *.
  rewrite Eq. reflexivity.
Qed.

(** Percents of a spaced run lie beyond [prev]. *)
Lemma spaced_beyond (prev : Q)
    (l : list (GaitPhaseDetector.GaitPhaseTransition xnum)) :
  spaced prev l ->
  Forall (fun t => exists q, GaitPhaseDetector.percent t = Fin q /\ prev + 5 <= q) l.
Proof.
  revert prev. induction l as [|t l IH]; intros prev S; [constructor|].
  destruct S as (q & Eq & B1 & B2 & S). constructor.
  - exists q. split; assumption.
  - apply IH in S. eapply Forall_impl; [|exact S].
    intros a (r & Er & Br). exists r. split; [exact Er|lra].
Qed.

Lemma sortByPercent_spaced (l : list (GaitPhaseDetector.GaitPhaseTransition xnum)) :
  well_spaced l -> GaitPhaseDetector.sortByPercent l = l.
Proof.
  induction l as [|t l IH]; [reflexivity|].
  intros (q & Eq & S).
  cbn [GaitPhaseDetector.sortByPercent fold_right].
  change (fold_right GaitPhaseDetector.insertByPercent [] l)
    with (GaitPhaseDetector.sortByPercent l).
  destruct l as [|y l]; [reflexivity|].
  rewrite IH.
  - cbn [GaitPhaseDetector.insertByPercent].
    destruct S as (r & Er & B1 & _). rewrite Eq, Er.
    change (leb (Fin q) (Fin r)) with (Qle_bool q r).
    replace (Qle_bool q r) with true; [reflexivity|].
    symmetry. apply Qle_bool_iff. lra.
  - destruct S as (r & Er & _ & _ & S). exists r. split; assumption.
Qed.

Lemma validateTransitions_fixed
    (l : list (GaitPhaseDetector.GaitPhaseTransition xnum)) :
  well_spaced l -> GaitPhaseDetector.validateTransitions l = l.
Proof.
  intro W. unfold GaitPhaseDetector.validateTransitions.
  rewrite (sortByPercent_spaced l W).
  destruct l as [|t l]; [reflexivity|].
  destruct W as (q & Eq & S). rewrite Eq, (constrainFrom_fixed q l S). reflexivity.
Qed.


Section PlacementGeneric.
Context {N : Type} {JSN : JSNumber N}.






End PlacementGeneric.




Lemma standard_transitions_spaced (n : nat) :
  well_spaced
    (GaitPhaseDetector.transitionsOf n (@GaitPhaseDetector.STANDARD_PHASES xnum _)).
Proof.
  cbn [GaitPhaseDetector.transitionsOf GaitPhaseDetector.STANDARD_PHASES
       well_spaced spaced GaitPhaseDetector.percent GaitPhaseDetector.endPercent].
  repeat (eexists; split; [reflexivity|]; try (split; [discriminate|split; [discriminate|]])).
  exact I.
Qed.

(** X12.  The transitions of [detectPhaseTransitions] pass validation
    unchanged, whatever the cycle: in exact arithmetic for every input,
    in binary64 for every cycle length. *)
Theorem validateTransitions_standard :
  (forall (hip knee ankle : list xnum) (footContact : list bool),
     GaitPhaseDetector.validateTransitions
       (GaitPhaseDetector.detectPhaseTransitions hip knee ankle footContact)
     = GaitPhaseDetector.detectPhaseTransitions hip knee ankle footContact)
  /\ (forall (hip knee ankle : list float) (footContact : list bool),
     GaitPhaseDetector.validateTransitions
       (GaitPhaseDetector.detectPhaseTransitions hip knee ankle footContact)
     = GaitPhaseDetector.detectPhaseTransitions hip knee ankle footContact).
Proof.
  split; intros hip knee ankle footContact.
  - apply validateTransitions_fixed, standard_transitions_spaced.
  - unfold GaitPhaseDetector.detectPhaseTransitions.
    generalize (length hip) as n. intro n.
    cbn [GaitPhaseDetector.transitionsOf GaitPhaseDetector.STANDARD_PHASES
         GaitPhaseDetector.endPercent GaitPhaseDetector.abbreviation].
    repeat match goal with
           | |- context [round ?x] => generalize (round x); intro
           end.
    vm_compute. reflexivity.
Qed.

Section TransitionsGeneric.
Context {N : Type} {JSN : JSNumber N}.

Lemma transitionsOf_shape (n : nat) (phases : list (GaitPhaseDetector.GaitPhase N)) :
  map (fun t => (GaitPhaseDetector.phase t, GaitPhaseDetector.percent t,
                 GaitPhaseDetector.detected t))
    (GaitPhaseDetector.transitionsOf n phases)
  = map (fun pq => (GaitPhaseDetector.abbreviation (snd pq),
                    GaitPhaseDetector.endPercent (fst pq), true))
      (combine phases (tl phases)).
Proof.
  induction phases as [|p [|q rest] IH]; [reflexivity|reflexivity|].
  cbn [GaitPhaseDetector.transitionsOf]. cbn [map tl combine fst snd].
  cbn [GaitPhaseDetector.phase GaitPhaseDetector.percent GaitPhaseDetector.detected].
  f_equal. exact IH.
Qed.

End TransitionsGeneric.

(** X13.  Whatever the four inputs hold, seven transitions are reported,
    all marked detected, and their phases and percents are those of the
    seven markers of [generatePhaseMarkers]: only the number of hip
    samples is ever read, and only for the frames. *)
Theorem detectPhaseTransitions_markers :
  (forall (hip knee ankle : list xnum) (footContact : list bool),
     map (fun t => (GaitPhaseDetector.phase t, GaitPhaseDetector.percent t,
                    GaitPhaseDetector.detected t))
       (GaitPhaseDetector.detectPhaseTransitions hip knee ankle footContact)
     = map (fun m => (GaitPhaseDetector.marker_phase m,
                      GaitPhaseDetector.marker_percent m, true))
         GaitPhaseDetector.generatePhaseMarkers)
  /\ (forall (hip knee ankle : list float) (footContact : list bool),
     map (fun t => (GaitPhaseDetector.phase t, GaitPhaseDetector.percent t,
                    GaitPhaseDetector.detected t))
       (GaitPhaseDetector.detectPhaseTransitions hip knee ankle footContact)
     = map (fun m => (GaitPhaseDetector.marker_phase m,
                      GaitPhaseDetector.marker_percent m, true))
         GaitPhaseDetector.generatePhaseMarkers)
  /\ length (@GaitPhaseDetector.generatePhaseMarkers xnum _) = 7%nat
  /\ length (@GaitPhaseDetector.generatePhaseMarkers float _) = 7%nat.
Proof.
  split; [|split; [|split; reflexivity]];
    intros hip knee ankle footContact;
    unfold GaitPhaseDetector.detectPhaseTransitions;
    rewrite transitionsOf_shape; reflexivity.
Qed.

Lemma transition_frame (p : Z) (n : nat) :
  round (mul (div (of_Z p) (of_Z 100)) (sub (of_nat n) (of_Z 1)))
  = Fin (inject_Z (Qfloor (inject_Z p / 100 * (inject_Z (Z.of_nat n) + - 1) + (1 # 2)))).
Proof. reflexivity. Qed.

Lemma to_index_int (z : Z) :
  (0 <= z)%Z -> to_index (Fin (inject_Z z)) = Some (Z.to_nat z).
Proof.
  intro H. change (to_index (Fin (inject_Z z))) with (xto_index (Fin (inject_Z z))).
  unfold xto_index. rewrite Qfloor_Z, Qeq_bool_refl.
  replace (0 <=? z)%Z with true by (symmetry; apply Z.leb_le; exact H).
  reflexivity.
Qed.

Lemma transition_frame_index (p : Z) (n : nat) :
  (0 <= p <= 100)%Z -> (1 <= n)%nat ->
  index_below
    (Fin (inject_Z (Qfloor (inject_Z p / 100 * (inject_Z (Z.of_nat n) + - 1) + (1 # 2)))))
    n.
Proof.
  intros Hp Hn.
  set (m := inject_Z (Z.of_nat n) + - 1).
  assert (Hm : 0 <= m).
  { unfold m. assert (inject_Z 1 <= inject_Z (Z.of_nat n)) by (rewrite <- Zle_Qle; lia).
    change (inject_Z 1) with 1 in *. lra. }
  assert (P0 : 0 <= inject_Z p / 100).
  { apply Qle_shift_div_l; [reflexivity|]. rewrite Qmult_0_l.
    change 0 with (inject_Z 0). rewrite <- Zle_Qle. lia. }
  assert (P1 : inject_Z p / 100 <= 1).
  { apply Qle_shift_div_r; [reflexivity|]. rewrite Qmult_1_l.
    change 100 with (inject_Z 100). rewrite <- Zle_Qle. lia. }
  set (f := inject_Z p / 100) in *.
  assert (X0 : 0 <= f * m) by (apply Qmult_le_0_compat; assumption).
  assert (X1 : f * m <= m).
  { rewrite <- (Qmult_1_l m) at 2. apply Qmult_le_compat_r; assumption. }
  set (z := Qfloor (f * m + (1 # 2))).
  assert (Z0 : (0 <= z)%Z).
  { change 0%Z with (Qfloor 0). apply Qfloor_resp_le. lra. }
  assert (Z1 : (z < Z.of_nat n)%Z).
  { assert (M1 : m + (1 # 2) < inject_Z (Z.of_nat n)) by (unfold m; lra).
    rewrite Zlt_Qlt. eapply Qle_lt_trans; [apply Qfloor_le|]. lra. }
  exists (Z.to_nat z). split; [apply to_index_int; exact Z0|]. lia.
Qed.

Lemma transition_frame_mono (p q : Z) (n : nat) :
  (0 <= p <= q)%Z -> (1 <= n)%nat ->
  xle (Fin (inject_Z (Qfloor (inject_Z p / 100 * (inject_Z (Z.of_nat n) + - 1) + (1 # 2)))))
      (Fin (inject_Z (Qfloor (inject_Z q / 100 * (inject_Z (Z.of_nat n) + - 1) + (1 # 2))))).
Proof.
  intros Hp Hn. unfold xle. cbn [xleb]. apply Qle_bool_iff.
  rewrite <- Zle_Qle. apply Qfloor_resp_le.
  set (m := inject_Z (Z.of_nat n) + - 1).
  assert (Hm : 0 <= m).
  { unfold m. assert (inject_Z 1 <= inject_Z (Z.of_nat n)) by (rewrite <- Zle_Qle; lia).
    change (inject_Z 1) with 1 in *. lra. }
  assert (inject_Z p / 100 <= inject_Z q / 100).
  { apply Qmult_le_compat_r; [|discriminate]. rewrite <- Zle_Qle. lia. }
  assert (inject_Z p / 100 * m <= inject_Z q / 100 * m)
    by (apply Qmult_le_compat_r; assumption).
  lra.
Qed.

(** With at least one hip sample every reported frame is a valid index
    into the cycle, and the frames never step back. *)
Lemma transition_frames_nonempty
    (hip knee ankle : list xnum) (footContact : list bool) :
  hip <> [] ->
  Forall (fun t => index_below (GaitPhaseDetector.frame t) (length hip))
    (GaitPhaseDetector.detectPhaseTransitions hip knee ankle footContact)
  /\ StronglySorted
       (fun a b => xle (GaitPhaseDetector.frame a) (GaitPhaseDetector.frame b))
       (GaitPhaseDetector.detectPhaseTransitions hip knee ankle footContact).
Proof.
  intro H.
  assert (Hn : (1 <= length hip)%nat) by (destruct hip; [congruence|cbn; lia]).
  unfold GaitPhaseDetector.detectPhaseTransitions.
  cbn [GaitPhaseDetector.transitionsOf GaitPhaseDetector.STANDARD_PHASES
       GaitPhaseDetector.endPercent GaitPhaseDetector.abbreviation].
  rewrite !transition_frame. split.
  - repeat constructor; cbn [GaitPhaseDetector.frame];
      apply transition_frame_index; try exact Hn; lia.
  - repeat constructor; cbn [GaitPhaseDetector.frame];
      apply transition_frame_mono; try exact Hn; lia.
Qed.

(** X14.  The reported frames are valid indices into the cycle exactly
    when the cycle has a hip sample.  With one, every frame indexes the
    cycle and the frames never step back from one transition to the
    next; without, the last three transitions carry the frame -1, in
    exact arithmetic and in binary64, and the knee, ankle and contact
    inputs do not matter. *)
Theorem detectPhaseTransitions_frames :
  (forall (hip knee ankle : list xnum) (footContact : list bool),
     (Forall (fun t => index_below (GaitPhaseDetector.frame t) (length hip))
        (GaitPhaseDetector.detectPhaseTransitions hip knee ankle footContact)
      <-> hip <> [])
     /\ (hip <> [] ->
         StronglySorted
           (fun a b => xle (GaitPhaseDetector.frame a) (GaitPhaseDetector.frame b))
           (GaitPhaseDetector.detectPhaseTransitions hip knee ankle footContact)))
  /\ (forall (knee ankle : list xnum) (footContact : list bool),
     map (fun t => eqb (GaitPhaseDetector.frame t) (of_Z (-1)))
       (GaitPhaseDetector.detectPhaseTransitions [] knee ankle footContact)
     = [false; false; false; false; true; true; true])
  /\ (forall (knee ankle : list float) (footContact : list bool),
     map (fun t => eqb (GaitPhaseDetector.frame t) (of_Z (-1)))
       (GaitPhaseDetector.detectPhaseTransitions [] knee ankle footContact)
     = [false; false; false; false; true; true; true])
  /\ (forall n, ~ index_below (@of_Z xnum _ (-1)) n)
  /\ (forall n, ~ index_below (@of_Z float _ (-1)) n).
Proof.
  split; [|split; [|split; [|split]]].
  - intros hip knee ankle footContact. split; [split|].
    + intros F E. subst hip. apply Forall_inv in F.
      destruct F as (i & _ & F). cbn in F. lia.
    + intro H. apply (transition_frames_nonempty hip knee ankle footContact H).
    + intro H. apply (transition_frames_nonempty hip knee ankle footContact H).
  - intros. vm_compute. reflexivity.
  - intros. vm_compute. reflexivity.
  - intros n (i & H & _). vm_compute in H. discriminate.
  - intros n (i & H & _). vm_compute in H. discriminate.
Qed.

(** Every label of [generatePhaseLabels] sits inside its own phase:
    the lookup at its position answers the label's phase.  Every marker of
    [generatePhaseMarkers] sits on the boundary in front of its phase,
    where the lookup answers the phase before; the stance-swing boundary
    is the marker of ISw. *)
Lemma labels_and_markers_lookup :
  Forall (fun l => phaseNameAt (GaitPhaseDetector.label_position l)
                   = Some (GaitPhaseDetector.label_label l))
    (@GaitPhaseDetector.generatePhaseLabels xnum _)
  /\ Forall (fun l => phaseNameAt (GaitPhaseDetector.label_position l)
                      = Some (GaitPhaseDetector.label_label l))
       (@GaitPhaseDetector.generatePhaseLabels float _)
  /\ map (fun m => (GaitPhaseDetector.marker_phase m,
                    phaseNameAt (GaitPhaseDetector.marker_percent m)))
       (@GaitPhaseDetector.generatePhaseMarkers xnum _)
     = [("LR", Some "IC"); ("MSt", Some "LR"); ("TSt", Some "MSt");
        ("PSw", Some "TSt"); ("ISw", Some "PSw"); ("MSw", Some "ISw");
        ("TSw", Some "MSw")]%string
  /\ map (fun m => (GaitPhaseDetector.marker_phase m,
                    phaseNameAt (GaitPhaseDetector.marker_percent m)))
       (@GaitPhaseDetector.generatePhaseMarkers float _)
     = [("LR", Some "IC"); ("MSt", Some "LR"); ("TSt", Some "MSt");
        ("PSw", Some "TSt"); ("ISw", Some "PSw"); ("MSw", Some "ISw");
        ("TSw", Some "MSw")]%string
  /\ find (fun m => String.eqb (GaitPhaseDetector.marker_phase m) "ISw")
       (@GaitPhaseDetector.generatePhaseMarkers xnum _)
     = Some (GaitPhaseDetector.mkPhaseMarker
               GaitPhaseDetector.getStanceSwingBoundary "ISw" "#3b82f6" "ISw")
  /\ find (fun m => String.eqb (GaitPhaseDetector.marker_phase m) "ISw")
       (@GaitPhaseDetector.generatePhaseMarkers float _)
     = Some (GaitPhaseDetector.mkPhaseMarker
               GaitPhaseDetector.getStanceSwingBoundary "ISw" "#3b82f6" "ISw").
Proof.
  repeat split; try (vm_compute; reflexivity);
    vm_compute; repeat constructor.
Qed.

(** ** CSV rows and recommendations of the generic calculator *)

Lemma map_fst_combine_seq {A : Type} (l : list A) (a : nat) :
  map fst (combine (seq a (length l)) l) = seq a (length l).
Proof.
  revert a. induction l as [|x l IH]; intro a; [reflexivity|].
  cbn [length seq combine map fst]. rewrite IH. reflexivity.
Qed.

Lemma map_snd_combine_seq {A : Type} (l : list A) (a : nat) :
  map snd (combine (seq a (length l)) l) = l.
Proof.
  revert a. induction l as [|x l IH]; intro a; [reflexivity|].
  cbn [length seq combine map snd]. rewrite IH. reflexivity.
Qed.

Section CSVGeneric.
Context {N : Type} {JSN : JSNumber N}.

(** The CSV export has one row per time point, numbered from 0 in
    order and carrying that time rounded to two decimals, however many
    angles there are on either side. *)
Lemma generateROMCSVData_rows (leftAngles rightAngles timePoints : list N) :
  length (ROMCalculator.generateROMCSVData leftAngles rightAngles timePoints)
  = length timePoints
  /\ map ROMCalculator.row_frame
       (ROMCalculator.generateROMCSVData leftAngles rightAngles timePoints)
     = seq 0 (length timePoints)
  /\ map ROMCalculator.row_time
       (ROMCalculator.generateROMCSVData leftAngles rightAngles timePoints)
     = map round2 timePoints.
Proof.
  unfold ROMCalculator.generateROMCSVData. cbv zeta.
  rewrite length_map, length_combine, length_seq.
  split; [apply Nat.min_id|]. rewrite !map_map.
  cbn [ROMCalculator.row_frame ROMCalculator.row_time]. split.
  - apply map_fst_combine_seq.
  - etransitivity; [|apply f_equal, (map_snd_combine_seq timePoints 0)].
    rewrite map_map. reflexivity.
Qed.

End CSVGeneric.

Section CSVColumns.
Context {N : Type} {JSN : JSNumber N} {JSO : JSOrder N}.

Lemma or_else_missing (d : N) : or_else (nan : N) d = d.
Proof.
  unfold or_else, truthy. rewrite js_isNaN_nan, andb_false_r. reflexivity.
Qed.

Lemma flexion_or_extension (a z : N) :
  (if gtb a z then sub a z else of_Z 0) = of_Z 0
  \/ (if ltb a z then sub z a else of_Z 0) = of_Z 0.
Proof.
  unfold gtb. destruct (ltb z a) eqn:E; [|left; reflexivity].
  right. rewrite (ltb_asym z a E). reflexivity.
Qed.

(** X15.  In every model of the numbers that satisfies the order laws
    (exact arithmetic and binary64 among them), the CSV export has one row
    per time point, numbered from 0 in order and carrying that time
    rounded to two decimals, however many angles either leg has; in every
    row at most one of flexion and extension of a leg differs from 0; a
    row beyond the end of an angle series reads the angle 0; and a leg
    whose total ROM is not above 0 gets the ROM column 0, nothing being
    divided. *)
Theorem generateROMCSVData_columns (leftAngles rightAngles timePoints : list N) :
  let rows := ROMCalculator.generateROMCSVData leftAngles rightAngles timePoints in
  length rows = length timePoints
  /\ map ROMCalculator.row_frame rows = seq 0 (length timePoints)
  /\ map ROMCalculator.row_time rows = map round2 timePoints
  /\ Forall one_sided rows
  /\ Forall (fun r =>
       ((length leftAngles <= ROMCalculator.row_frame r)%nat ->
        ROMCalculator.leftAngle r = round1 (of_Z 0))
       /\ ((length rightAngles <= ROMCalculator.row_frame r)%nat ->
           ROMCalculator.rightAngle r = round1 (of_Z 0))) rows
  /\ (gtb (ROMCalculator.totalROM (ROMCalculator.calculateLegROM leftAngles))
          (of_Z 0) = false ->
      Forall (fun r => ROMCalculator.leftROM r = round1 (of_Z 0)) rows)
  /\ (gtb (ROMCalculator.totalROM (ROMCalculator.calculateLegROM rightAngles))
          (of_Z 0) = false ->
      Forall (fun r => ROMCalculator.rightROM r = round1 (of_Z 0)) rows).
Proof.
  intro rows.
  destruct (generateROMCSVData_rows leftAngles rightAngles timePoints)
    as (L & Fr & Ti).
  split; [exact L|]. split; [exact Fr|]. split; [exact Ti|].
  unfold rows, ROMCalculator.generateROMCSVData. cbv zeta.
  split; [|split; [|split]].
  - apply Forall_map, Forall_forall. intros [i time] _. unfold one_sided.
    cbn [ROMCalculator.leftFlexion ROMCalculator.leftExtension
         ROMCalculator.rightFlexion ROMCalculator.rightExtension fst snd].
    split; apply flexion_or_extension.
  - apply Forall_map, Forall_forall. intros [i time] _.
    cbn [ROMCalculator.row_frame ROMCalculator.leftAngle ROMCalculator.rightAngle
         fst snd].
    split; intro H; unfold get; rewrite nth_overflow by exact H;
      rewrite or_else_missing; reflexivity.
  - intro H. apply Forall_map, Forall_forall. intros [i time] _.
    cbn [ROMCalculator.leftROM fst snd]. unfold ROMCalculator.currentROM.
    rewrite H. reflexivity.
  - intro H. apply Forall_map, Forall_forall. intros [i time] _.
    cbn [ROMCalculator.rightROM fst snd]. unfold ROMCalculator.currentROM.
    rewrite H. reflexivity.
Qed.

End CSVColumns.

Lemma generateROMCSVData_columns_witness :
  map ROMCalculator.row_frame
    (ROMCalculator.generateROMCSVData (scenario1 : list float) []
       (map of_nat (seq 0 110)))
  = seq 0 110
  /\ Forall one_sided
       (ROMCalculator.generateROMCSVData (scenario1 : list float) []
          (map of_nat (seq 0 110))).
Proof.
  pose proof (generateROMCSVData_columns (scenario1 : list float) []
                (map of_nat (seq 0 110))) as H.
  cbv zeta in H. destruct H as (_ & F & _ & O & _).
  split; [exact F|exact O].
Defined.

Lemma round1_gt (u : Q) (k : Z) :
  gtb (round1 (Fin u)) (of_Z k) = true -> inject_Z k < u.
Proof.
  rewrite round1_fin. unfold gtb.
  change (ltb (of_Z k) (Fin (inject_Z (Qfloor (u * inject_Z 10 + (1 # 2))) / inject_Z 10)))
    with (Qltb (inject_Z k) (inject_Z (Qfloor (u * inject_Z 10 + (1 # 2))) / inject_Z 10)).
  intro H. apply Qltb_lt in H.
  set (z := Qfloor (u * inject_Z 10 + (1 # 2))) in *.
  assert (H1 : inject_Z k * inject_Z 10 < inject_Z z).
  { apply (Qmult_lt_r _ _ (inject_Z 10)) in H; [|reflexivity].
    unfold Qdiv in H. rewrite <- Qmult_assoc in H.
    rewrite (Qmult_comm (/ inject_Z 10)), Qmult_inv_r, Qmult_1_r in H by discriminate.
    exact H. }
  rewrite <- inject_Z_mult, <- Zlt_Qlt in H1.
  assert (H2 : (k * 10 + 1 <= z)%Z) by lia.
  rewrite Zle_Qle, inject_Z_plus, inject_Z_mult in H2.
  pose proof (Qfloor_le (u * inject_Z 10 + (1 # 2))) as H3. fold z in H3.
  change (inject_Z 10) with 10 in *. change (inject_Z 1) with 1 in *. lra.
Qed.

(** X16.  For an analysis with finite average ROM and asymmetry, no
    recommendation is made exactly when the average ROM lies in [20, 50],
    the asymmetry is at most 5 and the data quality is not poor; at most
    three recommendations are ever made. *)
Theorem generateRecommendations_none (an : ROMCalculator.ROMAnalysis xnum) (a s : Q) :
  ROMCalculator.averageROM an = Fin a -> ROMCalculator.asymmetry an = Fin s ->
  (ROMCalculator.generateRecommendations an = [] <->
   20 <= a /\ a <= 50 /\ s <= 5
   /\ ROMCalculator.dataQuality an <> ROMCalculator.poor)
  /\ (length (ROMCalculator.generateRecommendations an) <= 3)%nat.
Proof.
  intros Ea Es. unfold ROMCalculator.generateRecommendations, gtb. rewrite Ea, Es.
  change (ltb (Fin a) (of_Z 20)) with (Qltb a 20).
  change (ltb (of_Z 50) (Fin a)) with (Qltb 50 a).
  change (ltb (of_Z 10) (Fin s)) with (Qltb 10 s).
  change (ltb (of_Z 5) (Fin s)) with (Qltb 5 s).
  destruct (Qltb a 20) eqn:A1; [apply Qltb_lt in A1|apply Qltb_ge in A1];
  (destruct (Qltb 50 a) eqn:A2; [apply Qltb_lt in A2|apply Qltb_ge in A2]);
  (destruct (Qltb 10 s) eqn:S1; [apply Qltb_lt in S1|apply Qltb_ge in S1]);
  (destruct (Qltb 5 s) eqn:S2; [apply Qltb_lt in S2|apply Qltb_ge in S2]);
  destruct (ROMCalculator.dataQuality an); cbn [app length];
  (split; [split; [try discriminate; intros _; repeat split; try lra; discriminate
                  |intros (B1 & B2 & B3 & B4); try lra; try congruence]
          |lia]).
Qed.

Lemma generateRecommendations_none_witness :
  ROMCalculator.generateRecommendations
    (ROMCalculator.mkROMAnalysis
       (ROMCalculator.calculateLegROM scenario1) (ROMCalculator.calculateLegROM scenario1)
       (Fin 0) (Fin 30) ROMCalculator.good) = []
  <-> 20 <= 30 /\ 30 <= 50 /\ 0 <= 5 /\ ROMCalculator.good <> ROMCalculator.poor.
Proof.
  exact (proj1 (generateRecommendations_none
                  (ROMCalculator.mkROMAnalysis
                     (ROMCalculator.calculateLegROM scenario1)
                     (ROMCalculator.calculateLegROM scenario1)
                     (Fin 0) (Fin 30) ROMCalculator.good) 30 0 eq_refl eq_refl)).
Defined.

Lemma In_recommendations (an : ROMCalculator.ROMAnalysis xnum) :
  (In significant_asymmetry (ROMCalculator.generateRecommendations an)
   <-> gtb (ROMCalculator.asymmetry an) (of_Z 10) = true)
  /\ (In moderate_asymmetry (ROMCalculator.generateRecommendations an)
      <-> gtb (ROMCalculator.asymmetry an) (of_Z 10) = false
          /\ gtb (ROMCalculator.asymmetry an) (of_Z 5) = true)
  /\ (In poor_quality (ROMCalculator.generateRecommendations an)
      <-> ROMCalculator.dataQuality an = ROMCalculator.poor).
Proof.
  unfold ROMCalculator.generateRecommendations.
  destruct (ltb (ROMCalculator.averageROM an) (of_Z 20)),
           (gtb (ROMCalculator.averageROM an) (of_Z 50)),
           (gtb (ROMCalculator.asymmetry an) (of_Z 10)),
           (gtb (ROMCalculator.asymmetry an) (of_Z 5)),
           (ROMCalculator.dataQuality an);
    cbn [app In]; unfold significant_asymmetry, moderate_asymmetry, poor_quality;
    repeat split; try tauto;
    intros; repeat match goal with
                   | H : _ \/ _ |- _ => destruct H
                   | H : _ /\ _ |- _ => destruct H
                   | H : False |- _ => destruct H
                   end; try discriminate; auto.
Qed.

(** X17.  In the summary of two finite series the recommendations agree
    with the data quality: a significant-asymmetry message comes only with
    quality fair or poor, quality excellent comes with no asymmetry
    message at all, and the poor-quality message comes exactly with
    quality poor. *)
Theorem generateROMSummary_consistent (leftAngles rightAngles : list xnum) :
  Forall finite leftAngles -> Forall finite rightAngles ->
  let s := ROMCalculator.generateROMSummary leftAngles rightAngles in
  let q := ROMCalculator.dataQuality (ROMCalculator.summary_analysis s) in
  (In significant_asymmetry (ROMCalculator.recommendations s) ->
   q = ROMCalculator.fair \/ q = ROMCalculator.poor)
  /\ (q = ROMCalculator.excellent ->
      ~ In significant_asymmetry (ROMCalculator.recommendations s)
      /\ ~ In moderate_asymmetry (ROMCalculator.recommendations s))
  /\ (In poor_quality (ROMCalculator.recommendations s) <-> q = ROMCalculator.poor).
Proof.
  intros FL FR s q. subst q s. unfold ROMCalculator.generateROMSummary.
  cbn [ROMCalculator.recommendations ROMCalculator.summary_analysis].
  destruct (In_recommendations
              (ROMCalculator.calculateBilateralROM leftAngles rightAngles))
    as (Sig & Mod & Poor).
  split; [|split; [|exact Poor]].
  - rewrite Sig. unfold ROMCalculator.calculateBilateralROM.
    destruct (calculateLegROM_finite_nonneg leftAngles FL) as [(_ & _ & _ & TL & _) _].
    destruct (calculateLegROM_finite_nonneg rightAngles FR) as [(_ & _ & _ & TR & _) _].
    destruct (finite_inv _ TL) as [tl ->]. destruct (finite_inv _ TR) as [tr ->].
    cbn [ROMCalculator.asymmetry ROMCalculator.dataQuality].
    change (abs (sub (Fin tl) (Fin tr))) with (Fin (Qabs (tl + - tr))).
    intro H. apply round1_gt in H.
    change (ltb (Fin (Qabs (tl + - tr))) (of_Z 5)) with (Qltb (Qabs (tl + - tr)) 5).
    change (ltb (Fin (Qabs (tl + - tr))) (of_Z 10)) with (Qltb (Qabs (tl + - tr)) 10).
    change (inject_Z 10) with 10 in H.
    replace (Qltb (Qabs (tl + - tr)) 5) with false by (symmetry; apply Qltb_ge; lra).
    replace (Qltb (Qabs (tl + - tr)) 10) with false by (symmetry; apply Qltb_ge; lra).
    rewrite !andb_false_r. destruct (_ && _); [left|right]; reflexivity.
  - rewrite Sig, Mod. unfold ROMCalculator.calculateBilateralROM.
    destruct (calculateLegROM_finite_nonneg leftAngles FL) as [(_ & _ & _ & TL & _) _].
    destruct (calculateLegROM_finite_nonneg rightAngles FR) as [(_ & _ & _ & TR & _) _].
    destruct (finite_inv _ TL) as [tl ->]. destruct (finite_inv _ TR) as [tr ->].
    cbn [ROMCalculator.asymmetry ROMCalculator.dataQuality].
    change (abs (sub (Fin tl) (Fin tr))) with (Fin (Qabs (tl + - tr))).
    change (ltb (Fin (Qabs (tl + - tr))) (of_Z 5)) with (Qltb (Qabs (tl + - tr)) 5).
    destruct (Qltb (Qabs (tl + - tr)) 5) eqn:E.
    + apply Qltb_lt in E. intros _. split.
      * intro H. apply round1_gt in H. change (inject_Z 10) with 10 in H. lra.
      * intros [_ H]. apply round1_gt in H. change (inject_Z 5) with 5 in H. lra.
    + rewrite andb_false_r.
      destruct (_ && _); [discriminate|]. destruct (_ && _); discriminate.
Qed.

Lemma generateROMSummary_consistent_witness :
  In poor_quality
    (ROMCalculator.recommendations
       (ROMCalculator.generateROMSummary (scenario1 : list xnum) flat101))
  <-> ROMCalculator.dataQuality
        (ROMCalculator.summary_analysis
           (ROMCalculator.generateROMSummary (scenario1 : list xnum) flat101))
      = ROMCalculator.poor.
Proof.
  refine (proj2 (proj2 (generateROMSummary_consistent scenario1 flat101 _ _)));
    repeat constructor.
Defined.

(** ** Quality metrics of the ankle calculator *)

Lemma xgeb_ltb (a b : xnum) : geb a b = true -> ltb a b = false.
Proof.
  unfold geb. change (leb b a) with (xleb b a). change (ltb a b) with (xltb a b).
  destruct a as [p| | |], b as [q| | |]; cbn; try discriminate; try reflexivity.
  intro H. apply Qle_bool_iff in H. apply Qltb_ge. exact H.
Qed.

Lemma In_ankle_recommendations (a : AnkleROMCalculator.AnkleROMAnalysis xnum) :
  (In significant_ankle_asymmetry
     (AnkleROMCalculator.recommendations (AnkleROMCalculator.calculateQualityMetrics a))
   <-> geb (AnkleROMCalculator.asymmetry a) (of_Z 10) = true)
  /\ (In moderate_ankle_asymmetry
        (AnkleROMCalculator.recommendations (AnkleROMCalculator.calculateQualityMetrics a))
      <-> geb (AnkleROMCalculator.asymmetry a) (of_Z 10) = false
          /\ geb (AnkleROMCalculator.asymmetry a) (of_Z 5) = true).
Proof.
  unfold AnkleROMCalculator.calculateQualityMetrics.
  cbn [AnkleROMCalculator.recommendations].
  match goal with
  | |- context [match ?q with ROMCalculator.poor => _ | _ => _ end] =>
      generalize q; intro q0
  end.
  destruct (ltb (AnkleROMCalculator.averageROM a) (of_Z 20)),
           (geb (AnkleROMCalculator.asymmetry a) (of_Z 10)),
           (geb (AnkleROMCalculator.asymmetry a) (of_Z 5)), q0;
    cbn [app In]; unfold significant_ankle_asymmetry, moderate_ankle_asymmetry;
    repeat split; try tauto;
    intros; repeat match goal with
                   | H : _ \/ _ |- _ => destruct H
                   | H : _ /\ _ |- _ => destruct H
                   | H : False |- _ => destruct H
                   end; try discriminate; auto.
Qed.

Lemma xltb_5_10 (a : xnum) : ltb a (of_Z 5) = true -> ltb a (of_Z 10) = true.
Proof.
  change (@ltb xnum _) with xltb.
  destruct a as [q| | |]; cbn; try discriminate; try reflexivity.
  intro H. apply Qltb_lt in H. apply Qltb_lt.
  change (inject_Z 5) with 5 in H. change (inject_Z 10) with 10. lra.
Qed.

Lemma xgeb_5_10 (a : xnum) : geb a (of_Z 10) = true -> geb a (of_Z 5) = true.
Proof.
  unfold geb. change (@leb xnum _) with xleb.
  destruct a as [q| | |]; cbn; try discriminate; try reflexivity.
  intro H. apply Qle_bool_iff in H. apply Qle_bool_iff.
  change (inject_Z 5) with 5. change (inject_Z 10) with 10 in H. lra.
Qed.

(** X18.  For every ankle analysis, NaN or not, the asymmetry messages
    agree with the quality: the significant-asymmetry message (asymmetry
    [>= 10]) excludes the qualities excellent and good, and quality
    excellent comes with no asymmetry message. *)
Theorem ankle_quality_messages (a : AnkleROMCalculator.AnkleROMAnalysis xnum) :
  (In significant_ankle_asymmetry
     (AnkleROMCalculator.recommendations (AnkleROMCalculator.calculateQualityMetrics a)) ->
   AnkleROMCalculator.dataQuality (AnkleROMCalculator.calculateQualityMetrics a)
   = ROMCalculator.fair
   \/ AnkleROMCalculator.dataQuality (AnkleROMCalculator.calculateQualityMetrics a)
      = ROMCalculator.poor)
  /\ (AnkleROMCalculator.dataQuality (AnkleROMCalculator.calculateQualityMetrics a)
      = ROMCalculator.excellent ->
      ~ In significant_ankle_asymmetry
          (AnkleROMCalculator.recommendations
             (AnkleROMCalculator.calculateQualityMetrics a))
      /\ ~ In moderate_ankle_asymmetry
             (AnkleROMCalculator.recommendations
                (AnkleROMCalculator.calculateQualityMetrics a))).
Proof.
  destruct (In_ankle_recommendations a) as [Sig Mod]. rewrite Sig, Mod.
  unfold AnkleROMCalculator.calculateQualityMetrics.
  cbn [AnkleROMCalculator.dataQuality].
  set (c := div _ (of_Z 2)).
  pose proof (xgeb_ltb (AnkleROMCalculator.asymmetry a) (of_Z 10)) as G10.
  pose proof (xgeb_ltb (AnkleROMCalculator.asymmetry a) (of_Z 5)) as G5.
  pose proof (xltb_5_10 (AnkleROMCalculator.asymmetry a)) as L.
  pose proof (xgeb_5_10 (AnkleROMCalculator.asymmetry a)) as G.
  split.
  - intro H. specialize (G H). rewrite (G10 H), (G5 G), !andb_false_r.
    destruct (_ && _); [left|right]; reflexivity.
  - destruct (ltb (AnkleROMCalculator.asymmetry a) (of_Z 5)) eqn:L5.
    + intros _. split.
      * intro H. specialize (G H). specialize (G5 G). discriminate.
      * intros [_ H]. specialize (G5 H). discriminate.
    + rewrite andb_false_r. destruct (_ && _); [discriminate|].
      destruct (_ && _); discriminate.
Qed.

(** ** The knee generator *)

Section KneeGeneric.
Context {N : Type} {JSN : JSNumber N}.

Lemma knee_peakAt_map (angles : list N) (zero : N) (i : nat) :
  KneeGraphGenerator.peakAt angles zero i
  = map kneePeakOf (ROMCalculator.peakAt angles zero i).
Proof.
  unfold KneeGraphGenerator.peakAt, ROMCalculator.peakAt.
  change KneeGraphGenerator.windowSize with ROMCalculator.windowSize.
  destruct (_ && _ && _); [reflexivity|].
  destruct (_ && _ && _); reflexivity.
Qed.

Lemma knee_findPeaks_map (angles : list N) (zero : N) :
  KneeGraphGenerator.findPeaks angles zero
  = map kneePeakOf (ROMCalculator.findPeaks angles zero).
Proof.
  unfold KneeGraphGenerator.findPeaks, ROMCalculator.findPeaks.
  change KneeGraphGenerator.windowSize with ROMCalculator.windowSize.
  induction (seq ROMCalculator.windowSize
               (length angles - ROMCalculator.windowSize - ROMCalculator.windowSize))
    as [|i l IH]; [reflexivity|].
  cbn [flat_map]. rewrite map_app, IH, knee_peakAt_map. reflexivity.
Qed.

Lemma knee_filter_flexion (l : list (ROMCalculator.PeakPoint N)) :
  map KneeGraphGenerator.value
    (filter KneeGraphGenerator.is_flexion (map kneePeakOf l))
  = map ROMCalculator.peak_value (filter ROMCalculator.is_flexion l).
Proof.
  induction l as [|p l IH]; [reflexivity|].
  cbn [map filter].
  assert (E : KneeGraphGenerator.is_flexion (kneePeakOf p) = ROMCalculator.is_flexion p)
    by (unfold KneeGraphGenerator.is_flexion, ROMCalculator.is_flexion, kneePeakOf;
        cbn [KneeGraphGenerator.type]; destruct (ROMCalculator.peak_type p);
        reflexivity).
  rewrite E. destruct (ROMCalculator.is_flexion p); cbn [map]; rewrite IH; reflexivity.
Qed.

Lemma knee_filter_extension (l : list (ROMCalculator.PeakPoint N)) :
  map KneeGraphGenerator.value
    (filter KneeGraphGenerator.is_extension (map kneePeakOf l))
  = map ROMCalculator.peak_value (filter ROMCalculator.is_extension l).
Proof.
  induction l as [|p l IH]; [reflexivity|].
  cbn [map filter].
  assert (E : KneeGraphGenerator.is_extension (kneePeakOf p) = ROMCalculator.is_extension p)
    by (unfold KneeGraphGenerator.is_extension, ROMCalculator.is_extension, kneePeakOf;
        cbn [KneeGraphGenerator.type]; destruct (ROMCalculator.peak_type p);
        reflexivity).
  rewrite E. destruct (ROMCalculator.is_extension p); cbn [map]; rewrite IH; reflexivity.
Qed.

(** X19.  The knee generator's own [calculateAnatomicalZero] and
    [findPeaks] compute the same zero and the same peaks, by value and
    type and in the same order, as those of the generic calculator; only
    the index and the confidence of a peak are dropped. *)
Theorem knee_peaks_agree (angles : list N) (zero : N) :
  KneeGraphGenerator.calculateAnatomicalZero angles
  = ROMCalculator.calculateAnatomicalZero angles
  /\ KneeGraphGenerator.findPeaks angles zero
     = map kneePeakOf (ROMCalculator.findPeaks angles zero)
  /\ length (KneeGraphGenerator.findPeaks angles zero)
     = length (ROMCalculator.findPeaks angles zero).
Proof.
  split; [reflexivity|]. split; [apply knee_findPeaks_map|].
  rewrite knee_findPeaks_map. apply length_map.
Qed.

End KneeGeneric.

(** In every mode the knee generator labels a position TSw only
    when the position times 100 reaches 100 or is not a number: for a
    position within a cycle, below 1, the label TSw never occurs, and a
    NaN position is labelled TSw. *)
Lemma getPhaseAtPosition_TSw (m : GaitModePresets.GaitMode) (c : xnum) :
  KneeGraphGenerator.getPhaseAtPosition m c = "TSw"%string
  <-> c = NaN \/ c = PInf \/ exists q, c = Fin q /\ 1 <= q.
Proof.
  unfold KneeGraphGenerator.getPhaseAtPosition.
  destruct c as [q| | |].
  - change (mul (Fin q) (of_Z 100)) with (Fin (q * 100)).
    assert (Hi : forall b : Z, (0 < b <= 100)%Z -> 1 <= q ->
                 ltb (Fin (q * 100)) (of_Z b) = false).
    { intros b Hb Hq. change (ltb (Fin (q * 100)) (of_Z b)) with (Qltb (q * 100) (inject_Z b)).
      apply Qltb_ge. assert (inject_Z b <= inject_Z 100) by (rewrite <- Zle_Qle; lia).
      change (inject_Z 100) with 100 in *. lra. }
    assert (Lo : q < 1 -> ltb (Fin (q * 100)) (of_Z 100) = true).
    { intro Hq. change (ltb (Fin (q * 100)) (of_Z 100)) with (Qltb (q * 100) 100).
      apply Qltb_lt. lra. }
    destruct (Qlt_le_dec q 1) as [Hq|Hq].
    + split.
      * destruct m; cbn [GaitModePresets.phaseBoundaries GaitModePresets.getGaitModeConfig
                          GaitModePresets.GAIT_MODE_PRESETS GaitModePresets.LR
                          GaitModePresets.MSt GaitModePresets.TSt GaitModePresets.PSw
                          GaitModePresets.ISw GaitModePresets.MSw GaitModePresets.TSw];
          rewrite (Lo Hq);
          repeat match goal with
                 | |- context [if ?b then _ else _] => destruct b
                 end; discriminate.
      * intros [H|[H|(q' & H & Hq')]]; try discriminate.
        injection H as <-. lra.
    + split; [intros _; right; right; exists q; split; [reflexivity|exact Hq]|].
      intros _.
      destruct m; cbn [GaitModePresets.phaseBoundaries GaitModePresets.getGaitModeConfig
                        GaitModePresets.GAIT_MODE_PRESETS GaitModePresets.LR
                        GaitModePresets.MSt GaitModePresets.TSt GaitModePresets.PSw
                        GaitModePresets.ISw GaitModePresets.MSw GaitModePresets.TSw];
        rewrite !Hi by (try exact Hq; lia); reflexivity.
  - split; [intros _; right; left; reflexivity|]. intros _. destruct m; reflexivity.
  - split; [destruct m; discriminate|].
    intros [H|[H|(q' & H & _)]]; discriminate.
  - split; [intros _; left; reflexivity|]. intros _. destruct m; reflexivity.
Qed.

(** X20.  The knee quality metrics never read the ROM values: the reported
    confidence is the constant 0.85 and the quality is a function of the
    mode and the asymmetry alone.  In the modes run and sprint, whose
    confidence limits for excellent are 0.85 and 0.9, the quality is never
    excellent; in mode walk it is excellent exactly when the asymmetry is
    below 5. *)
Theorem knee_quality_by_asymmetry :
  (forall (m : GaitModePresets.GaitMode) (a : KneeGraphGenerator.KneeROMAnalysis xnum),
     xeq (KneeGraphGenerator.confidence (KneeGraphGenerator.calculateQualityMetrics m a))
         (dec 85 2)
     /\ KneeGraphGenerator.dataQuality (KneeGraphGenerator.calculateQualityMetrics m a)
        = match m with
          | GaitModePresets.walk =>
              qualityBelow ROMCalculator.excellent (KneeGraphGenerator.asymmetry a)
                (of_Z 5) (of_Z 10) (of_Z 15)
          | GaitModePresets.run =>
              qualityBelow ROMCalculator.good (KneeGraphGenerator.asymmetry a)
                (of_Z 15) (of_Z 15) (of_Z 20)
          | GaitModePresets.sprint =>
              qualityBelow ROMCalculator.good (KneeGraphGenerator.asymmetry a)
                (of_Z 18) (of_Z 18) (of_Z 25)
          end)
  /\ (forall (m : GaitModePresets.GaitMode) (a : KneeGraphGenerator.KneeROMAnalysis float),
     eqb (KneeGraphGenerator.confidence (KneeGraphGenerator.calculateQualityMetrics m a))
         (dec 85 2) = true
     /\ KneeGraphGenerator.dataQuality (KneeGraphGenerator.calculateQualityMetrics m a)
        = match m with
          | GaitModePresets.walk =>
              qualityBelow ROMCalculator.excellent (KneeGraphGenerator.asymmetry a)
                (of_Z 5) (of_Z 10) (of_Z 15)
          | GaitModePresets.run =>
              qualityBelow ROMCalculator.good (KneeGraphGenerator.asymmetry a)
                (of_Z 15) (of_Z 15) (of_Z 20)
          | GaitModePresets.sprint =>
              qualityBelow ROMCalculator.good (KneeGraphGenerator.asymmetry a)
                (of_Z 18) (of_Z 18) (of_Z 25)
          end).
Proof.
  split; intros m a; (split; [destruct m; vm_compute; reflexivity|]);
    unfold KneeGraphGenerator.calculateQualityMetrics, qualityBelow;
    cbn [KneeGraphGenerator.dataQuality];
    generalize (KneeGraphGenerator.asymmetry a); intro s.
  - destruct m;
      cbn [GaitModePresets.qualityThresholds GaitModePresets.getGaitModeConfig
           GaitModePresets.GAIT_MODE_PRESETS GaitModePresets.excellent
           GaitModePresets.good GaitModePresets.fair GaitModePresets.poor
           GaitModePresets.threshold_confidence GaitModePresets.threshold_asymmetry].
    + change (gtb (dec 85 2) (dec 8 1)) with true.
      change (gtb (dec 85 2) (dec 6 1)) with true.
      change (gtb (dec 85 2) (dec 4 1)) with true. reflexivity.
    + change (gtb (dec 85 2) (dec 85 2)) with false.
      change (gtb (dec 85 2) (dec 65 2)) with true.
      change (gtb (dec 85 2) (dec 45 2)) with true. cbn [andb].
      destruct (ltb s (of_Z 15)); reflexivity.
    + change (gtb (dec 85 2) (dec 9 1)) with false.
      change (gtb (dec 85 2) (dec 7 1)) with true.
      change (gtb (dec 85 2) (dec 5 1)) with true. cbn [andb].
      destruct (ltb s (of_Z 18)); reflexivity.
  - destruct m;
      cbn [GaitModePresets.qualityThresholds GaitModePresets.getGaitModeConfig
           GaitModePresets.GAIT_MODE_PRESETS GaitModePresets.excellent
           GaitModePresets.good GaitModePresets.fair GaitModePresets.poor
           GaitModePresets.threshold_confidence GaitModePresets.threshold_asymmetry].
    + replace (gtb (dec 85 2) (dec 8 1)) with true by (vm_compute; reflexivity).
      replace (gtb (dec 85 2) (dec 6 1)) with true by (vm_compute; reflexivity).
      replace (gtb (dec 85 2) (dec 4 1)) with true by (vm_compute; reflexivity).
      reflexivity.
    + replace (gtb (dec 85 2) (dec 85 2)) with false by (vm_compute; reflexivity).
      replace (gtb (dec 85 2) (dec 65 2)) with true by (vm_compute; reflexivity).
      replace (gtb (dec 85 2) (dec 45 2)) with true by (vm_compute; reflexivity).
      cbn [andb]. destruct (ltb s (of_Z 15)); reflexivity.
    + replace (gtb (dec 85 2) (dec 9 1)) with false by (vm_compute; reflexivity).
      replace (gtb (dec 85 2) (dec 7 1)) with true by (vm_compute; reflexivity).
      replace (gtb (dec 85 2) (dec 5 1)) with true by (vm_compute; reflexivity).
      cbn [andb]. destruct (ltb s (of_Z 18)); reflexivity.
Qed.

Ltac split_comparisons :=
  repeat (match goal with
          | |- context [Qltb ?a ?b] =>
              let E := fresh "E" in
              destruct (Qltb a b) eqn:E;
              [apply Qltb_lt in E|apply Qltb_ge in E]; try (exfalso; lra)
          | |- context [Qle_bool ?a ?b] =>
              let E := fresh "E" in
              destruct (Qle_bool a b) eqn:E;
              [apply Qle_bool_iff in E|apply Qle_bool_gt in E]; try (exfalso; lra)
          end; cbn [andb]).

Ltac some_disjunct := solve [lra] || (left; solve [lra]) || (right; some_disjunct).

Section CompareNumbers.
Context {N : Type} {JSN : JSNumber N} {JSO : JSOrder N}.






Hypothesis order_0_2 : ltb (of_Z 0 : N) (of_Z 2) = true.
Hypothesis order_2_12 : ltb (of_Z 2 : N) (of_Z 12) = true.
Hypothesis order_12_31 : ltb (of_Z 12 : N) (of_Z 31) = true.
Hypothesis order_31_50 : ltb (of_Z 31 : N) (of_Z 50) = true.
Hypothesis order_50_62 : ltb (of_Z 50 : N) (of_Z 62) = true.
Hypothesis order_62_75 : ltb (of_Z 62 : N) (of_Z 75) = true.
Hypothesis order_75_87 : ltb (of_Z 75 : N) (of_Z 87) = true.
Hypothesis order_87_100 : ltb (of_Z 87 : N) (of_Z 100) = true.





End CompareNumbers.


Section KneeRule.
Context {N : Type} {JSN : JSNumber N} {JSO : JSOrder N}.

Lemma knee_values (l : list (ROMCalculator.PeakPoint N)) :
  map KneeGraphGenerator.value (map kneePeakOf l) = map ROMCalculator.peak_value l.
Proof. rewrite map_map. reflexivity. Qed.

Lemma flexion_above (angles : list N) (z : N) :
  Forall (fun v => ltb z v = true)
    (map ROMCalculator.peak_value
       (filter ROMCalculator.is_flexion (ROMCalculator.findPeaks angles z))).
Proof.
  apply Forall_map, Forall_forall. intros p Hp. apply filter_In in Hp.
  destruct Hp as [Hp T].
  destruct (findPeaks_peak angles z p Hp) as (_ & _ & _ & _ & Fl & _).
  exact (Fl T).
Qed.

Lemma extension_below (angles : list N) (z : N) :
  Forall (fun v => ltb v z = true)
    (map ROMCalculator.peak_value
       (filter ROMCalculator.is_extension (ROMCalculator.findPeaks angles z))).
Proof.
  apply Forall_map, Forall_forall. intros p Hp. apply filter_In in Hp.
  destruct Hp as [Hp T].
  destruct (findPeaks_peak angles z p Hp) as (_ & _ & _ & _ & _ & Ex).
  exact (Ex T).
Qed.

(** X22.  The knee generator's ROM, for a knee series without NaN, in
    every model of the numbers that satisfies the order laws (exact
    arithmetic and binary64 among them).  With a flexion peak and an
    extension peak, maxFlexion is the greatest flexion-peak value and
    maxExtension the least extension-peak value, each rounded to one
    decimal, the one above and the other below the anatomical zero, and
    totalROM is their difference rounded to one decimal.  With a peak type
    absent, the bounds are the entries at positions [floor(0.95 k)] and
    [floor(0.05 k)] of the [k] sorted peak values, an entry that is 0 or
    missing replaced by the anatomical zero. *)
Theorem knee_calculateROM_rule (angles : list N) (z : N) :
  no_NaN angles ->
  let peaks := KneeGraphGenerator.findPeaks angles z in
  let flexionValues :=
    map KneeGraphGenerator.value (filter KneeGraphGenerator.is_flexion peaks) in
  let extensionValues :=
    map KneeGraphGenerator.value (filter KneeGraphGenerator.is_extension peaks) in
  let r := KneeGraphGenerator.calculateROM peaks z in
  (flexionValues <> [] /\ extensionValues <> [] ->
   exists M m,
     greatest M flexionValues /\ least m extensionValues
     /\ ltb m z = true /\ ltb z M = true
     /\ KneeGraphGenerator.rom_maxFlexion r = round1 M
     /\ KneeGraphGenerator.rom_maxExtension r = round1 m
     /\ KneeGraphGenerator.rom_totalROM r = round1 (sub M m))
  /\
  (flexionValues = [] \/ extensionValues = [] ->
   exists sorted,
     Permutation (map KneeGraphGenerator.value peaks) sorted /\ ascending sorted
     /\ let p95 :=
          or_else
            (get_num sorted (floor (mul (of_nat (length peaks)) (dec 95 2)))) z in
        let p5 :=
          or_else
            (get_num sorted (floor (mul (of_nat (length peaks)) (dec 5 2)))) z in
        KneeGraphGenerator.rom_maxFlexion r = round1 p95
        /\ KneeGraphGenerator.rom_maxExtension r = round1 p5
        /\ KneeGraphGenerator.rom_totalROM r = round1 (sub p95 p5)).
Proof.
  intros F peaks flexionValues extensionValues r.
  assert (Ef : flexionValues
               = map ROMCalculator.peak_value
                   (filter ROMCalculator.is_flexion (ROMCalculator.findPeaks angles z))).
  { unfold flexionValues, peaks. rewrite knee_findPeaks_map. apply knee_filter_flexion. }
  assert (Ee : extensionValues
               = map ROMCalculator.peak_value
                   (filter ROMCalculator.is_extension (ROMCalculator.findPeaks angles z))).
  { unfold extensionValues, peaks. rewrite knee_findPeaks_map.
    apply knee_filter_extension. }
  assert (Ff : no_NaN flexionValues) by (rewrite Ef; apply peak_values_no_NaN, F).
  assert (Fe : no_NaN extensionValues) by (rewrite Ee; apply peak_values_no_NaN, F).
  unfold r, KneeGraphGenerator.calculateROM. cbv zeta.
  fold flexionValues. fold extensionValues.
  split.
  - intros (Hf & He).
    replace (0 <? length (filter KneeGraphGenerator.is_flexion peaks))%nat with true
      by (destruct (filter KneeGraphGenerator.is_flexion peaks);
          [exfalso; apply Hf; reflexivity|reflexivity]).
    replace (0 <? length (filter KneeGraphGenerator.is_extension peaks))%nat with true
      by (destruct (filter KneeGraphGenerator.is_extension peaks);
          [exfalso; apply He; reflexivity|reflexivity]).
    cbn [andb KneeGraphGenerator.rom_maxFlexion KneeGraphGenerator.rom_maxExtension
         KneeGraphGenerator.rom_totalROM].
    destruct (math_max_greatest flexionValues Hf Ff) as [IM AM].
    destruct (math_min_least extensionValues He Fe) as [Im Am].
    exists (math_max flexionValues), (math_min extensionValues).
    split; [split; assumption|]. split; [split; assumption|].
    split.
    + pose proof (extension_below angles z) as B. rewrite <- Ee in B.
      rewrite Forall_forall in B. apply B, Im.
    + split; [|repeat split].
      pose proof (flexion_above angles z) as A. rewrite <- Ef in A.
      rewrite Forall_forall in A. apply A, IM.
  - intros Hno.
    assert (C : (0 <? length (filter KneeGraphGenerator.is_flexion peaks))%nat
                && (0 <? length (filter KneeGraphGenerator.is_extension peaks))%nat
                = false).
    { destruct Hno as [H|H]; apply map_eq_nil in H; rewrite H;
        [reflexivity|apply andb_false_r]. }
    rewrite C.
    cbn [KneeGraphGenerator.rom_maxFlexion KneeGraphGenerator.rom_maxExtension
         KneeGraphGenerator.rom_totalROM].
    exists (sort_asc (map KneeGraphGenerator.value peaks)).
    split; [apply sort_asc_permutation|].
    split.
    + apply sort_asc_ascending. unfold peaks. rewrite knee_findPeaks_map, knee_values.
      apply Forall_map, Forall_forall. intros p Hp.
      destruct (findPeaks_peak angles z p Hp) as (_ & Hi & -> & _).
      unfold no_NaN in F. rewrite Forall_forall in F. apply F.
      unfold get. apply nth_In. lia.
    + rewrite <- (Permutation_length (sort_asc_permutation _)), length_map.
      repeat split.
Qed.

End KneeRule.

(** The rule applied, in binary64, to the series of scenario 1 (a flexion
    peak of 70 and an extension peak of -5) and to the series [kneeBumps]
    (flexion peaks only). *)
Lemma knee_calculateROM_rule_witness :
  no_NaN (scenario1 : list float)
  /\ (exists M m : float,
        ltb m (of_Z 0) = true /\ ltb (of_Z 0) M = true
        /\ KneeGraphGenerator.rom_totalROM
             (KneeGraphGenerator.calculateROM
                (KneeGraphGenerator.findPeaks scenario1 (of_Z 0)) (of_Z 0))
           = round1 (sub M m))
  /\ (exists sorted : list float,
        Permutation
          (map KneeGraphGenerator.value
             (KneeGraphGenerator.findPeaks kneeBumps (of_Z (-10)))) sorted
        /\ ascending sorted).
Proof.
  assert (F1 : no_NaN (scenario1 : list float)) by (repeat constructor).
  assert (F2 : no_NaN (kneeBumps : list float)) by (repeat constructor).
  split; [exact F1|]. split.
  - destruct (proj1 (knee_calculateROM_rule (scenario1 : list float) (of_Z 0) F1))
      as (M & m & _ & _ & A & B & _ & _ & T).
    + split; vm_compute; discriminate.
    + exists M, m. split; [exact A|]. split; [exact B|exact T].
  - destruct (proj2 (knee_calculateROM_rule (kneeBumps : list float) (of_Z (-10)) F2))
      as (sorted & P & S & _).
    + right. vm_compute. reflexivity.
    + exists sorted. split; assumption.
Defined.

(** X23.  A peak whose value is exactly 0 is taken for a missing one.  The
    series [kneeBumps] has two flexion peaks, -5 and 0, over a baseline of
    -10 and no extension peak: the 95th percentile of the peak values, 0,
    is replaced by the anatomical zero -10, so the reported maximum
    flexion -10 lies below the reported maximum extension -5 and the total
    ROM is -5.  In exact arithmetic and in binary64. *)
Theorem knee_zero_peak_negative_ROM :
  map (fun p => (KneeGraphGenerator.value p, KneeGraphGenerator.type p))
    (KneeGraphGenerator.findPeaks (kneeBumps : list xnum)
       (KneeGraphGenerator.calculateAnatomicalZero kneeBumps))
  = [(of_Z (-5), KneeGraphGenerator.flexion); (of_Z 0, KneeGraphGenerator.flexion)]
  /\ xeq (KneeGraphGenerator.maxFlexion
            (KneeGraphGenerator.left
               (KneeGraphGenerator.calculateROMAnalysis (kneeBumps : list xnum) kneeBumps)))
         (of_Z (-10))
  /\ xeq (KneeGraphGenerator.maxExtension
            (KneeGraphGenerator.left
               (KneeGraphGenerator.calculateROMAnalysis (kneeBumps : list xnum) kneeBumps)))
         (of_Z (-5))
  /\ xeq (KneeGraphGenerator.totalROM
            (KneeGraphGenerator.left
               (KneeGraphGenerator.calculateROMAnalysis (kneeBumps : list xnum) kneeBumps)))
         (of_Z (-5))
  /\ eqb (KneeGraphGenerator.totalROM
            (KneeGraphGenerator.left
               (KneeGraphGenerator.calculateROMAnalysis (kneeBumps : list float) kneeBumps)))
         (of_Z (-5)) = true.
Proof.
  split; [vm_compute; reflexivity|]. split; [vm_compute; reflexivity|].
  split; [vm_compute; reflexivity|]. split; vm_compute; reflexivity.
Qed.

(** ** Validation over shared transition objects *)

Section StoreGeneric.
Context {N : Type} {JSN : JSNumber N}.

Lemma nth_error_setAt_eq (st : GaitPhaseDetector.Store N) (r : nat) (t : GaitPhaseDetector.GaitPhaseTransition N) :
  (r < length st)%nat -> nth_error (GaitPhaseDetector.setAt st r t) r = Some t.
Proof.
  revert r. induction st as [|x st IH]; intros [|r] H; cbn in *; try lia.
  - reflexivity.
  - apply IH. lia.
Qed.

Lemma nth_error_setAt_neq (st : GaitPhaseDetector.Store N) (r r' : nat) (t : GaitPhaseDetector.GaitPhaseTransition N) :
  r <> r' -> nth_error (GaitPhaseDetector.setAt st r t) r' = nth_error st r'.
Proof.
  revert r r'. induction st as [|x st IH]; intros [|r] [|r'] H; cbn; try reflexivity.
  - congruence.
  - apply IH. congruence.
Qed.

Lemma length_setAt (st : GaitPhaseDetector.Store N) (r : nat) (t : GaitPhaseDetector.GaitPhaseTransition N) :
  length (GaitPhaseDetector.setAt st r t) = length st.
Proof.
  revert r. induction st as [|x st IH]; intros [|r]; cbn; try reflexivity.
  rewrite IH. reflexivity.
Qed.

Lemma setPercent_same (st : GaitPhaseDetector.Store N) (r : nat) (p : N) (t : GaitPhaseDetector.GaitPhaseTransition N) :
  nth_error st r = Some t ->
  nth_error (GaitPhaseDetector.setPercent st r p) r
  = Some (GaitPhaseDetector.mkGaitPhaseTransition (GaitPhaseDetector.phase t) p
            (GaitPhaseDetector.frame t) (GaitPhaseDetector.detected t)).
Proof.
  intro H. unfold GaitPhaseDetector.setPercent. rewrite H.
  apply nth_error_setAt_eq. apply nth_error_Some. congruence.
Qed.

Lemma setPercent_other (st : GaitPhaseDetector.Store N) (r r' : nat) (p : N) :
  r <> r' -> nth_error (GaitPhaseDetector.setPercent st r p) r' = nth_error st r'.
Proof.
  intro H. unfold GaitPhaseDetector.setPercent.
  destruct (nth_error st r); [|reflexivity]. apply nth_error_setAt_neq. exact H.
Qed.

Lemma length_setPercent (st : GaitPhaseDetector.Store N) (r : nat) (p : N) :
  length (GaitPhaseDetector.setPercent st r p) = length st.
Proof.
  unfold GaitPhaseDetector.setPercent.
  destruct (nth_error st r); [apply length_setAt|reflexivity].
Qed.

Lemma percentAt_read (st : GaitPhaseDetector.Store N) (r : nat) (t : GaitPhaseDetector.GaitPhaseTransition N) :
  nth_error st r = Some t ->
  GaitPhaseDetector.percentAt st r = GaitPhaseDetector.percent t.
Proof. intro H. unfold GaitPhaseDetector.percentAt. rewrite H. reflexivity. Qed.

Lemma percentAt_other (st st' : GaitPhaseDetector.Store N) (r : nat) :
  nth_error st' r = nth_error st r ->
  GaitPhaseDetector.percentAt st' r = GaitPhaseDetector.percentAt st r.
Proof. intro H. unfold GaitPhaseDetector.percentAt. rewrite H. reflexivity. Qed.

(** One step of the loop on two different objects writes the constrained
    percent into the later one and touches nothing else. *)
Lemma adjust_spec (st : GaitPhaseDetector.Store N) (prev r : nat) (tp t : GaitPhaseDetector.GaitPhaseTransition N) :
  prev <> r -> nth_error st prev = Some tp -> nth_error st r = Some t ->
  nth_error (GaitPhaseDetector.adjust st prev r) r
  = Some (GaitPhaseDetector.mkGaitPhaseTransition (GaitPhaseDetector.phase t)
            (GaitPhaseDetector.constrain (GaitPhaseDetector.percent tp)
               (GaitPhaseDetector.percent t))
            (GaitPhaseDetector.frame t) (GaitPhaseDetector.detected t))
  /\ (forall r', r' <> r ->
        nth_error (GaitPhaseDetector.adjust st prev r) r' = nth_error st r')
  /\ length (GaitPhaseDetector.adjust st prev r) = length st.
Proof.
  intros Hne Hp Hr. unfold GaitPhaseDetector.adjust, GaitPhaseDetector.constrain.
  rewrite (percentAt_read st r t Hr), (percentAt_read st prev tp Hp).
  set (pp := GaitPhaseDetector.percent tp). set (p := GaitPhaseDetector.percent t).
  destruct (ltb (sub p pp) (of_Z 5)) eqn:C1.
  - set (st1 := GaitPhaseDetector.setPercent st r (add pp (of_Z 5))).
    assert (R1 : nth_error st1 r
                 = Some (GaitPhaseDetector.mkGaitPhaseTransition
                           (GaitPhaseDetector.phase t) (add pp (of_Z 5))
                           (GaitPhaseDetector.frame t) (GaitPhaseDetector.detected t)))
      by (apply setPercent_same; exact Hr).
    assert (P1 : nth_error st1 prev = Some tp)
      by (unfold st1; rewrite setPercent_other by congruence; exact Hp).
    rewrite (percentAt_read st1 r _ R1), (percentAt_read st1 prev tp P1).
    cbn [GaitPhaseDetector.percent]. fold pp.
    destruct (gtb (sub (add pp (of_Z 5)) pp) (of_Z 40)) eqn:C2.
    + split; [|split].
      * rewrite (setPercent_same st1 r _ _ R1). reflexivity.
      * intros r' H'. unfold st1. rewrite !setPercent_other by congruence. reflexivity.
      * unfold st1. rewrite !length_setPercent. reflexivity.
    + split; [exact R1|]. split.
      * intros r' H'. unfold st1. rewrite setPercent_other by congruence. reflexivity.
      * unfold st1. apply length_setPercent.
  - rewrite (percentAt_read st r t Hr), (percentAt_read st prev tp Hp). fold pp p.
    destruct (gtb (sub p pp) (of_Z 40)) eqn:C2.
    + split; [|split].
      * apply setPercent_same. exact Hr.
      * intros r' H'. rewrite setPercent_other by congruence. reflexivity.
      * apply length_setPercent.
    + split; [|split; [reflexivity|reflexivity]].
      rewrite Hr. unfold p. destruct t; reflexivity.
Qed.

Lemma readAll_cons (st : GaitPhaseDetector.Store N) (r : nat) (l : list nat) (t : GaitPhaseDetector.GaitPhaseTransition N) :
  nth_error st r = Some t ->
  GaitPhaseDetector.readAll st (r :: l) = t :: GaitPhaseDetector.readAll st l.
Proof. intro H. unfold GaitPhaseDetector.readAll. cbn [flat_map]. rewrite H. reflexivity. Qed.

Lemma readAll_ext (st st' : GaitPhaseDetector.Store N) (l : list nat) :
  (forall r, In r l -> nth_error st' r = nth_error st r) ->
  GaitPhaseDetector.readAll st' l = GaitPhaseDetector.readAll st l.
Proof.
  intro H. unfold GaitPhaseDetector.readAll.
  induction l as [|r l IH]; [reflexivity|].
  cbn [flat_map]. rewrite (H r (or_introl eq_refl)), IH; [reflexivity|].
  intros r' Hr'. apply H. right. exact Hr'.
Qed.

Lemma valid_read (st : GaitPhaseDetector.Store N) (r : nat) :
  (r < length st)%nat -> exists t, nth_error st r = Some t.
Proof.
  intro H. destruct (nth_error st r) as [t|] eqn:E; [exists t; reflexivity|].
  apply nth_error_None in E. lia.
Qed.

Lemma adjustFrom_spec (l : list nat) :
  forall (st : GaitPhaseDetector.Store N) (prev : nat),
    NoDup (prev :: l) ->
    (forall r, In r (prev :: l) -> (r < length st)%nat) ->
    GaitPhaseDetector.readAll (GaitPhaseDetector.adjustFrom st prev l) l
    = GaitPhaseDetector.constrainFrom (GaitPhaseDetector.percentAt st prev)
        (GaitPhaseDetector.readAll st l)
    /\ (forall r', ~ In r' l ->
          nth_error (GaitPhaseDetector.adjustFrom st prev l) r' = nth_error st r')
    /\ length (GaitPhaseDetector.adjustFrom st prev l) = length st.
Proof.
  induction l as [|r rest IH]; intros st prev ND V.
  - split; [reflexivity|]. split; [reflexivity|reflexivity].
  - cbn [GaitPhaseDetector.adjustFrom].
    inversion ND as [|? ? Hprev ND']; subst.
    inversion ND' as [|? ? Hr ND'']; subst.
    destruct (valid_read st prev (V prev (or_introl eq_refl))) as [tp Hp].
    destruct (valid_read st r (V r (or_intror (or_introl eq_refl)))) as [t Ht].
    assert (Hne : prev <> r) by (intro E; apply Hprev; left; symmetry; exact E).
    destruct (adjust_spec st prev r tp t Hne Hp Ht) as (A1 & A2 & A3).
    set (st2 := GaitPhaseDetector.adjust st prev r) in *.
    destruct (IH st2 r ND') as (I1 & I2 & I3).
    { intros x Hx. rewrite A3. apply V. right. exact Hx. }
    split; [|split].
    + rewrite (readAll_cons _ r rest _ (eq_trans (I2 r Hr) A1)), I1.
      rewrite (readAll_cons st r rest t Ht).
      cbn [GaitPhaseDetector.constrainFrom].
      rewrite (percentAt_read st prev tp Hp), (percentAt_read st2 r _ A1).
      cbn [GaitPhaseDetector.percent].
      rewrite (readAll_ext st st2 rest); [reflexivity|].
      intros x Hx. apply A2. intro E. subst x. contradiction.
    + intros r' Hr'. rewrite I2 by (intro H; apply Hr'; right; exact H).
      apply A2. intro E. apply Hr'. left. symmetry. exact E.
    + rewrite I3. exact A3.
Qed.

Lemma insertRef_perm (st : GaitPhaseDetector.Store N) (r : nat) (l : list nat) :
  Permutation (r :: l) (GaitPhaseDetector.insertRef st r l).
Proof.
  induction l as [|y l IH]; cbn [GaitPhaseDetector.insertRef]; [reflexivity|].
  destruct (leb _ _); [reflexivity|].
  rewrite perm_swap. apply perm_skip, IH.
Qed.

Lemma sortRefs_perm (st : GaitPhaseDetector.Store N) (l : list nat) :
  Permutation l (GaitPhaseDetector.sortRefs st l).
Proof.
  induction l as [|r l IH]; [reflexivity|].
  cbn [GaitPhaseDetector.sortRefs fold_right].
  rewrite <- insertRef_perm. apply perm_skip, IH.
Qed.

Lemma insertRef_read (st : GaitPhaseDetector.Store N) (r : nat) (l : list nat)
    (t : GaitPhaseDetector.GaitPhaseTransition N) :
  nth_error st r = Some t -> (forall x, In x l -> (x < length st)%nat) ->
  GaitPhaseDetector.readAll st (GaitPhaseDetector.insertRef st r l)
  = GaitPhaseDetector.insertByPercent t (GaitPhaseDetector.readAll st l).
Proof.
  intros Hr V. induction l as [|y l IH].
  - cbn [GaitPhaseDetector.insertRef]. rewrite (readAll_cons st r [] t Hr). reflexivity.
  - destruct (valid_read st y (V y (or_introl eq_refl))) as [ty Hy].
    cbn [GaitPhaseDetector.insertRef].
    rewrite (readAll_cons st y l ty Hy). cbn [GaitPhaseDetector.insertByPercent].
    rewrite (percentAt_read st r t Hr), (percentAt_read st y ty Hy).
    destruct (leb (GaitPhaseDetector.percent t) (GaitPhaseDetector.percent ty)).
    + rewrite (readAll_cons st r (y :: l) t Hr), (readAll_cons st y l ty Hy). reflexivity.
    + rewrite (readAll_cons st y _ ty Hy), IH; [reflexivity|].
      intros x Hx. apply V. right. exact Hx.
Qed.

Lemma sortRefs_read (st : GaitPhaseDetector.Store N) (l : list nat) :
  (forall x, In x l -> (x < length st)%nat) ->
  GaitPhaseDetector.readAll st (GaitPhaseDetector.sortRefs st l)
  = GaitPhaseDetector.sortByPercent (GaitPhaseDetector.readAll st l).
Proof.
  intro V. induction l as [|r l IH]; [reflexivity|].
  destruct (valid_read st r (V r (or_introl eq_refl))) as [t Ht].
  cbn [GaitPhaseDetector.sortRefs fold_right].
  change (fold_right (GaitPhaseDetector.insertRef st) [] l)
    with (GaitPhaseDetector.sortRefs st l).
  rewrite (insertRef_read st r _ t Ht).
  - rewrite IH by (intros x Hx; apply V; right; exact Hx).
    rewrite (readAll_cons st r l t Ht). reflexivity.
  - intros x Hx. apply V. right.
    apply (Permutation_in x (Permutation_sym (sortRefs_perm st l))). exact Hx.
Qed.

Lemma validateTransitionsIn_spec (st : GaitPhaseDetector.Store N) (refs : list nat) :
  NoDup refs -> (forall r, In r refs -> (r < length st)%nat) ->
  GaitPhaseDetector.readAll (snd (GaitPhaseDetector.validateTransitionsIn st refs))
    (fst (GaitPhaseDetector.validateTransitionsIn st refs))
  = GaitPhaseDetector.validateTransitions (GaitPhaseDetector.readAll st refs)
  /\ Permutation refs (fst (GaitPhaseDetector.validateTransitionsIn st refs))
  /\ (forall r, ~ In r refs ->
        nth_error (snd (GaitPhaseDetector.validateTransitionsIn st refs)) r
        = nth_error st r).
Proof.
  intros ND V. unfold GaitPhaseDetector.validateTransitionsIn,
    GaitPhaseDetector.validateTransitions. cbn [fst snd].
  pose proof (sortRefs_perm st refs) as P.
  rewrite <- (sortRefs_read st refs V).
  assert (ND' : NoDup (GaitPhaseDetector.sortRefs st refs))
    by (eapply Permutation_NoDup; eassumption).
  assert (V' : forall r, In r (GaitPhaseDetector.sortRefs st refs) -> (r < length st)%nat)
    by (intros r Hr; apply V; apply (Permutation_in r (Permutation_sym P)); exact Hr).
  destruct (GaitPhaseDetector.sortRefs st refs) as [|first rest].
  - split; [reflexivity|]. split; [exact P|reflexivity].
  - destruct (valid_read st first (V' first (or_introl eq_refl))) as [tf Hf].
    destruct (adjustFrom_spec rest st first ND' V') as (A1 & A2 & A3).
    inversion ND' as [|? ? Hnf _]; subst.
    split; [|split; [exact P|]].
    + rewrite (readAll_cons _ first rest tf (eq_trans (A2 first Hnf) Hf)), A1.
      rewrite (readAll_cons st first rest tf Hf), (percentAt_read st first tf Hf).
      reflexivity.
    + intros r Hr. apply A2. intro H. apply Hr.
      apply (Permutation_in r (Permutation_sym P)). right. exact H.
Qed.

(** X24.  Validation writes into the caller's objects.  For an array of
    distinct transition objects the returned array, read after the call,
    holds what the value-level [validateTransitions] computes from the
    transitions read before it; the returned array holds the same objects
    as the input array, so the caller's array read after the call holds
    the adjusted transitions too, in the caller's order; objects outside
    the array are left alone. *)
Theorem validateTransitions_writes_through
    (st : GaitPhaseDetector.Store N) (refs : list nat) :
  NoDup refs -> (forall r, In r refs -> (r < length st)%nat) ->
  GaitPhaseDetector.readAll (snd (GaitPhaseDetector.validateTransitionsIn st refs))
    (fst (GaitPhaseDetector.validateTransitionsIn st refs))
  = GaitPhaseDetector.validateTransitions (GaitPhaseDetector.readAll st refs)
  /\ Permutation refs (fst (GaitPhaseDetector.validateTransitionsIn st refs))
  /\ Permutation
       (GaitPhaseDetector.readAll (snd (GaitPhaseDetector.validateTransitionsIn st refs))
          refs)
       (GaitPhaseDetector.validateTransitions (GaitPhaseDetector.readAll st refs))
  /\ (forall r, ~ In r refs ->
        nth_error (snd (GaitPhaseDetector.validateTransitionsIn st refs)) r
        = nth_error st r).
Proof.
  intros ND V. destruct (validateTransitionsIn_spec st refs ND V) as (R & P & U).
  split; [exact R|]. split; [exact P|]. split; [|exact U].
  rewrite <- R. unfold GaitPhaseDetector.readAll.
  apply Permutation_flat_map. exact P.
Qed.

End StoreGeneric.

Lemma validateTransitions_writes_through_witness :
  GaitPhaseDetector.readAll
    (snd (GaitPhaseDetector.validateTransitionsIn
            (map (@transitionAt xnum _) [50; 2; 3; 100; 51]%Z) [0; 1; 2; 3; 4]%nat))
    (fst (GaitPhaseDetector.validateTransitionsIn
            (map (@transitionAt xnum _) [50; 2; 3; 100; 51]%Z) [0; 1; 2; 3; 4]%nat))
  = GaitPhaseDetector.validateTransitions
      (GaitPhaseDetector.readAll (map (@transitionAt xnum _) [50; 2; 3; 100; 51]%Z)
         [0; 1; 2; 3; 4]%nat).
Proof.
  refine (proj1 (validateTransitions_writes_through
                   (map (@transitionAt xnum _) [50; 2; 3; 100; 51]%Z)
                   [0; 1; 2; 3; 4]%nat _ _)).
  - repeat constructor; cbn; intuition lia.
  - intros r H. cbn in H. cbn. intuition lia.
Defined.

(** X25.  The same object twice in the array breaks the spacing: the write
    that moves the second entry 5 percent beyond the first moves the
    first as well, so both entries end at the old percent plus 5 and stand
    0 percent apart, where the value-level computation would leave the
    first alone. *)
Theorem validateTransitions_same_object_twice
    (t : GaitPhaseDetector.GaitPhaseTransition xnum) (p : Q) :
  GaitPhaseDetector.percent t = Fin p ->
  GaitPhaseDetector.readAll
    (snd (GaitPhaseDetector.validateTransitionsIn [t] [0; 0]%nat))
    (fst (GaitPhaseDetector.validateTransitionsIn [t] [0; 0]%nat))
  = [GaitPhaseDetector.mkGaitPhaseTransition (GaitPhaseDetector.phase t)
       (Fin (p + 5)) (GaitPhaseDetector.frame t) (GaitPhaseDetector.detected t);
     GaitPhaseDetector.mkGaitPhaseTransition (GaitPhaseDetector.phase t)
       (Fin (p + 5)) (GaitPhaseDetector.frame t) (GaitPhaseDetector.detected t)]
  /\ ~ well_spaced
         (GaitPhaseDetector.readAll
            (snd (GaitPhaseDetector.validateTransitionsIn [t] [0; 0]%nat))
            (fst (GaitPhaseDetector.validateTransitionsIn [t] [0; 0]%nat)))
  /\ GaitPhaseDetector.validateTransitions [t; t]
     = [t; GaitPhaseDetector.mkGaitPhaseTransition (GaitPhaseDetector.phase t)
             (Fin (p + 5)) (GaitPhaseDetector.frame t)
             (GaitPhaseDetector.detected t)].
Proof.
  intro E. destruct t as [ph pc fr de]. cbn in E. subst pc.
  assert (L : Qle_bool p p = true) by (apply Qle_bool_iff; lra).
  assert (L5 : Qltb (p + - p) 5 = true) by (apply Qltb_lt; lra).
  assert (L40 : Qltb 40 (p + 5 + - (p + 5)) = false) by (apply Qltb_ge; lra).
  assert (L40' : Qltb 40 (p + 5 + - p) = false) by (apply Qltb_ge; lra).
  assert (R : GaitPhaseDetector.readAll
                (snd (GaitPhaseDetector.validateTransitionsIn
                        [GaitPhaseDetector.mkGaitPhaseTransition ph (Fin p) fr de]
                        [0; 0]%nat))
                (fst (GaitPhaseDetector.validateTransitionsIn
                        [GaitPhaseDetector.mkGaitPhaseTransition ph (Fin p) fr de]
                        [0; 0]%nat))
              = [GaitPhaseDetector.mkGaitPhaseTransition ph (Fin (p + 5)) fr de;
                 GaitPhaseDetector.mkGaitPhaseTransition ph (Fin (p + 5)) fr de]).
  { assert (S : forall a b : xnum,
              GaitPhaseDetector.setPercent
                [GaitPhaseDetector.mkGaitPhaseTransition ph a fr de] 0 b
              = [GaitPhaseDetector.mkGaitPhaseTransition ph b fr de])
      by reflexivity.
    assert (PA : forall a : xnum,
              GaitPhaseDetector.percentAt
                [GaitPhaseDetector.mkGaitPhaseTransition ph a fr de] 0 = a)
      by reflexivity.
    unfold GaitPhaseDetector.validateTransitionsIn, GaitPhaseDetector.sortRefs.
    cbn [fold_right GaitPhaseDetector.insertRef]. rewrite !PA.
    change (leb (Fin p) (Fin p)) with (Qle_bool p p). rewrite L.
    cbn [fst snd GaitPhaseDetector.adjustFrom].
    unfold GaitPhaseDetector.adjust. rewrite !PA.
    change (ltb (sub (Fin p) (Fin p)) (of_Z 5)) with (Qltb (p + - p) 5). rewrite L5.
    rewrite !S, !PA. change (add (Fin p) (of_Z 5)) with (Fin (p + 5)).
    unfold gtb.
    change (ltb (of_Z 40) (sub (Fin (p + 5)) (Fin (p + 5))))
      with (Qltb 40 (p + 5 + - (p + 5))).
    rewrite L40. reflexivity. }
  split; [exact R|]. split.
  - rewrite R. intros (q & Eq & (q' & Eq' & B & _)). cbn in Eq, Eq'.
    injection Eq as <-. injection Eq' as <-. lra.
  - unfold GaitPhaseDetector.validateTransitions, GaitPhaseDetector.sortByPercent.
    cbn [fold_right GaitPhaseDetector.insertByPercent GaitPhaseDetector.percent].
    change (leb (Fin p) (Fin p)) with (Qle_bool p p). rewrite L.
    cbn [GaitPhaseDetector.constrainFrom GaitPhaseDetector.percent
         GaitPhaseDetector.phase GaitPhaseDetector.frame GaitPhaseDetector.detected].
    destruct (constrain_spec p p) as (q & Eq & _).
    change (GaitPhaseDetector.constrain (Fin p) (Fin p))
      with (let p1 := if Qltb (p + - p) 5 then Fin (p + 5) else Fin p in
            if xltb (Fin 40) (xsub p1 (Fin p)) then Fin (p + 40) else p1).
    rewrite L5. cbv zeta.
    change (xltb (Fin 40) (xsub (Fin (p + 5)) (Fin p))) with (Qltb 40 (p + 5 + - p)).
    rewrite L40'. reflexivity.
Qed.

Lemma validateTransitions_same_object_twice_witness :
  ~ well_spaced
      (GaitPhaseDetector.readAll
         (snd (GaitPhaseDetector.validateTransitionsIn [@transitionAt xnum _ 10]
                 [0; 0]%nat))
         (fst (GaitPhaseDetector.validateTransitionsIn [@transitionAt xnum _ 10]
                 [0; 0]%nat))).
Proof.
  exact (proj1 (proj2 (validateTransitions_same_object_twice
                         (transitionAt 10) (inject_Z 10) eq_refl))).
Defined.

(** ** The averaged single cycle of the knee generator *)

Section AveragedGeneric.
Context {N : Type} {JSN : JSNumber N}.

Lemma lookup_storeBucket (k k' : nat) (b : KneeGraphGenerator.Bucket N)
    (d : KneeGraphGenerator.Buckets N) :
  KneeGraphGenerator.lookupBucket k (KneeGraphGenerator.storeBucket k' b d)
  = if (k =? k')%nat then Some b else KneeGraphGenerator.lookupBucket k d.
Proof.
  induction d as [|[k0 b0] d IH]; cbn [KneeGraphGenerator.storeBucket
                                        KneeGraphGenerator.lookupBucket].
  - reflexivity.
  - destruct (k' =? k0)%nat eqn:E0; cbn [KneeGraphGenerator.lookupBucket].
    + apply Nat.eqb_eq in E0. subst k0.
      destruct (k =? k')%nat; reflexivity.
    + destruct (k =? k0)%nat eqn:E1.
      * apply Nat.eqb_eq in E1. subst k0.
        replace (k =? k')%nat with false; [reflexivity|].
        symmetry. rewrite Nat.eqb_sym. exact E0.
      * exact IH.
Qed.

(** The bucket that a group of points, in order, amounts to. *)
Lemma lookup_addPoints (points : list (KneeGraphGenerator.KneeDataPoint N)) (k : nat) :
  KneeGraphGenerator.lookupBucket k
    (fold_left KneeGraphGenerator.addPoint points [])
  = match groupAt k points with
    | [] => None
    | first :: _ =>
        Some (KneeGraphGenerator.mkBucket
                (map KneeGraphGenerator.kneeLeft (groupAt k points))
                (map KneeGraphGenerator.kneeRight (groupAt k points))
                (KneeGraphGenerator.phase first))
    end.
Proof.
  induction points as [|p points IH] using rev_ind; [reflexivity|].
  rewrite fold_left_app. cbn [fold_left].
  unfold groupAt in *. rewrite filter_app. cbn [filter].
  set (acc := fold_left KneeGraphGenerator.addPoint points []) in *.
  unfold KneeGraphGenerator.addPoint.
  destruct (KneeGraphGenerator.bucketKey p) as [kp|].
  - rewrite lookup_storeBucket. destruct (k =? kp)%nat eqn:E.
    + apply Nat.eqb_eq in E. subst kp. rewrite IH.
      destruct (filter _ points) as [|first rest]; cbn [app map
        KneeGraphGenerator.bucket_left KneeGraphGenerator.bucket_right
        KneeGraphGenerator.bucket_phase]; [reflexivity|].
      rewrite !map_app. reflexivity.
    + rewrite app_nil_r. exact IH.
  - rewrite app_nil_r. exact IH.
Qed.

Lemma averaged_groups (m : GaitModePresets.GaitMode)
    (points : list (KneeGraphGenerator.KneeDataPoint N)) (ks : list nat) :
  flat_map (fun percent =>
    match KneeGraphGenerator.lookupBucket percent
            (fold_left KneeGraphGenerator.addPoint points []) with
    | Some b =>
        if (0 <? length (KneeGraphGenerator.bucket_left b))%nat
           && (0 <? length (KneeGraphGenerator.bucket_right b))%nat
        then [KneeGraphGenerator.averagedPoint m percent b] else []
    | None => []
    end) ks
  = flat_map (fun k => groupPoint m k (groupAt k points)) ks.
Proof.
  induction ks as [|k ks IH]; [reflexivity|].
  cbn [flat_map]. rewrite IH, lookup_addPoints. f_equal.
  destruct (groupAt k points) as [|first rest] eqn:G; [reflexivity|].
  unfold KneeGraphGenerator.averagedPoint, groupPoint.
  cbn [KneeGraphGenerator.bucket_left KneeGraphGenerator.bucket_right
       KneeGraphGenerator.bucket_phase].
  rewrite !length_map. reflexivity.
Qed.

Lemma groupPoint_percent (m : GaitModePresets.GaitMode) (k : nat)
    (g : list (KneeGraphGenerator.KneeDataPoint N)) :
  map KneeGraphGenerator.gaitCyclePercent (groupPoint m k g)
  = map of_nat (if match g with [] => true | _ => false end then [] else [k]).
Proof. destruct g; reflexivity. Qed.

Lemma averaged_percents (m : GaitModePresets.GaitMode)
    (points : list (KneeGraphGenerator.KneeDataPoint N)) (a n : nat) :
  exists ks,
    StronglySorted lt ks /\ Forall (fun k => (a <= k < a + n)%nat) ks
    /\ map KneeGraphGenerator.gaitCyclePercent
         (flat_map (fun k => groupPoint m k (groupAt k points)) (seq a n))
       = map of_nat ks.
Proof.
  revert a. induction n as [|n IH]; intro a.
  - exists []. split; [constructor|]. split; [constructor|reflexivity].
  - destruct (IH (S a)) as (ks & S & F & E).
    cbn [seq flat_map]. rewrite map_app, E.
    destruct (groupAt a points) as [|first rest].
    + exists ks. split; [exact S|]. split; [|reflexivity].
      eapply Forall_impl; [|exact F]. cbv beta. intros; lia.
    + exists (a :: ks). split; [|split; [|reflexivity]].
      * constructor; [exact S|]. eapply Forall_impl; [|exact F]. cbv beta. intros; lia.
      * constructor; [lia|]. eapply Forall_impl; [|exact F]. cbv beta. intros; lia.
Qed.

Lemma groupAt_none (points : list (KneeGraphGenerator.KneeDataPoint N)) (k : nat) :
  Forall (fun p => KneeGraphGenerator.bucketKey p = None) points ->
  groupAt k points = [].
Proof.
  intro F. unfold groupAt. induction F as [|p l Hp _ IH]; [reflexivity|].
  cbn [filter]. rewrite Hp. exact IH.
Qed.

(** X26.  The averaged cycle is the input grouped by whole percent: for
    each percent from 0 to 100 under which a point was filed, in
    ascending order, one point with that percent, the phase of the first
    point filed there, and the left and right means over all the points
    filed there, rounded to one decimal.  So the result has at most 101
    points with strictly ascending whole percents.  When no point passes
    the guard the first [framesPerCycle] input points are returned
    unchanged instead. *)
Theorem generateAveragedSingleCycle_groups (m : GaitModePresets.GaitMode)
    (points : list (KneeGraphGenerator.KneeDataPoint N)) :
  KneeGraphGenerator.generateAveragedSingleCycle m points
  = match flat_map (fun k => groupPoint m k (groupAt k points)) (seq 0 101) with
    | [] =>
        slice points 0
          (to_nat
             (floor
                (mul (GaitModePresets.cycleDuration
                        (GaitModePresets.analysisSettings
                           (GaitModePresets.getGaitModeConfig m)))
                     (GaitModePresets.frameRate
                        (GaitModePresets.analysisSettings
                           (GaitModePresets.getGaitModeConfig m))))))
    | averaged => averaged
    end
  /\ (exists ks,
        StronglySorted lt ks /\ Forall (fun k => (k <= 100)%nat) ks
        /\ map KneeGraphGenerator.gaitCyclePercent
             (flat_map (fun k => groupPoint m k (groupAt k points)) (seq 0 101))
           = map of_nat ks)
  /\ (Forall (fun p => KneeGraphGenerator.bucketKey p = None) points ->
      flat_map (fun k => groupPoint m k (groupAt k points)) (seq 0 101) = [])
  /\ (forall p k, In p points -> KneeGraphGenerator.bucketKey p = Some k ->
      (k <= 100)%nat ->
      flat_map (fun k => groupPoint m k (groupAt k points)) (seq 0 101) <> []).
Proof.
  split; [|split; [|split]].
  - unfold KneeGraphGenerator.generateAveragedSingleCycle. cbv zeta.
    rewrite averaged_groups.
    destruct (flat_map (fun k => groupPoint m k (groupAt k points)) (seq 0 101));
      reflexivity.
  - destruct (averaged_percents m points 0 101) as (ks & S & F & E).
    exists ks. split; [exact S|]. split; [|exact E].
    eapply Forall_impl; [|exact F]. cbv beta. intros; lia.
  - intro F. induction (seq 0 101) as [|k l IH]; [reflexivity|].
    cbn [flat_map]. rewrite (groupAt_none points k F), IH. reflexivity.
  - intros p k Hp Hk Hle H.
    assert (Hin : In k (seq 0 101)) by (apply in_seq; lia).
    assert (G : In p (groupAt k points)).
    { unfold groupAt. apply filter_In. split; [exact Hp|].
      rewrite Hk. apply Nat.eqb_refl. }
    assert (X : In (hd p (groupPoint m k (groupAt k points)))
                  (flat_map (fun k => groupPoint m k (groupAt k points)) (seq 0 101))).
    { apply in_flat_map. exists k. split; [exact Hin|].
      destruct (groupAt k points) as [|first rest]; [destruct G|].
      left. reflexivity. }
    rewrite H in X. destruct X.
Qed.

End AveragedGeneric.

(** X27.  In every mode the knee generator's label is a step function of
    the position: as the position grows the label moves forward through
    IC, LR, MSt, TSt, PSw, ISw, MSw, TSw and never back.  The label TSw is
    given only when the position times 100 reaches 100 or is not a
    number: for a position within a cycle, below 1, it never occurs, and
    a NaN position is labelled TSw. *)
Theorem getPhaseAtPosition_steps (m : GaitModePresets.GaitMode) :
  (forall c1 c2 : Q, c1 <= c2 ->
     (phaseRank (KneeGraphGenerator.getPhaseAtPosition m (Fin c1))
      <= phaseRank (KneeGraphGenerator.getPhaseAtPosition m (Fin c2)))%nat)
  /\ (forall c : xnum,
        KneeGraphGenerator.getPhaseAtPosition m c = "TSw"%string
        <-> c = NaN \/ c = PInf \/ exists q, c = Fin q /\ 1 <= q).
Proof.
  split; [|intro c; apply getPhaseAtPosition_TSw].
  intros c1 c2 H.
  unfold KneeGraphGenerator.getPhaseAtPosition.
  change (mul (Fin c1) (of_Z 100)) with (Fin (c1 * 100)).
  change (mul (Fin c2) (of_Z 100)) with (Fin (c2 * 100)).
  set (q1 := c1 * 100). set (q2 := c2 * 100).
  assert (Hq : q1 <= q2) by (unfold q1, q2; lra).
  clearbody q1 q2.
  destruct m;
    cbn [GaitModePresets.phaseBoundaries GaitModePresets.getGaitModeConfig
         GaitModePresets.GAIT_MODE_PRESETS GaitModePresets.LR
         GaitModePresets.MSt GaitModePresets.TSt GaitModePresets.PSw
         GaitModePresets.ISw GaitModePresets.MSw GaitModePresets.TSw];
    change (@ltb xnum _) with xltb;
    change (@of_Z xnum _) with (fun z => Fin (inject_Z z)); cbv beta;
    cbn [xltb]; unfold inject_Z;
    split_comparisons; vm_compute; lia.
Qed.

(** ** An ankle without movement *)

Section StillAnkle.
Context {N : Type} {JSN : JSNumber N} {JSO : JSOrder N}.
Hypothesis add_nan_l : forall x : N, add nan x = nan.
Hypothesis add_nan_r : forall x : N, add x nan = nan.
Hypothesis div_nan_l : forall x : N, div nan x = nan.
Hypothesis round2_nan : round2 (nan : N) = nan.
Hypothesis still_consistency : forall d p t : N,
  eqb d p = true -> eqb t (of_Z 0) = true -> div (abs (sub d p)) t = nan.

Lemma still_side_unusable (a : AnkleROMCalculator.AnkleROMAnalysis N) :
  still_side (AnkleROMCalculator.left a) \/ still_side (AnkleROMCalculator.right a) ->
  unusable a.
Proof.
  intro H. unfold unusable, AnkleROMCalculator.calculateQualityMetrics.
  cbv zeta.
  cbn [AnkleROMCalculator.confidence AnkleROMCalculator.dataQuality
       AnkleROMCalculator.recommendations].
  set (lc := div (abs (sub (AnkleROMCalculator.maxDorsiflexion (AnkleROMCalculator.left a))
                           (AnkleROMCalculator.maxPlantarflexion (AnkleROMCalculator.left a))))
                 (AnkleROMCalculator.totalROM (AnkleROMCalculator.left a))).
  set (rc := div (abs (sub (AnkleROMCalculator.maxDorsiflexion (AnkleROMCalculator.right a))
                           (AnkleROMCalculator.maxPlantarflexion (AnkleROMCalculator.right a))))
                 (AnkleROMCalculator.totalROM (AnkleROMCalculator.right a))).
  assert (C : div (add lc rc) (of_Z 2) = nan).
  { destruct H as [[E Z]|[E Z]].
    - unfold lc. rewrite (still_consistency _ _ _ E Z), add_nan_l. apply div_nan_l.
    - unfold rc. rewrite (still_consistency _ _ _ E Z), add_nan_r. apply div_nan_l. }
  rewrite C, round2_nan.
  assert (G : forall x : N, gtb nan x = false).
  { intro x. unfold gtb. apply isNaN_true_leb. right. apply js_isNaN_nan. }
  rewrite !G. cbn [andb].
  split; [apply js_isNaN_nan|]. split; [reflexivity|].
  apply in_or_app. right. apply in_or_app. right. left. reflexivity.
Qed.

End StillAnkle.

Lemma exact_still_consistency (d p t : xnum) :
  eqb d p = true -> eqb t (of_Z 0) = true -> div (abs (sub d p)) t = nan.
Proof.
  destruct d as [d| | |], p as [p| | |]; try discriminate;
    destruct t as [t| | |]; try discriminate; intros E Z; try reflexivity.
  change (eqb (Fin d) (Fin p)) with (Qeq_bool d p) in E.
  change (eqb (Fin t) (of_Z 0)) with (Qeq_bool t (inject_Z 0)) in Z.
  change (div (abs (sub (Fin d) (Fin p))) (Fin t))
    with (xdiv (Fin (Qabs (d + - p))) (Fin t)).
  unfold xdiv. change (inject_Z 0) with 0 in Z. rewrite Z.
  unfold signed_inf.
  replace (Qeq_bool (Qabs (d + - p)) 0) with true; [reflexivity|].
  symmetry. apply Qeq_bool_iff. apply Qeq_bool_iff in E.
  rewrite E. setoid_replace (p + - p) with 0 by ring. reflexivity.
Qed.

Lemma SFeqb_zero (x : spec_float) :
  SFeqb x (S754_zero false) = true -> exists s, x = S754_zero s.
Proof.
  destruct x as [s|s| |s m e]; try destruct s; try discriminate;
    intros _; eexists; reflexivity.
Qed.

(** The difference of two equal binary64 numbers is a zero, or NaN for two
    infinities. *)
Lemma SFsub_equal (x y : spec_float) :
  SFeqb x y = true ->
  FloatAxioms.SF64sub x y = S754_nan \/ exists s, FloatAxioms.SF64sub x y = S754_zero s.
Proof.
  unfold SFeqb, SFcompare, FloatAxioms.SF64sub, SFsub.
  destruct x as [sx|sx| |sx mx ex], y as [sy|sy| |sy my ey];
    try destruct sx; try destruct sy; try discriminate; intros E;
    try (left; reflexivity); try (right; eexists; reflexivity).
  - change (Pos.compare_cont Eq mx my) with (Pos.compare mx my) in E.
    destruct (Z.compare_spec ex ey) as [-> | |]; try discriminate.
    destruct (Pos.compare_spec mx my) as [-> | |]; try discriminate.
    right. exists false. cbv zeta. rewrite Z.sub_diag. reflexivity.
  - change (Pos.compare_cont Eq mx my) with (Pos.compare mx my) in E.
    destruct (Z.compare_spec ex ey) as [-> | |]; try discriminate.
    destruct (Pos.compare_spec mx my) as [-> | |]; try discriminate.
    right. exists false. cbv zeta. rewrite Z.sub_diag. reflexivity.
Qed.

Lemma float_still_consistency (d p t : float) :
  eqb d p = true -> eqb t (of_Z 0) = true -> div (abs (sub d p)) t = nan.
Proof.
  change (@eqb float _) with PrimFloat.eqb. change (@div float _) with PrimFloat.div.
  change (@abs float _) with PrimFloat.abs. change (@sub float _) with PrimFloat.sub.
  change (@nan float _) with PrimFloat.nan.
  change (@of_Z float _ 0) with PrimFloat.zero.
  rewrite !FloatAxioms.eqb_spec. change (Prim2SF PrimFloat.zero) with (S754_zero false).
  intros E Z. apply SF_nan_is_nan.
  rewrite FloatAxioms.div_spec, FloatAxioms.abs_spec, FloatAxioms.sub_spec.
  destruct (SFeqb_zero _ Z) as [s ->].
  destruct (SFsub_equal _ _ E) as [-> |[s' ->]]; reflexivity.
Qed.

(** X28.  An ankle analysis in which one side reports no movement (equal
    extremes and a total ROM of 0, as a flat series gives) gets NaN
    confidence and quality poor with the poor-quality message, whatever
    the other side is: the side's consistency is 0/0.  In exact arithmetic
    and in binary64.  A total ROM of 0 alone does not make it so: in
    binary64 the series [ankleDrift] gives the total ROM 0 with the
    extremes 0.4 and 0.3, the consistency is 0.1/0, and the analysis is
    rated excellent with confidence Infinity. *)
Theorem ankle_quality_motionless :
  (forall a : AnkleROMCalculator.AnkleROMAnalysis xnum,
     still_side (AnkleROMCalculator.left a) \/ still_side (AnkleROMCalculator.right a) ->
     unusable a)
  /\ (forall a : AnkleROMCalculator.AnkleROMAnalysis float,
     still_side (AnkleROMCalculator.left a) \/ still_side (AnkleROMCalculator.right a) ->
     unusable a)
  /\ still_side
       (AnkleROMCalculator.left
          (AnkleROMCalculator.calculateBilateralROM (flat12 : list float) ankle12))
  /\ (let a := AnkleROMCalculator.calculateBilateralROM
                 (ankleDrift : list float) ankleDrift in
      AnkleROMCalculator.totalROM (AnkleROMCalculator.left a) = of_Z 0
      /\ AnkleROMCalculator.maxDorsiflexion (AnkleROMCalculator.left a) = dec 4 1
      /\ AnkleROMCalculator.maxPlantarflexion (AnkleROMCalculator.left a) = dec 3 1
      /\ AnkleROMCalculator.confidence (AnkleROMCalculator.calculateQualityMetrics a)
         = pos_infinity
      /\ AnkleROMCalculator.dataQuality (AnkleROMCalculator.calculateQualityMetrics a)
         = ROMCalculator.excellent).
Proof.
  split; [|split; [|split]].
  - intro a. apply still_side_unusable; try reflexivity.
    + intros [x| | |]; reflexivity.
    + exact exact_still_consistency.
  - intro a. apply still_side_unusable.
    + exact float_add_nan_l.
    + exact float_add_nan_r.
    + exact float_div_nan_l.
    + vm_compute. reflexivity.
    + exact float_still_consistency.
  - split; vm_compute; reflexivity.
  - cbv zeta. split; [vm_compute; reflexivity|]. split; [vm_compute; reflexivity|].
    split; [vm_compute; reflexivity|]. split; vm_compute; reflexivity.
Qed.

(** ** Where NaN goes: the chart pipeline in binary64 *)

Section NaNPropagation.
Context {N : Type} {JSN : JSNumber N}.
Hypothesis add_nan_l : forall x : N, add nan x = nan.
Hypothesis add_nan_r : forall x : N, add x nan = nan.
Hypothesis div_nan_l : forall x : N, div nan x = nan.
Hypothesis round1_nan : round1 (nan : N) = nan.

Lemma fold_get_nan {A : Type} (g : A -> N) (l : list A) :
  fold_left (fun s c => add s (g c)) l nan = nan.
Proof.
  induction l as [|c l IH]; [reflexivity|]. cbn [fold_left].
  rewrite add_nan_l. exact IH.
Qed.

Lemma fold_get_absorbs {A : Type} (g : A -> N) (l : list A) (a : N) (c : A) :
  In c l -> g c = nan -> fold_left (fun s c => add s (g c)) l a = nan.
Proof.
  revert a. induction l as [|x l IH]; intros a H E; [destruct H|].
  cbn [fold_left]. destruct H as [->|H].
  - rewrite E, add_nan_r. apply fold_get_nan.
  - apply IH; assumption.
Qed.

Lemma averageSeries_nan (cycles : list (GaitCycleDetector.NormalizedCycle N))
    (f : GaitCycleDetector.NormalizedCycle N -> list N) (p i : nat)
    (c : GaitCycleDetector.NormalizedCycle N) :
  In c cycles -> (i < p)%nat -> get (f c) i = nan ->
  get (GaitCycleDetector.averageSeries cycles f p) i = nan.
Proof.
  intros Hc Hi E. unfold GaitCycleDetector.averageSeries.
  destruct cycles as [|c0 rest] eqn:Ec; [destruct Hc|]. rewrite <- Ec in *.
  rewrite map_map. unfold get.
  rewrite (nth_indep _ nan (round1 (GaitCycleDetector.averageAt cycles f 0)))
    by (rewrite length_map, length_seq; exact Hi).
  rewrite (map_nth (fun x => round1 (GaitCycleDetector.averageAt cycles f x))).
  rewrite seq_nth by exact Hi. cbn [Nat.add].
  unfold GaitCycleDetector.averageAt.
  rewrite (fold_get_absorbs (fun c => get (f c) i) cycles (of_Z 0) c Hc E).
  rewrite div_nan_l. exact round1_nan.
Qed.

End NaNPropagation.

(** The last of 101 points resampled from 111 samples, in binary64: the
    position [100 * (110 / 100)] lies above 110, and the sample read at
    111 is missing. *)
Lemma resampleData_111_last (d : list float) :
  length d = 111%nat ->
  get (GaitCycleDetector.resampleData d 101) 100 = nan.
Proof.
  intro L. destruct d as [|x [|y l]] eqn:Ed; try discriminate L.
  rewrite <- Ed in *.
  replace (GaitCycleDetector.resampleData d 101) with
    (map (fun i =>
      let index := mul (of_nat i)
                     (div (sub (of_nat (length d)) (of_Z 1))
                          (sub (of_nat 101) (of_Z 1))) in
      let lowerIndex := floor index in
      let upperIndex := ceil index in
      if eqb lowerIndex upperIndex then get_num d lowerIndex
      else
        let weight := sub index lowerIndex in
        let interpolated :=
          add (mul (get_num d lowerIndex) (sub (of_Z 1) weight))
              (mul (get_num d upperIndex) weight) in
        round1 interpolated) (seq 0 101))
    by (rewrite Ed; reflexivity).
  unfold get.
  match goal with
  | |- nth 100 (map ?f _) _ = _ =>
      rewrite (nth_indep _ nan (f 0%nat)) by (rewrite length_map, length_seq; lia);
      rewrite (map_nth f); rewrite seq_nth by lia
  end.
  cbn [Nat.add]. rewrite L. cbv zeta.
  set (index := mul (of_nat 100)
                  (div (sub (of_nat 111) (of_Z 1)) (sub (of_nat 101) (of_Z 1)))).
  assert (E1 : eqb (floor index) (ceil index) = false) by (vm_compute; reflexivity).
  assert (E2 : to_index (ceil index) = Some 111%nat) by (vm_compute; reflexivity).
  rewrite E1. unfold get_num at 2. rewrite E2.
  rewrite (nth_overflow d) by lia.
  change (@mul float _) with PrimFloat.mul. change (@add float _) with PrimFloat.add.
  change (@nan float _) with PrimFloat.nan.
  rewrite float_mul_nan_l, float_add_nan_r. vm_compute. reflexivity.
Qed.

Lemma strides_cycles_binary64 :
  exists c : GaitCycleDetector.GaitCycle float,
    In c (GaitCycleDetector.extractGaitCycles (@strides float _ 300)
            (GaitCycleDetector.detectInitialContacts (@strides float _ 300)))
    /\ GaitCycleDetector.leg c = GaitCycleDetector.Left
    /\ GaitCycleDetector.endFrame c = (GaitCycleDetector.startFrame c + 110)%nat.
Proof.
  vm_compute. eexists. split; [left; reflexivity|]. split; reflexivity.
Qed.

(** X30.  In binary64 a cycle of 111 samples, the stride of 1.1 s at
    100 Hz, poisons the chart: whenever the recording holds a cycle of a
    leg that ends 110 frames after it starts, the last of the 101 points
    of each averaged series of that leg is NaN, whatever the angles are
    and however many other cycles there are. *)
Theorem chart_last_point_binary64 (data : list (GaitCycleDetector.GaitData float))
    (c : GaitCycleDetector.GaitCycle float) (j : Joint) :
  In c (GaitCycleDetector.extractGaitCycles data
          (GaitCycleDetector.detectInitialContacts data)) ->
  GaitCycleDetector.endFrame c = (GaitCycleDetector.startFrame c + 110)%nat ->
  length (averageOf (GaitCycleDetector.leg c) j (chartAverages data 101)) = 101%nat
  /\ get (averageOf (GaitCycleDetector.leg c) j (chartAverages data 101)) 100 = nan.
Proof.
  intros Hc He. unfold chartAverages.
  rewrite averageOf_series, averageSeries_length, detected_pointsCount.
  split; [destruct (filter _ _); reflexivity|].
  replace (match filter _ _ with [] => 101%nat | _ :: _ => 101%nat end) with 101%nat
    by (destruct (filter _ _); reflexivity).
  pose proof Hc as H'. apply extractGaitCycles_In in H'.
  destruct H' as (leg & s & e & _ & C).
  destruct (createGaitCycle_arrays data s e leg c C) as (Eh & Ek & Ea & _).
  destruct (createGaitCycle_fields _ _ _ _ _ C) as (El & Es & Ee & _).
  rewrite <- Es, <- Ee in Eh, Ek, Ea.
  set (n := GaitCycleDetector.mkNormalizedCycle (GaitCycleDetector.leg c)
              (GaitCycleDetector.resampleData (GaitCycleDetector.hipAngles c) 101)
              (GaitCycleDetector.resampleData (GaitCycleDetector.kneeAngles c) 101)
              (GaitCycleDetector.resampleData (GaitCycleDetector.ankleAngles c) 101)).
  apply (@averageSeries_nan float float_JSNumber float_add_nan_l float_add_nan_r
           float_div_nan_l ltac:(vm_compute; reflexivity) _ _ 101%nat 100%nat n).
  - unfold cyclesOfLeg. apply filter_In. split.
    + unfold GaitCycleDetector.normalizeGaitCycles.
      apply in_map_iff. exists c. split; [reflexivity|exact Hc].
    + unfold n. cbn [GaitCycleDetector.normalized_leg].
      destruct (GaitCycleDetector.leg c); reflexivity.
  - lia.
  - assert (L : forall g : GaitCycleDetector.GaitData float -> float,
              length (map g (slice data (GaitCycleDetector.startFrame c)
                               (GaitCycleDetector.endFrame c + 1))) = 111%nat)
      by (intro g; rewrite (detected_cycle_length data c g Hc); lia).
    destruct j; unfold n;
      cbn [normalizedOf GaitCycleDetector.normalizedHip
           GaitCycleDetector.normalizedKnee GaitCycleDetector.normalizedAnkle];
      apply resampleData_111_last; [rewrite Eh|rewrite Ek|rewrite Ea]; apply L.
Qed.

Lemma chart_last_point_binary64_witness :
  exists c : GaitCycleDetector.GaitCycle float,
    In c (GaitCycleDetector.extractGaitCycles (@strides float _ 300)
            (GaitCycleDetector.detectInitialContacts (@strides float _ 300)))
    /\ get (averageOf (GaitCycleDetector.leg c) Hip
              (chartAverages (@strides float _ 300) 101)) 100 = PrimFloat.nan.
Proof.
  destruct strides_cycles_binary64 as (c & H & _ & E). exists c.
  split; [exact H|].
  exact (proj2 (chart_last_point_binary64 (strides 300) c Hip H E)).
Defined.
